(** * Gated PixelCNN: a shallow embedding of
      [pytorch_generative/models/gated_pixel_cnn.py]

    The Python module defines three [nn.Module] classes, [GatedActivation],
    [GatedPixelCNNLayer] and [GatedPixelCNN].  They are embedded here as
    functions over tensors whose scalars are kept abstract (class [Scalar]):
    a tensor is its shape together with the value stored at every index.
    Every operation that can raise in Python returns a [result].

    The tensor engine itself ([torch]) is not part of the module; the few
    operations the module calls (convolution, slicing, broadcasting
    arithmetic, [view], [squeeze], [where]) are modelled in [Torch] after
    their documented semantics. *)

From Stdlib Require Import String List Arith ZArith Lia Bool.
From Stdlib Require Import Reals Lra.
Import ListNotations.

Set Implicit Arguments.

#[local] Arguments Nat.div : simpl never.
#[local] Arguments Nat.modulo : simpl never.
#[local] Arguments Nat.mul : simpl never.
#[local] Arguments Z.of_nat : simpl never.
#[local] Arguments Z.to_nat : simpl never.

(** ** Python exceptions and fallible computations *)

Inductive PyError : Type :=
| AssertionError
| RuntimeError       (* raised by torch on shape mismatches *)
| ValueError
| IndexError
| AttributeError
| UnboundLocalError. (* a subclass of NameError *)

(** [UnboundLocalError] derives from [NameError] in Python. *)
Definition is_NameError (e : PyError) : bool :=
  match e with
  | UnboundLocalError => true
  | _ => false
  end.

Inductive result (T : Type) : Type :=
| Ok (v : T)
| Err (e : PyError).

Arguments Ok {T} v.
Arguments Err {T} e.

Definition bind {T U : Type} (r : result T) (k : T -> result U) : result U :=
  match r with
  | Ok v => k v
  | Err e => Err e
  end.

Definition py_assert (b : bool) : result unit :=
  if b then Ok tt else Err AssertionError.

Declare Scope py_scope.
Delimit Scope py_scope with py.
Notation "x <- c ;; k" := (bind c (fun x => k))
  (at level 100, c at next level, right associativity) : py_scope.
Notation "' p <- c ;; k" := (bind c (fun p => k))
  (at level 100, p pattern, c at next level, right associativity) : py_scope.
Notation "'assert!' b ;; k" := (bind (py_assert b) (fun _ => k))
  (at level 100, b at next level, right associativity) : py_scope.
Open Scope py_scope.

(** ** Scalars

    The element type of a tensor with the operations the module applies to
    it.  [ltz x] is the test [x < 0] used by the sampling loop. *)

Class Scalar (A : Type) : Type := {
  zero : A;
  one : A;
  add : A -> A -> A;
  mul : A -> A -> A;
  neg : A -> A;
  tanh : A -> A;
  sigmoid : A -> A;
  relu : A -> A;
  ltz : A -> bool
}.

(** ** Tensors *)

Record Tensor (A : Type) : Type := mkTensor {
  tshape : list nat;
  tdata : list nat -> A
}.

Arguments mkTensor {A} tshape tdata.

Fixpoint shape_eqb (s t : list nat) : bool :=
  match s, t with
  | [], [] => true
  | d :: s', e :: t' => (d =? e) && shape_eqb s' t'
  | _, _ => false
  end.

Fixpoint numel (s : list nat) : nat :=
  match s with
  | [] => 1
  | d :: s' => d * numel s'
  end.

Module Torch.
Section Ops.
Context {A : Type} {SA : Scalar A}.

(** *** Broadcasting (NumPy rules: align the shapes on the right, an axis
    of extent 1 stretches). *)

Fixpoint broadcast_rev (a b : list nat) : option (list nat) :=
  match a, b with
  | [], _ => Some b
  | _, [] => Some a
  | x :: a', y :: b' =>
      match broadcast_rev a' b' with
      | None => None
      | Some r =>
          if x =? y then Some (x :: r)
          else if x =? 1 then Some (y :: r)
          else if y =? 1 then Some (x :: r)
          else None
      end
  end.

Definition broadcast_shapes (a b : list nat) : option (list nat) :=
  option_map (@rev nat) (broadcast_rev (rev a) (rev b)).

Fixpoint bindex_aligned (s idx : list nat) : list nat :=
  match s, idx with
  | d :: s', i :: idx' => (if d =? 1 then 0 else i) :: bindex_aligned s' idx'
  | _, _ => []
  end.

(** The index read in an operand of shape [s] for the index [idx] of the
    broadcast result. *)
Definition bindex (s idx : list nat) : list nat :=
  bindex_aligned s (skipn (length idx - length s) idx).

Definition tmap (f : A -> A) (x : Tensor A) : Tensor A :=
  mkTensor (tshape x) (fun idx => f (tdata x idx)).

Definition binop (f : A -> A -> A) (a b : Tensor A) : result (Tensor A) :=
  match broadcast_shapes (tshape a) (tshape b) with
  | Some s =>
      Ok (mkTensor s (fun idx =>
            f (tdata a (bindex (tshape a) idx))
              (tdata b (bindex (tshape b) idx))))
  | None => Err RuntimeError
  end.

(** [a + b] and [a * b]. *)
Definition tadd : Tensor A -> Tensor A -> result (Tensor A) := binop add.
Definition tmul : Tensor A -> Tensor A -> result (Tensor A) := binop mul.

(** [a += b]: the result is written into [a], so [b] has to broadcast to
    the shape of [a]. *)
Definition tiadd (a b : Tensor A) : result (Tensor A) :=
  match broadcast_shapes (tshape a) (tshape b) with
  | Some s =>
      if shape_eqb s (tshape a)
      then Ok (mkTensor (tshape a) (fun idx =>
                 add (tdata a idx) (tdata b (bindex (tshape b) idx))))
      else Err RuntimeError
  | None => Err RuntimeError
  end.

(** *** Basic slicing along one axis *)

Fixpoint upd_dim (dim : nat) (f : nat -> nat) (s : list nat)
  : option (list nat) :=
  match s, dim with
  | [], _ => None
  | d :: s', 0 => Some (f d :: s')
  | d :: s', S k => option_map (cons d) (upd_dim k f s')
  end.

Fixpoint shift_idx (dim start : nat) (idx : list nat) : list nat :=
  match idx, dim with
  | [], _ => []
  | i :: idx', 0 => (start + i) :: idx'
  | i :: idx', S k => i :: shift_idx k start idx'
  end.

(** [x[..., :stop, ...]] with the slice on axis [dim]; as in Python the
    bound is clamped to the extent of the axis. *)
Definition slice_to (dim stop : nat) (x : Tensor A) : result (Tensor A) :=
  match upd_dim dim (Nat.min stop) (tshape x) with
  | Some s => Ok (mkTensor s (tdata x))
  | None => Err IndexError
  end.

(** [x[..., start:, ...]] with the slice on axis [dim]. *)
Definition slice_from (dim start : nat) (x : Tensor A) : result (Tensor A) :=
  match upd_dim dim (fun d => d - Nat.min start d) (tshape x) with
  | Some s => Ok (mkTensor s (fun idx => tdata x (shift_idx dim start idx)))
  | None => Err IndexError
  end.

(** *** 2-d convolution, stride 1, zero padding, no dilation, one group *)

Record Conv2d : Type := mkConv2d {
  in_channels : nat;
  out_channels : nat;
  kernel_h : nat;
  kernel_w : nat;
  padding_h : Z;
  padding_w : Z;
  weight : nat -> nat -> nat -> nat -> A;  (* out, in, row, column *)
  bias : nat -> A
}.

(** [nn.Conv2d(in_channels, out_channels, kernel_size, padding)].  The
    weight tensor has shape (out, in, kh, kw); creating a tensor with a
    negative extent raises.  The initial values of the parameters are
    random in torch and are taken as arguments here. *)
Definition Conv2d_init (cin cout : nat) (kernel_size padding : Z * Z)
    (w : nat -> nat -> nat -> nat -> A) (b : nat -> A) : result Conv2d :=
  let '(kh, kw) := kernel_size in
  let '(ph, pw) := padding in
  if ((kh <? 0) || (kw <? 0))%Z then Err RuntimeError
  else Ok (mkConv2d cin cout (Z.to_nat kh) (Z.to_nat kw) ph pw w b).

Definition sum_n (n : nat) (f : nat -> A) : A :=
  fold_right (fun i acc => add (f i) acc) zero (seq 0 n).

(** The input of extent [H]x[W] seen through [ph] rows and [pw] columns
    of zeros on every side. *)
Definition padded (x : Tensor A) (H W ph pw : nat) (n c i j : nat) : A :=
  if (ph <=? i) && (i <? ph + H) && (pw <=? j) && (j <? pw + W)
  then tdata x [n; c; i - ph; j - pw]
  else zero.

(** The value of the convolution at output position [(n, co, i, j)]:
    the cross-correlation of the documentation of [nn.Conv2d]. *)
Definition conv2d_at (cv : Conv2d) (x : Tensor A) (C H W ph pw : nat)
    (n co i j : nat) : A :=
  add (bias cv co)
    (sum_n C (fun ci =>
       sum_n (kernel_h cv) (fun a =>
         sum_n (kernel_w cv) (fun b =>
           mul (weight cv co ci a b)
               (padded x H W ph pw n ci (i + a) (j + b)))))).

(** Calling a convolution.  torch rejects an input that is not
    (N, C, H, W) with [C = in_channels], a negative padding, a weight
    without output channels and a padded input smaller than the kernel.
    An empty batch is accepted and gives an empty output; in a batch that
    is not empty, an input without channels, without rows or without
    columns is rejected. *)
Definition conv2d (cv : Conv2d) (x : Tensor A) : result (Tensor A) :=
  match tshape x with
  | [N; C; H; W] =>
      if ((padding_h cv <? 0) || (padding_w cv <? 0))%Z then Err RuntimeError
      else
        let ph := Z.to_nat (padding_h cv) in
        let pw := Z.to_nat (padding_w cv) in
        if out_channels cv =? 0 then Err RuntimeError
        else if negb (C =? in_channels cv) then Err RuntimeError
        else if (H + 2 * ph <? kernel_h cv) || (W + 2 * pw <? kernel_w cv)
        then Err RuntimeError
        else if negb (N =? 0) && ((C =? 0) || (H =? 0) || (W =? 0))
        then Err RuntimeError
        else
          Ok (mkTensor
                [N; out_channels cv;
                 H + 2 * ph - kernel_h cv + 1; W + 2 * pw - kernel_w cv + 1]
                (fun idx =>
                   match idx with
                   | [n; co; i; j] => conv2d_at cv x C H W ph pw n co i j
                   | _ => zero
                   end))
  | _ => Err RuntimeError
  end.

(** *** [view]: a contiguous tensor read through another shape *)

(** Row-major offset of an index. *)
Fixpoint ravel (s idx : list nat) (acc : nat) : nat :=
  match s, idx with
  | d :: s', i :: idx' => ravel s' idx' (acc * d + i)
  | _, _ => acc
  end.

Fixpoint unravel (s : list nat) (k : nat) : list nat :=
  match s with
  | [] => []
  | d :: s' => (k / numel s') :: unravel s' (k mod numel s')
  end.

Definition view (s : list nat) (x : Tensor A) : result (Tensor A) :=
  if numel s =? numel (tshape x)
  then Ok (mkTensor s (fun idx => tdata x (unravel (tshape x) (ravel s idx 0))))
  else Err RuntimeError.

(** *** [squeeze(dim)], integer indexing, [where], item assignment *)

Fixpoint insert_at (dim i : nat) (idx : list nat) : list nat :=
  match dim, idx with
  | 0, _ => i :: idx
  | S k, [] => [i]
  | S k, j :: idx' => j :: insert_at k i idx'
  end.

Fixpoint remove_at (dim : nat) (s : list nat) : list nat :=
  match dim, s with
  | _, [] => []
  | 0, _ :: s' => s'
  | S k, d :: s' => d :: remove_at k s'
  end.

(** [x.squeeze(dim)] drops the axis when its extent is 1 and returns [x]
    unchanged otherwise. *)
Definition squeeze (dim : nat) (x : Tensor A) : result (Tensor A) :=
  match nth_error (tshape x) dim with
  | Some 1 =>
      Ok (mkTensor (remove_at dim (tshape x))
                   (fun idx => tdata x (insert_at dim 0 idx)))
  | Some _ => Ok x
  | None => Err IndexError
  end.

(** [x.select(dim, i)]: integer index [i] on axis [dim]. *)
Definition select (dim i : nat) (x : Tensor A) : result (Tensor A) :=
  match nth_error (tshape x) dim with
  | Some d =>
      if i <? d
      then Ok (mkTensor (remove_at dim (tshape x))
                        (fun idx => tdata x (insert_at dim i idx)))
      else Err IndexError
  | None => Err IndexError
  end.

(** [x[:, c, i, j]]. *)
Definition index3 (c i j : nat) (x : Tensor A) : result (Tensor A) :=
  x1 <- select 1 c x ;;
  x2 <- select 1 i x1 ;;
  select 1 j x2.

(** [torch.where(x < 0, a, x)] for [a] and [x] of shapes that broadcast. *)
Definition where_neg (x a : Tensor A) : result (Tensor A) :=
  binop (fun xv av => if ltz xv then av else xv) x a.

(** [x[:, c, i, j] = v]: [v] has to broadcast to the shape of the selected
    slice, which is that of [x] without the axes 1, 2 and 3. *)
Definition setitem3 (c i j : nat) (x v : Tensor A) : result (Tensor A) :=
  target <- index3 c i j x ;;
  match broadcast_shapes (tshape target) (tshape v) with
  | Some s =>
      if shape_eqb s (tshape target)
      then Ok (mkTensor (tshape x) (fun idx =>
                 match idx with
                 | n :: c' :: i' :: j' :: rest =>
                     if (c' =? c) && (i' =? i) && (j' =? j)
                     then tdata v (bindex (tshape v) (n :: rest))
                     else tdata x idx
                 | _ => tdata x idx
                 end))
      else Err RuntimeError
  | None => Err RuntimeError
  end.

(** [torch.ones(s) * -1]. *)
Definition full_neg_one (s : list nat) : Tensor A :=
  mkTensor s (fun _ => mul one (neg one)).

(** *** [nn.ReLU], [nn.Sigmoid], [nn.Conv2d] under [nn.Sequential] *)

Inductive Layer : Type :=
| ReLU
| Sigmoid
| Conv (cv : Conv2d).

Definition apply_layer (m : Layer) (x : Tensor A) : result (Tensor A) :=
  match m with
  | ReLU => Ok (tmap relu x)
  | Sigmoid => Ok (tmap sigmoid x)
  | Conv cv => conv2d cv x
  end.

Fixpoint Sequential (ms : list Layer) (x : Tensor A) : result (Tensor A) :=
  match ms with
  | [] => Ok x
  | m :: ms' => y <- apply_layer m x ;; Sequential ms' y
  end.

End Ops.

Arguments Conv2d A : clear implicits.
Arguments Layer A : clear implicits.

End Torch.

(** ** [class GatedActivation] *)

Module GatedActivation.
Section Forward.
Context {A : Type} {SA : Scalar A}.

(** [forward(self, x)]: unpacks the four extents of [x], asserts that the
    channel count is even and gates the two halves. *)
Definition forward (x : Tensor A) : result (Tensor A) :=
  match tshape x with
  | [_; c; _; _] =>
      assert! (c mod 2 =? 0) ;;
      tanh_half <- Torch.slice_to 1 (c / 2) x ;;
      sigmoid_half <- Torch.slice_from 1 (c / 2) x ;;
      Torch.tmul (Torch.tmap tanh tanh_half) (Torch.tmap sigmoid sigmoid_half)
  | _ => Err ValueError
  end.

End Forward.
End GatedActivation.

(** ** [class GatedPixelCNNLayer] *)

Module GatedPixelCNNLayer.
Section Layer.
Context {A : Type} {SA : Scalar A}.

(** Weight and bias of one convolution. *)
Definition conv_params : Type := ((nat -> nat -> nat -> nat -> A) * (nat -> A))%type.

(** The values of the learned parameters of a layer, one entry for each of
    its seven convolutions. *)
Record Params : Type := mkParams {
  p_vstack_1xN : conv_params;
  p_vstack_Nx1 : conv_params;
  p_vstack_1x1 : conv_params;
  p_link : conv_params;
  p_hstack_1xN : conv_params;
  p_hstack_residual : conv_params;
  p_hstack_skip : conv_params
}.

Record t : Type := mk {
  _in_channels : nat;
  _out_channels : nat;
  _kernel_size : Z;
  _padding : Z;
  _is_causal : bool;
  _vstack_1xN : Torch.Conv2d A;
  _vstack_Nx1 : Torch.Conv2d A;
  _vstack_1x1 : Torch.Conv2d A;
  _link : Torch.Conv2d A;
  _hstack_1xN : Torch.Conv2d A;
  _hstack_residual : Torch.Conv2d A;
  _hstack_skip : Torch.Conv2d A
}.

Definition new_conv (cin cout : nat) (kernel_size padding : Z * Z)
    (p : conv_params) : result (Torch.Conv2d A) :=
  Torch.Conv2d_init cin cout kernel_size padding (fst p) (snd p).

(** [__init__(self, in_channels, out_channels, kernel_size, is_causal)].
    [%] and [//] on Python integers are [Z.modulo] and [Z.div]. *)
Definition __init__ (in_channels out_channels : nat) (kernel_size : Z)
    (is_causal : bool) (p : Params) : result t :=
  assert! (kernel_size mod 2 =? 1)%Z ;;
  let padding := ((kernel_size - 1) / 2)%Z in
  vstack_1xN <- new_conv in_channels out_channels
                  (1, kernel_size)%Z (0, padding)%Z (p_vstack_1xN p) ;;
  vstack_Nx1 <- new_conv out_channels (2 * out_channels)
                  (kernel_size / 2 + 1, 1)%Z (padding + 1, 0)%Z (p_vstack_Nx1 p) ;;
  vstack_1x1 <- new_conv in_channels (2 * out_channels)
                  (1, 1)%Z (0, 0)%Z (p_vstack_1x1 p) ;;
  link <- new_conv (2 * out_channels) (2 * out_channels)
                  (1, 1)%Z (0, 0)%Z (p_link p) ;;
  hstack_1xN <- new_conv in_channels (2 * out_channels)
                  (1, kernel_size / 2 + 1)%Z
                  (0, padding + Z.b2z is_causal)%Z (p_hstack_1xN p) ;;
  hstack_residual <- new_conv out_channels out_channels
                  (1, 1)%Z (0, 0)%Z (p_hstack_residual p) ;;
  hstack_skip <- new_conv out_channels out_channels
                  (1, 1)%Z (0, 0)%Z (p_hstack_skip p) ;;
  Ok (mk in_channels out_channels kernel_size padding is_causal
         vstack_1xN vstack_Nx1 vstack_1x1 link
         hstack_1xN hstack_residual hstack_skip).

(** [forward(self, vstack_input, hstack_input)], statement by statement.
    [link] is computed from [vstack] before the in-place addition of the
    1x1 shortcut, and the convolution returns a fresh tensor, so the later
    [vstack += ...] does not change it. *)
Definition forward (self : t) (vstack_input hstack_input : Tensor A)
  : result (Tensor A * Tensor A * Tensor A) :=
  match tshape vstack_input with
  | [_; _; h; w] =>
      (* Compute vertical stack. *)
      v1xN <- Torch.conv2d (_vstack_1xN self) vstack_input ;;
      vNx1 <- Torch.conv2d (_vstack_Nx1 self) v1xN ;;
      vstack <- Torch.slice_to 2 h vNx1 ;;
      link <- Torch.conv2d (_link self) vstack ;;
      shortcut <- Torch.conv2d (_vstack_1x1 self) vstack_input ;;
      vstack <- Torch.tiadd vstack shortcut ;;
      vstack <- GatedActivation.forward vstack ;;
      (* Compute horizontal stack. *)
      h1xN <- Torch.conv2d (_hstack_1xN self) hstack_input ;;
      h1xN <- Torch.slice_to 3 w h1xN ;;
      hstack <- Torch.tadd link h1xN ;;
      hstack <- GatedActivation.forward hstack ;;
      skip <- Torch.conv2d (_hstack_skip self) hstack ;;
      hstack <- Torch.conv2d (_hstack_residual self) hstack ;;
      hstack <- (if negb (_is_causal self)
                 then Torch.tiadd hstack hstack_input
                 else Ok hstack) ;;
      Ok (vstack, hstack, skip)
  | _ => Err ValueError
  end.

(** *** Intermediate values of [forward]

    The prefixes of the body of [forward] that compute the values the
    statements about the layer speak of. *)





(** The values bound by the successive statements of one run of
    [forward]. *)
Record trace : Type := mkTrace {
  t_v1xN : Tensor A;
  t_vNx1 : Tensor A;
  t_vconv : Tensor A;
  t_link : Tensor A;
  t_shortcut : Tensor A;
  t_vpre : Tensor A;
  t_vstack : Tensor A;
  t_h1xN : Tensor A;
  t_hcrop : Tensor A;
  t_hpre : Tensor A;
  t_gated : Tensor A;
  t_skip : Tensor A;
  t_res : Tensor A;
  t_hstack : Tensor A
}.

(** [runs self v h H W tr]: every statement of [forward self v h]
    succeeds, on inputs of spatial extent [H]x[W], with the values of
    [tr]. *)
Record runs (self : t) (v h : Tensor A) (H W : nat) (tr : trace) : Prop :=
  mkRuns {
  r_v1xN : Torch.conv2d (_vstack_1xN self) v = Ok (t_v1xN tr);
  r_vNx1 : Torch.conv2d (_vstack_Nx1 self) (t_v1xN tr) = Ok (t_vNx1 tr);
  r_vconv : Torch.slice_to 2 H (t_vNx1 tr) = Ok (t_vconv tr);
  r_link : Torch.conv2d (_link self) (t_vconv tr) = Ok (t_link tr);
  r_shortcut : Torch.conv2d (_vstack_1x1 self) v = Ok (t_shortcut tr);
  r_vpre : Torch.tiadd (t_vconv tr) (t_shortcut tr) = Ok (t_vpre tr);
  r_vstack : GatedActivation.forward (t_vpre tr) = Ok (t_vstack tr);
  r_h1xN : Torch.conv2d (_hstack_1xN self) h = Ok (t_h1xN tr);
  r_hcrop : Torch.slice_to 3 W (t_h1xN tr) = Ok (t_hcrop tr);
  r_hpre : Torch.tadd (t_link tr) (t_hcrop tr) = Ok (t_hpre tr);
  r_gated : GatedActivation.forward (t_hpre tr) = Ok (t_gated tr);
  r_skip : Torch.conv2d (_hstack_skip self) (t_gated tr) = Ok (t_skip tr);
  r_res : Torch.conv2d (_hstack_residual self) (t_gated tr) = Ok (t_res tr);
  r_hstack : (if negb (_is_causal self)
              then Torch.tiadd (t_res tr) h
              else Ok (t_res tr)) = Ok (t_hstack tr)
}.

(** The layer [__init__] builds for [kernel_size = 2 * pad + 1]. *)
Definition layer_of (in_channels out_channels pad : nat) (is_causal : bool)
    (p : Params) : t :=
  let conv cin cout kh kw ph pw (q : conv_params) :=
    Torch.mkConv2d cin cout kh kw (Z.of_nat ph) (Z.of_nat pw) (fst q) (snd q) in
  mk in_channels out_channels (Z.of_nat (2 * pad + 1)) (Z.of_nat pad) is_causal
     (conv in_channels out_channels 1 (2 * pad + 1) 0 pad (p_vstack_1xN p))
     (conv out_channels (2 * out_channels) (pad + 1) 1 (pad + 1) 0
           (p_vstack_Nx1 p))
     (conv in_channels (2 * out_channels) 1 1 0 0 (p_vstack_1x1 p))
     (conv (2 * out_channels) (2 * out_channels) 1 1 0 0 (p_link p))
     (conv in_channels (2 * out_channels) 1 (pad + 1) 0
           (pad + Nat.b2n is_causal) (p_hstack_1xN p))
     (conv out_channels out_channels 1 1 0 0 (p_hstack_residual p))
     (conv out_channels out_channels 1 1 0 0 (p_hstack_skip p)).

End Layer.

Arguments Params A : clear implicits.
Arguments conv_params A : clear implicits.
Arguments t A : clear implicits.
Arguments trace A : clear implicits.

End GatedPixelCNNLayer.

(** ** [class GatedPixelCNN] *)

Module GatedPixelCNN.
Section Model.
Context {A : Type} {SA : Scalar A}.

Record Params : Type := mkParams {
  p_input : GatedPixelCNNLayer.Params A;
  p_gated : nat -> GatedPixelCNNLayer.Params A;
  p_head_1 : GatedPixelCNNLayer.conv_params A;
  p_head_2 : GatedPixelCNNLayer.conv_params A
}.

Record t : Type := mk {
  _out_dim : nat;
  _input : GatedPixelCNNLayer.t A;
  _gated_layers : list (GatedPixelCNNLayer.t A);
  _head : list (Torch.Layer A)
}.

(** The list comprehension that builds [nn.ModuleList]. *)
Fixpoint module_list (mk_layer : nat -> result (GatedPixelCNNLayer.t A))
    (range : list nat) : result (list (GatedPixelCNNLayer.t A)) :=
  match range with
  | [] => Ok []
  | i :: range' =>
      l <- mk_layer i ;;
      ls <- module_list mk_layer range' ;;
      Ok (l :: ls)
  end.

(** [__init__(self, in_channels, out_dim, n_gated, gated_channels,
    head_channels)]. *)
Definition __init__ (in_channels out_dim n_gated gated_channels
    head_channels : nat) (p : Params) : result t :=
  input <- GatedPixelCNNLayer.__init__ in_channels gated_channels 7 true
             (p_input p) ;;
  gated_layers <- module_list
             (fun i => GatedPixelCNNLayer.__init__ gated_channels
                         gated_channels 3 false (p_gated p i))
             (seq 0 n_gated) ;;
  head_1 <- GatedPixelCNNLayer.new_conv gated_channels head_channels
             (1, 1)%Z (0, 0)%Z (p_head_1 p) ;;
  head_2 <- GatedPixelCNNLayer.new_conv head_channels (out_dim * in_channels)
             (1, 1)%Z (0, 0)%Z (p_head_2 p) ;;
  Ok (mk out_dim input gated_layers
         [Torch.ReLU; Torch.Conv head_1; Torch.ReLU; Torch.Conv head_2;
          Torch.Sigmoid]).

(** The [for gated_layer in self._gated_layers] loop of [forward], on the
    loop state [(vstack, hstack, skip_connections)]. *)
Fixpoint gated_loop (layers : list (GatedPixelCNNLayer.t A))
    (st : Tensor A * Tensor A * Tensor A)
  : result (Tensor A * Tensor A * Tensor A) :=
  match layers with
  | [] => Ok st
  | gated_layer :: layers' =>
      let '(vstack, hstack, skip_connections) := st in
      '(vstack, hstack, skip) <-
          GatedPixelCNNLayer.forward gated_layer vstack hstack ;;
      skip_connections <- Torch.tiadd skip_connections skip ;;
      gated_loop layers' (vstack, hstack, skip_connections)
  end.

(** [forward(self, x)]. *)
Definition forward (self : t) (x : Tensor A) : result (Tensor A) :=
  match tshape x with
  | [n; c; h; w] =>
      st <- GatedPixelCNNLayer.forward (_input self) x x ;;
      '(vstack, hstack, skip_connections) <-
          gated_loop (_gated_layers self) st ;;
      y <- Torch.Sequential (_head self) skip_connections ;;
      Torch.view [n; _out_dim self; c; h; w] y
  | _ => Err ValueError
  end.

(** The tensor [forward] passes to [view]: the output of the head. *)
Definition head_output (self : t) (x : Tensor A) : result (Tensor A) :=
  match tshape x with
  | [n; c; h; w] =>
      st <- GatedPixelCNNLayer.forward (_input self) x x ;;
      '(vstack, hstack, skip_connections) <-
          gated_loop (_gated_layers self) st ;;
      Torch.Sequential (_head self) skip_connections
  | _ => Err ValueError
  end.

(** The tensor the head passes to its last module, [nn.Sigmoid()]: the
    output of the last convolution. *)
Definition head_logits (self : t) (x : Tensor A) : result (Tensor A) :=
  match tshape x with
  | [n; c; h; w] =>
      st <- GatedPixelCNNLayer.forward (_input self) x x ;;
      '(vstack, hstack, skip_connections) <-
          gated_loop (_gated_layers self) st ;;
      Torch.Sequential (removelast (_head self)) skip_connections
  | _ => Err ValueError
  end.

(** *** [sample]

    The body of [sample] reads and writes its local variables by name, and
    which names are bound when a statement runs decides whether it raises.
    The frame of local variables is therefore explicit: [sample] is a
    computation over the frame and the state of the random generator. *)

Inductive value : Type :=
| VNone
| VTensor (x : Tensor A)
| VModule (m : t)
| VDevice.

Definition frame : Type := string -> option value.

Definition empty_frame : frame := fun _ => None.

Definition bind_name (name : string) (v : value) (f : frame) : frame :=
  fun name' => if String.eqb name' name then Some v else f name'.

Record state : Type := mkState {
  locals : frame;
  draws : nat    (* number of calls made to the random generator *)
}.

Definition Py (T : Type) : Type := state -> result (T * state).

Definition ret {T : Type} (v : T) : Py T := fun st => Ok (v, st).

Definition raise {T : Type} (e : PyError) : Py T := fun _ => Err e.

Definition pbind {T U : Type} (m : Py T) (k : T -> Py U) : Py U :=
  fun st =>
    match m st with
    | Ok (v, st') => k v st'
    | Err e => Err e
    end.

Definition lift {T : Type} (r : result T) : Py T :=
  fun st =>
    match r with
    | Ok v => Ok (v, st)
    | Err e => Err e
    end.

(** Reading a local name that no statement has bound yet raises
    [UnboundLocalError]. *)
Definition load (name : string) : Py value :=
  fun st =>
    match locals st name with
    | Some v => Ok (v, st)
    | None => Err UnboundLocalError
    end.

Definition store (name : string) (v : value) : Py unit :=
  fun st => Ok (tt, mkState (bind_name name v (locals st)) (draws st)).

Definition load_tensor (name : string) : Py (Tensor A) :=
  pbind (load name) (fun v =>
    match v with
    | VTensor x => ret x
    | VNone => raise AttributeError
    | _ => raise ValueError
    end).

(** Attribute lookup on the model: the attributes [__init__] sets. *)
Definition getattr (self : t) (name : string) : Py nat :=
  if String.eqb name "_out_dim" then ret (_out_dim self)
  else raise AttributeError.

Fixpoint for_in (range : list nat) (body : nat -> Py unit) : Py unit :=
  match range with
  | [] => ret tt
  | i :: range' => pbind (body i) (fun _ => for_in range' body)
  end.

Section Sample.

(** The random generator: the outcome of the Bernoulli trial at one index
    of the [k]-th call, given the probability passed for that index. *)
Variable bernoulli_trial : nat -> list nat -> A -> bool.

(** [distributions.Bernoulli(probs=p).sample()]. *)
Definition bernoulli_sample (p : Tensor A) : Py (Tensor A) :=
  fun st =>
    Ok (mkTensor (tshape p)
          (fun idx =>
             if bernoulli_trial (draws st) idx (tdata p idx) then one else zero),
        mkState (locals st) (S (draws st))).

Declare Scope frame_scope.
Notation "x <~ c ;; k" := (pbind c (fun x => k))
  (at level 100, c at next level, right associativity) : frame_scope.
Notation "c ;;; k" := (pbind c (fun _ => k))
  (at level 100, right associativity) : frame_scope.
Local Open Scope frame_scope.

(** The body of the innermost loop: one pixel of one channel. *)
Definition sample_pixel (self : t) (row column channel : nat) : Py unit :=
  x <~ load_tensor "conditioned_on" ;;
  out <~ lift (forward self x) ;;
  out <~ lift (Torch.squeeze 1 out) ;;
  out <~ lift (Torch.index3 channel row column out) ;;
  store "out" (VTensor out) ;;;
  out <~ load_tensor "out" ;;
  out <~ bernoulli_sample out ;;
  store "out" (VTensor out) ;;;
  x <~ load_tensor "conditioned_on" ;;
  current <~ lift (Torch.index3 channel row column x) ;;
  out <~ load_tensor "out" ;;
  new <~ lift (Torch.where_neg current out) ;;
  x <~ load_tensor "conditioned_on" ;;
  x <~ lift (Torch.setitem3 channel row column x new) ;;
  store "conditioned_on" (VTensor x).

(** The statements of [sample] under [with torch.no_grad()]. *)
Definition sample_body (self : t) : Py (Tensor A) :=
  conditioned_on <~ load "conditioned_on" ;;
  (match conditioned_on with
   | VNone =>
       store "device" VDevice ;;;
       input_dim <~ getattr self "_input_dim" ;;
       store "conditioned_on" (VTensor (Torch.full_neg_one [1; input_dim]))
   | _ =>
       x <~ load_tensor "conditioned_on" ;;
       store "conditioned_on" (VTensor x)      (* .clone() *)
   end) ;;;
  for_in (seq 0 28) (fun row =>
    for_in (seq 0 28) (fun column =>
      for_in (seq 0 1) (fun channel =>
        sample_pixel self row column channel))) ;;;
  load_tensor "conditioned_on".

(** [sample(self, condition_on=None)]: on entry the frame binds the two
    parameters, [self] and [condition_on], and nothing else. *)
Definition sample (self : t) (condition_on : option (Tensor A)) (seed : nat)
  : result (Tensor A) :=
  let arg := match condition_on with
             | None => VNone
             | Some x => VTensor x
             end in
  let entry := bind_name "condition_on" arg
                 (bind_name "self" (VModule self) empty_frame) in
  match sample_body self (mkState entry seed) with
  | Ok (x, _) => Ok x
  | Err e => Err e
  end.

End Sample.
End Model.

Arguments Params A : clear implicits.
Arguments t A : clear implicits.

End GatedPixelCNN.

(** ** Vocabulary of the statements *)

Section Vocabulary.
Context {A : Type}.

(** Two 4-d tensors hold the same values at every position of the shape
    (N, C, H, W) whose row and column satisfy [R]. *)
Definition agree (N C H W : nat) (R : nat -> nat -> Prop) (x y : Tensor A)
  : Prop :=
  forall n c i j, n < N -> c < C -> i < H -> j < W -> R i j ->
    tdata x [n; c; i; j] = tdata y [n; c; i; j].

End Vocabulary.

Section TraceShapes.
Context {A : Type}.

(** The shapes of the values bound during a run of a layer with
    [out_channels = cout] and [kernel_size = 2 * pad + 1] on inputs of
    shape (N, _, H, W). *)
Record trace_shapes (N cout H W pad : nat) (causal : bool)
    (tr : GatedPixelCNNLayer.trace A) : Prop := mkTraceShapes {
  s_v1xN : tshape (GatedPixelCNNLayer.t_v1xN tr) = [N; cout; H; W];
  s_vNx1 : tshape (GatedPixelCNNLayer.t_vNx1 tr) =
           [N; 2 * cout; H + pad + 2; W];
  s_vconv : tshape (GatedPixelCNNLayer.t_vconv tr) = [N; 2 * cout; H; W];
  s_link : tshape (GatedPixelCNNLayer.t_link tr) = [N; 2 * cout; H; W];
  s_shortcut : tshape (GatedPixelCNNLayer.t_shortcut tr) =
               [N; 2 * cout; H; W];
  s_vpre : tshape (GatedPixelCNNLayer.t_vpre tr) = [N; 2 * cout; H; W];
  s_vstack : tshape (GatedPixelCNNLayer.t_vstack tr) = [N; cout; H; W];
  s_h1xN : tshape (GatedPixelCNNLayer.t_h1xN tr) =
           [N; 2 * cout; H; W + pad + 2 * Nat.b2n causal];
  s_hcrop : tshape (GatedPixelCNNLayer.t_hcrop tr) = [N; 2 * cout; H; W];
  s_hpre : tshape (GatedPixelCNNLayer.t_hpre tr) = [N; 2 * cout; H; W];
  s_gated : tshape (GatedPixelCNNLayer.t_gated tr) = [N; cout; H; W];
  s_skip : tshape (GatedPixelCNNLayer.t_skip tr) = [N; cout; H; W];
  s_res : tshape (GatedPixelCNNLayer.t_res tr) = [N; cout; H; W];
  s_hstack : tshape (GatedPixelCNNLayer.t_hstack tr) = [N; cout; H; W]
}.

End TraceShapes.

(** ** Real-valued tensors

    The real numbers with their exact arithmetic.  The scalars of the
    program are floating-point numbers, which round, overflow to an
    infinity and have a NaN; the real numbers do none of this.  They are
    used where exactness is the premise of a statement, for the identity
    projection, and as the scalars of the concrete layers and inputs.
    The statements about the range of the outputs are made for every
    scalar type, under the properties of [tanh] and [sigmoid] they rest
    on. *)

Definition Rsigmoid (x : R) : R := (/ (1 + exp (- x)))%R.

Definition Rrelu (x : R) : R := Rmax 0 x.

Definition Rltz (x : R) : bool := if Rlt_dec x 0 then true else false.

#[export] Instance RScalar : Scalar R := {|
  zero := 0%R;
  one := 1%R;
  add := Rplus;
  mul := Rmult;
  neg := Ropp;
  tanh := Rtrigo_def.tanh;
  sigmoid := Rsigmoid;
  relu := Rrelu;
  ltz := Rltz
|}.


(** ** Concrete layers and inputs *)

Definition zero_conv : GatedPixelCNNLayer.conv_params R :=
  (fun _ _ _ _ => 0%R, fun _ => 0%R).

Definition zero_params : GatedPixelCNNLayer.Params R :=
  GatedPixelCNNLayer.mkParams zero_conv zero_conv zero_conv zero_conv
    zero_conv zero_conv zero_conv.

Definition zeros (s : list nat) : Tensor R := mkTensor s (fun _ => 0%R).

(** A 2x2 image that is 0 in column 0 and 1 in column 1. *)
Definition right_column : Tensor R :=
  mkTensor [1; 1; 2; 2]
    (fun idx => match idx with
                | [_; _; _; j] => if j =? 0 then 0%R else 1%R
                | _ => 0%R
                end).

(** The same picture with two channels. *)
Definition right_column_2 : Tensor R :=
  mkTensor [1; 2; 2; 2] (tdata right_column).

(** A 2x2 image that is 0 in row 0 and 1 in row 1. *)
Definition bottom_row : Tensor R :=
  mkTensor [1; 1; 2; 2]
    (fun idx => match idx with
                | [_; _; i; _] => if i =? 0 then 0%R else 1%R
                | _ => 0%R
                end).

(** The all -1 canvas of shape (1, 1, 28, 28). *)
Definition blank_canvas : Tensor R :=
  mkTensor [1; 1; 28; 28] (fun _ => (-1)%R).

(** A canvas of shape (1, 1, 28, 28) whose top-left pixel is fixed to 1
    and whose other entries are -1. *)
Definition seeded_canvas : Tensor R :=
  mkTensor [1; 1; 28; 28]
    (fun idx => match idx with
                | [0; 0; 0; 0] => 1%R
                | _ => (-1)%R
                end).




Definition zero_model_params : GatedPixelCNN.Params R :=
  GatedPixelCNN.mkParams zero_params (fun _ => zero_params)
    zero_conv zero_conv.

(** ** Real numbers with NaN

    Floating-point numbers have a value NaN: every arithmetic operation
    and every function the module applies returns NaN on it, and it
    compares false with everything.  [None] stands for it here.  The
    other scalars are real numbers, so rounding and overflow are not
    part of this instance. *)

Definition nan_lift2 (f : R -> R -> R) (x y : option R) : option R :=
  match x, y with
  | Some a, Some b => Some (f a b)
  | _, _ => None
  end.

#[export] Instance NaNScalar : Scalar (option R) := {|
  zero := Some 0%R;
  one := Some 1%R;
  add := nan_lift2 Rplus;
  mul := nan_lift2 Rmult;
  neg := option_map Ropp;
  tanh := option_map Rtrigo_def.tanh;
  sigmoid := option_map Rsigmoid;
  relu := option_map Rrelu;
  ltz := fun x => match x with Some a => Rltz a | None => false end
|}.

Definition nan_zero_conv : GatedPixelCNNLayer.conv_params (option R) :=
  (fun _ _ _ _ => Some 0%R, fun _ => Some 0%R).

Definition nan_zero_params : GatedPixelCNNLayer.Params (option R) :=
  GatedPixelCNNLayer.mkParams nan_zero_conv nan_zero_conv nan_zero_conv
    nan_zero_conv nan_zero_conv nan_zero_conv nan_zero_conv.

Definition nan_zero_model_params : GatedPixelCNN.Params (option R) :=
  GatedPixelCNN.mkParams nan_zero_params (fun _ => nan_zero_params)
    nan_zero_conv nan_zero_conv.

(** A 1x2 image whose left pixel is NaN and whose right pixel is 0. *)
Definition nan_left_pixel : Tensor (option R) :=
  mkTensor [1; 1; 1; 2]
    (fun idx => match idx with
                | [_; _; _; 0] => None
                | _ => Some 0%R
                end).

(** ** Vocabulary of the sampling loop *)

Section CanvasVocabulary.
Context {A : Type} {SA : Scalar A}.

(** At position (n, 0, i, j) the canvas respects the evidence of [x]: an
    entry of [x] that is not negative is kept, an unknown entry has
    become 0 or 1. *)
Definition settled (x canvas : Tensor A) (n i j : nat) : Prop :=
  (ltz (tdata x [n; 0; i; j]) = false ->
   tdata canvas [n; 0; i; j] = tdata x [n; 0; i; j]) /\
  (ltz (tdata x [n; 0; i; j]) = true ->
   tdata canvas [n; 0; i; j] = zero \/ tdata canvas [n; 0; i; j] = one).

(** The frame binds [conditioned_on] to a canvas of the shape of [x] that
    is settled at the visited positions and equal to [x] at the others. *)
Definition canvas_inv (x : Tensor A) (N H W : nat)
    (visited : nat -> nat -> Prop) (st : @GatedPixelCNN.state A) : Prop :=
  exists canvas,
    GatedPixelCNN.locals st "conditioned_on"%string =
    Some (GatedPixelCNN.VTensor canvas) /\
    tshape canvas = [N; 1; H; W] /\
    forall n i j, n < N -> i < H -> j < W ->
      (visited i j -> settled x canvas n i j) /\
      (~ visited i j -> tdata canvas [n; 0; i; j] = tdata x [n; 0; i; j]).

End CanvasVocabulary.

(** * Properties of the tensor operations *)

Section TorchFacts.
Context {A : Type} {SA : Scalar A}.

Lemma shape_eqb_refl (s : list nat) : shape_eqb s s = true.
Proof.
  induction s as [|d s IH]; simpl; [reflexivity|].
  now rewrite Nat.eqb_refl, IH.
Qed.

Lemma broadcast_rev_same (s : list nat) : Torch.broadcast_rev s s = Some s.
Proof.
  induction s as [|d s IH]; simpl; [reflexivity|].
  now rewrite IH, Nat.eqb_refl.
Qed.

Lemma broadcast_shapes_same (s : list nat) :
  Torch.broadcast_shapes s s = Some s.
Proof.
  unfold Torch.broadcast_shapes.
  rewrite broadcast_rev_same. simpl. now rewrite rev_involutive.
Qed.

Lemma stretch_id (d i : nat) : i < d -> (if d =? 1 then 0 else i) = i.
Proof.
  intros Hi. destruct (Nat.eqb_spec d 1); lia.
Qed.

(** Inside the shape, broadcasting against the same shape reads the same
    index. *)
Lemma bindex4 (N C H W n c i j : nat) :
  n < N -> c < C -> i < H -> j < W ->
  Torch.bindex [N; C; H; W] [n; c; i; j] = [n; c; i; j].
Proof.
  intros. unfold Torch.bindex. simpl.
  now rewrite !stretch_id.
Qed.

Lemma binop_same_shape (f : A -> A -> A) (a b : Tensor A) (s : list nat) :
  tshape a = s -> tshape b = s ->
  exists y, Torch.binop f a b = Ok y /\ tshape y = s /\
    forall idx, tdata y idx =
      f (tdata a (Torch.bindex s idx)) (tdata b (Torch.bindex s idx)).
Proof.
  intros Ha Hb. unfold Torch.binop.
  rewrite Ha, Hb, broadcast_shapes_same.
  eexists. split; [reflexivity|]. split; reflexivity.
Qed.

Lemma binop4 (f : A -> A -> A) (a b : Tensor A) (N C H W : nat) :
  tshape a = [N; C; H; W] -> tshape b = [N; C; H; W] ->
  exists y, Torch.binop f a b = Ok y /\ tshape y = [N; C; H; W] /\
    forall n c i j, n < N -> c < C -> i < H -> j < W ->
      tdata y [n; c; i; j] = f (tdata a [n; c; i; j]) (tdata b [n; c; i; j]).
Proof.
  intros Ha Hb.
  destruct (binop_same_shape f a b Ha Hb) as (y & Hy & Hs & Hd).
  exists y. repeat split; trivial.
  intros. now rewrite Hd, bindex4.
Qed.

Lemma tiadd4 (a b : Tensor A) (N C H W : nat) :
  tshape a = [N; C; H; W] -> tshape b = [N; C; H; W] ->
  exists y, Torch.tiadd a b = Ok y /\ tshape y = [N; C; H; W] /\
    forall n c i j, n < N -> c < C -> i < H -> j < W ->
      tdata y [n; c; i; j] = add (tdata a [n; c; i; j]) (tdata b [n; c; i; j]).
Proof.
  intros Ha Hb. unfold Torch.tiadd.
  rewrite Ha, Hb, broadcast_shapes_same, shape_eqb_refl.
  eexists. split; [reflexivity|]. split; [reflexivity|].
  intros. simpl. now rewrite bindex4.
Qed.

Lemma slice_rows (h : nat) (x : Tensor A) (N C H W : nat) :
  tshape x = [N; C; H; W] ->
  Torch.slice_to 2 h x = Ok (mkTensor [N; C; Nat.min h H; W] (tdata x)).
Proof.
  intros Hx. unfold Torch.slice_to. now rewrite Hx.
Qed.

Lemma slice_columns (w : nat) (x : Tensor A) (N C H W : nat) :
  tshape x = [N; C; H; W] ->
  Torch.slice_to 3 w x = Ok (mkTensor [N; C; H; Nat.min w W] (tdata x)).
Proof.
  intros Hx. unfold Torch.slice_to. now rewrite Hx.
Qed.

Lemma sum_n_ext (n : nat) (f g : nat -> A) :
  (forall i, i < n -> f i = g i) -> Torch.sum_n n f = Torch.sum_n n g.
Proof.
  unfold Torch.sum_n. intros Hfg.
  assert (Hin : forall i, In i (seq 0 n) -> f i = g i).
  { intros i Hi. apply in_seq in Hi. apply Hfg. lia. }
  induction (seq 0 n) as [|k l IH]; simpl; [reflexivity|].
  rewrite (Hin k) by (now left).
  rewrite IH; [reflexivity|]. intros i Hi. apply Hin. now right.
Qed.

(** A convolution with at least one output channel succeeds on an input
    with the configured channel count whose padded extent covers the
    kernel, provided the batch is empty or the input has at least one
    channel, one row and one column; its output has the extent given in
    the documentation of [nn.Conv2d]. *)
Lemma conv2d_spec (cv : Torch.Conv2d A) (x : Tensor A)
    (N C H W ph pw H' W' : nat) :
  tshape x = [N; C; H; W] ->
  Torch.padding_h cv = Z.of_nat ph -> Torch.padding_w cv = Z.of_nat pw ->
  Torch.in_channels cv = C ->
  Torch.kernel_h cv <= H + 2 * ph -> Torch.kernel_w cv <= W + 2 * pw ->
  H' = H + 2 * ph - Torch.kernel_h cv + 1 ->
  W' = W + 2 * pw - Torch.kernel_w cv + 1 ->
  1 <= Torch.out_channels cv ->
  N = 0 \/ (1 <= C /\ 1 <= H /\ 1 <= W) ->
  exists y, Torch.conv2d cv x = Ok y /\
    tshape y = [N; Torch.out_channels cv; H'; W'] /\
    forall n co i j,
      tdata y [n; co; i; j] = Torch.conv2d_at cv x C H W ph pw n co i j.
Proof.
  intros Hx Hph Hpw HC Hkh Hkw -> -> Hout Hne. unfold Torch.conv2d.
  rewrite Hx, Hph, Hpw, HC, !Nat2Z.id.
  replace ((Z.of_nat ph <? 0) || (Z.of_nat pw <? 0))%Z with false
    by (symmetry; apply orb_false_iff; split; apply Z.ltb_ge; lia).
  destruct (Nat.eqb_spec (Torch.out_channels cv) 0) as [H0|_]; [lia|].
  rewrite Nat.eqb_refl. simpl negb. cbv iota.
  replace ((H + 2 * ph <? Torch.kernel_h cv) || (W + 2 * pw <? Torch.kernel_w cv))
    with false
    by (symmetry; apply orb_false_iff; split; apply Nat.ltb_ge; lia).
  replace (negb (N =? 0) && ((C =? 0) || (H =? 0) || (W =? 0))) with false.
  2:{ symmetry. destruct (Nat.eqb_spec N 0) as [_|HN]; [reflexivity|].
      destruct Hne as [HN0|(HC1 & HH1 & HW1)]; [contradiction|].
      destruct (Nat.eqb_spec C 0); [lia|].
      destruct (Nat.eqb_spec H 0); [lia|].
      destruct (Nat.eqb_spec W 0); [lia|]. reflexivity. }
  eexists. split; [reflexivity|]. split; reflexivity.
Qed.

(** What a successful convolution tells: the checks it passed, the shape
    of its output and its values. *)
Lemma conv2d_inv (cv : Torch.Conv2d A) (x y : Tensor A)
    (N C H W ph pw : nat) :
  tshape x = [N; C; H; W] ->
  Torch.padding_h cv = Z.of_nat ph -> Torch.padding_w cv = Z.of_nat pw ->
  Torch.conv2d cv x = Ok y ->
  1 <= Torch.out_channels cv /\ C = Torch.in_channels cv /\
  Torch.kernel_h cv <= H + 2 * ph /\ Torch.kernel_w cv <= W + 2 * pw /\
  (N = 0 \/ (1 <= C /\ 1 <= H /\ 1 <= W)) /\
  tshape y = [N; Torch.out_channels cv;
              H + 2 * ph - Torch.kernel_h cv + 1;
              W + 2 * pw - Torch.kernel_w cv + 1] /\
  forall n co i j,
    tdata y [n; co; i; j] = Torch.conv2d_at cv x C H W ph pw n co i j.
Proof.
  intros Hx Hph Hpw. unfold Torch.conv2d.
  rewrite Hx, Hph, Hpw, !Nat2Z.id.
  replace ((Z.of_nat ph <? 0) || (Z.of_nat pw <? 0))%Z with false
    by (symmetry; apply orb_false_iff; split; apply Z.ltb_ge; lia).
  destruct (Nat.eqb_spec (Torch.out_channels cv) 0) as [|Hout];
    [discriminate|].
  destruct (Nat.eqb_spec C (Torch.in_channels cv)) as [HC|];
    [|discriminate].
  simpl negb. cbv iota.
  destruct (Nat.ltb_spec (H + 2 * ph) (Torch.kernel_h cv)); [discriminate|].
  destruct (Nat.ltb_spec (W + 2 * pw) (Torch.kernel_w cv)); [discriminate|].
  cbn [orb].
  destruct (Nat.eqb_spec N 0) as [HN|HN]; cbn [negb andb].
  - intros [= <-]. repeat split; trivial; lia.
  - destruct (Nat.eqb_spec C 0); [discriminate|].
    destruct (Nat.eqb_spec H 0); [discriminate|].
    destruct (Nat.eqb_spec W 0); [discriminate|]. cbn [orb].
    intros [= <-]. repeat split; trivial; lia.
Qed.

(** A convolution raises nothing but [RuntimeError]. *)
Lemma conv2d_err (cv : Torch.Conv2d A) (x : Tensor A) (e : PyError) :
  Torch.conv2d cv x = Err e -> e = RuntimeError.
Proof.
  unfold Torch.conv2d.
  destruct (tshape x) as [|N [|C [|H [|W [|d s]]]]]; try (now intros [= <-]).
  repeat match goal with
         | |- context [if ?b then _ else _] => destruct b
         end; try discriminate; now intros [= <-].
Qed.

(** A convolution without output channels raises, and so does one
    without input channels on a batch that is not empty. *)
Lemma conv2d_no_channels (cv : Torch.Conv2d A) (x : Tensor A)
    (N C H W : nat) :
  tshape x = [N; C; H; W] ->
  Torch.out_channels cv = 0 \/ (C = 0 /\ 1 <= N) ->
  Torch.conv2d cv x = Err RuntimeError.
Proof.
  intros Hx Hbad.
  destruct (Torch.conv2d cv x) as [y|e] eqn:E;
    [|now rewrite (conv2d_err _ _ E)].
  exfalso. revert E. unfold Torch.conv2d. rewrite Hx.
  destruct ((Torch.padding_h cv <? 0) || (Torch.padding_w cv <? 0))%Z;
    [discriminate|].
  destruct (Nat.eqb_spec (Torch.out_channels cv) 0) as [|Hout];
    [discriminate|].
  destruct Hbad as [Hbad|[-> HN]]; [contradiction|].
  destruct (negb (0 =? Torch.in_channels cv)); [discriminate|].
  match goal with
  | |- context [if ?b then _ else _] => destruct b; [discriminate|]
  end.
  destruct (Nat.eqb_spec N 0); [lia|]. discriminate.
Qed.

(** The value of a convolution at an output position only depends on the
    padded input inside the kernel window at that position. *)
Lemma conv2d_at_ext (cv : Torch.Conv2d A) (x x' : Tensor A)
    (C H W ph pw n co i j : nat) :
  (forall ci a b, ci < C -> a < Torch.kernel_h cv -> b < Torch.kernel_w cv ->
     Torch.padded x H W ph pw n ci (i + a) (j + b) =
     Torch.padded x' H W ph pw n ci (i + a) (j + b)) ->
  Torch.conv2d_at cv x C H W ph pw n co i j =
  Torch.conv2d_at cv x' C H W ph pw n co i j.
Proof.
  intros Hw. unfold Torch.conv2d_at. f_equal.
  apply sum_n_ext; intros ci Hci.
  apply sum_n_ext; intros a Ha.
  apply sum_n_ext; intros b Hb.
  now rewrite Hw.
Qed.

Lemma broadcast_channels (N Co Ci H W : nat) :
  Torch.broadcast_shapes [N; Co; H; W] [N; Ci; H; W] =
  if Co =? Ci then Some [N; Co; H; W]
  else if Co =? 1 then Some [N; Ci; H; W]
  else if Ci =? 1 then Some [N; Co; H; W]
  else None.
Proof.
  unfold Torch.broadcast_shapes.
  cbn [rev app Torch.broadcast_rev]. rewrite !Nat.eqb_refl.
  destruct (Co =? Ci); [reflexivity|].
  destruct (Co =? 1); [reflexivity|].
  destruct (Ci =? 1); reflexivity.
Qed.

(** [a += b] with a one-channel [b] adds that channel to every channel
    of [a]. *)
Lemma tiadd_channel_stretch (a b : Tensor A) (N C H W : nat) :
  tshape a = [N; C; H; W] -> tshape b = [N; 1; H; W] ->
  exists y, Torch.tiadd a b = Ok y /\ tshape y = [N; C; H; W] /\
    forall n c i j, n < N -> c < C -> i < H -> j < W ->
      tdata y [n; c; i; j] = add (tdata a [n; c; i; j]) (tdata b [n; 0; i; j]).
Proof.
  intros Ha Hb. unfold Torch.tiadd. rewrite Ha, Hb, broadcast_channels.
  assert (Hshape : (if C =? 1 then Some [N; C; H; W]
                    else if C =? 1 then Some [N; 1; H; W]
                    else if 1 =? 1 then Some [N; C; H; W] else None) =
                   Some [N; C; H; W]).
  { destruct (C =? 1); reflexivity. }
  rewrite Hshape, shape_eqb_refl.
  eexists. split; [reflexivity|]. split; [reflexivity|].
  intros n c i j Hn Hc Hi Hj. cbn [tdata]. f_equal. f_equal.
  unfold Torch.bindex. simpl. now rewrite !stretch_id.
Qed.

(** [a += b] raises when the channel count of [b] is neither that of
    [a] nor 1. *)
Lemma tiadd_channel_mismatch (a b : Tensor A) (N Co Ci H W : nat) :
  tshape a = [N; Co; H; W] -> tshape b = [N; Ci; H; W] ->
  Ci <> Co -> Ci <> 1 ->
  Torch.tiadd a b = Err RuntimeError.
Proof.
  intros Ha Hb Hne H1. unfold Torch.tiadd.
  rewrite Ha, Hb, broadcast_channels.
  destruct (Nat.eqb_spec Co Ci) as [->|_]; [contradiction|].
  destruct (Nat.eqb_spec Ci 1) as [->|_]; [contradiction|].
  destruct (Nat.eqb_spec Co 1) as [->|_]; [|reflexivity].
  cbn [shape_eqb]. rewrite Nat.eqb_refl. cbn [andb].
  destruct (Nat.eqb_spec Ci 1); [contradiction|reflexivity].
Qed.

End TorchFacts.

(** * Properties of the gated activation *)

Section ActivationFacts.
Context {A : Type} {SA : Scalar A}.

Lemma even_halves (C : nat) : C mod 2 = 0 -> C = C / 2 + C / 2.
Proof.
  intros HC. pose proof (Nat.div_mod_eq C 2). lia.
Qed.

Lemma gated_activation_spec (x : Tensor A) (N C H W : nat) :
  tshape x = [N; C; H; W] -> C mod 2 = 0 ->
  exists y, GatedActivation.forward x = Ok y /\
    tshape y = [N; C / 2; H; W] /\
    forall n c i j, n < N -> c < C / 2 -> i < H -> j < W ->
      tdata y [n; c; i; j] =
      mul (tanh (tdata x [n; c; i; j]))
          (sigmoid (tdata x [n; C / 2 + c; i; j])).
Proof.
  intros Hx HC. pose proof (even_halves C HC) as Hhalf.
  unfold GatedActivation.forward. rewrite Hx, HC. simpl.
  unfold Torch.slice_to, Torch.slice_from. rewrite Hx. simpl.
  assert (Hmin : Nat.min (C / 2) C = C / 2) by lia.
  assert (Hrest : C - C / 2 = C / 2) by lia.
  rewrite Hmin, Hrest.
  match goal with
  | |- exists y, Torch.tmul ?a ?b = _ /\ _ =>
      destruct (@binop4 A mul a b N (C / 2) H W eq_refl eq_refl)
        as (y & Hy & Hs & Hd)
  end.
  exists y. split; [exact Hy|]. split; [exact Hs|].
  intros n c i j Hn Hc Hi Hj. now rewrite Hd.
Qed.

Lemma gated_activation_odd (x : Tensor A) (N C H W : nat) :
  tshape x = [N; C; H; W] -> C mod 2 <> 0 ->
  GatedActivation.forward x = Err AssertionError.
Proof.
  intros Hx HC. unfold GatedActivation.forward. rewrite Hx.
  destruct (Nat.eqb_spec (C mod 2) 0); [contradiction|reflexivity].
Qed.

End ActivationFacts.

(** * Properties of the layer *)

Section LayerConstruction.
Context {A : Type} {SA : Scalar A}.

Lemma odd_kernel_arith (pad : nat) :
  let k := Z.of_nat (2 * pad + 1) in
  ((k mod 2 = 1) /\ ((k - 1) / 2 = Z.of_nat pad) /\
   (k / 2 + 1 = Z.of_nat (pad + 1)) /\ (0 <= k))%Z.
Proof.
  intros k. subst k.
  replace (Z.of_nat (2 * pad + 1)) with (1 + Z.of_nat pad * 2)%Z by lia.
  rewrite Z_mod_plus_full by lia.
  replace (1 + Z.of_nat pad * 2 - 1)%Z with (Z.of_nat pad * 2)%Z by lia.
  rewrite Z.div_mul by lia.
  rewrite Z.div_add by lia.
  change (1 mod 2)%Z with 1%Z. change (1 / 2)%Z with 0%Z.
  repeat split; lia.
Qed.

(** An odd positive kernel size is accepted, and the layer is
    [layer_of]. *)
Lemma init_layer_of (cin cout pad : nat) (causal : bool)
    (p : GatedPixelCNNLayer.Params A) :
  GatedPixelCNNLayer.__init__ cin cout (Z.of_nat (2 * pad + 1)) causal p =
  Ok (GatedPixelCNNLayer.layer_of cin cout pad causal p).
Proof.
  destruct (odd_kernel_arith pad) as (Hmod & Hpad & Hhalf & Hpos).
  unfold GatedPixelCNNLayer.__init__, GatedPixelCNNLayer.new_conv,
    Torch.Conv2d_init, GatedPixelCNNLayer.layer_of.
  rewrite Hmod, Hpad, Hhalf. simpl Z.eqb. simpl py_assert.
  replace (Z.of_nat (2 * pad + 1) <? 0)%Z with false
    by (symmetry; apply Z.ltb_ge; lia).
  replace (Z.of_nat (pad + 1) <? 0)%Z with false
    by (symmetry; apply Z.ltb_ge; lia).
  replace (Z.of_nat pad + 1)%Z with (Z.of_nat (pad + 1)) by lia.
  replace (Z.of_nat pad + Z.b2z causal)%Z
    with (Z.of_nat (pad + Nat.b2n causal)) by (destruct causal; simpl; lia).
  simpl. rewrite !Nat2Z.id.
  change (Z.to_nat 1) with 1. reflexivity.
Qed.

Lemma init_even (cin cout : nat) (k : Z) (causal : bool)
    (p : GatedPixelCNNLayer.Params A) :
  (k mod 2 <> 1)%Z ->
  GatedPixelCNNLayer.__init__ cin cout k causal p = Err AssertionError.
Proof.
  intros Hk. unfold GatedPixelCNNLayer.__init__.
  destruct (Z.eqb_spec (k mod 2) 1); [contradiction|reflexivity].
Qed.

(** A negative odd kernel size passes the assertion and is rejected when
    the first convolution allocates its weight. *)
Lemma init_negative (cin cout : nat) (k : Z) (causal : bool)
    (p : GatedPixelCNNLayer.Params A) :
  (k mod 2 = 1)%Z -> (k < 0)%Z ->
  GatedPixelCNNLayer.__init__ cin cout k causal p = Err RuntimeError.
Proof.
  intros Hk Hneg. unfold GatedPixelCNNLayer.__init__.
  rewrite Hk. simpl Z.eqb. simpl py_assert.
  unfold GatedPixelCNNLayer.new_conv at 1. unfold Torch.Conv2d_init at 1.
  replace (k <? 0)%Z with true by (symmetry; apply Z.ltb_lt; lia).
  reflexivity.
Qed.

(** Whenever [__init__] returns a layer, the kernel size is odd and
    positive and the layer is [layer_of]. *)
Lemma init_inv (cin cout : nat) (k : Z) (causal : bool)
    (p : GatedPixelCNNLayer.Params A) (L : GatedPixelCNNLayer.t A) :
  GatedPixelCNNLayer.__init__ cin cout k causal p = Ok L ->
  exists pad, k = Z.of_nat (2 * pad + 1) /\
    L = GatedPixelCNNLayer.layer_of cin cout pad causal p.
Proof.
  intros HL.
  destruct (Z.eq_dec (k mod 2) 1) as [Hodd|Heven].
  2:{ rewrite init_even in HL by assumption. discriminate. }
  destruct (Z_lt_le_dec k 0) as [Hneg|Hpos].
  { rewrite init_negative in HL by assumption. discriminate. }
  exists (Z.to_nat ((k - 1) / 2)).
  assert (Hk : k = Z.of_nat (2 * Z.to_nat ((k - 1) / 2) + 1)).
  { pose proof (Z.div_mod k 2 ltac:(lia)) as Hdm.
    assert (Hq : ((k - 1) / 2 = k / 2)%Z).
    { replace (k - 1)%Z with (0 + (k / 2) * 2)%Z by lia.
      rewrite Z.div_add by lia. reflexivity. }
    rewrite Hq.
    assert (0 <= k / 2)%Z by (apply Z.div_pos; lia).
    lia. }
  split; [exact Hk|].
  rewrite Hk in HL at 1. rewrite init_layer_of in HL. congruence.
Qed.

End LayerConstruction.

Section LayerRuns.
Context {A : Type} {SA : Scalar A}.

Lemma double_half (c : nat) : (2 * c) / 2 = c /\ (2 * c) mod 2 = 0.
Proof.
  rewrite (Nat.mul_comm 2 c).
  split; [apply Nat.div_mul; lia | apply Nat.Div0.mod_mul].
Qed.

(** A run whose statements all succeed is a successful call. *)
Lemma runs_forward (L : GatedPixelCNNLayer.t A) (v h : Tensor A)
    (N C H W : nat) (tr : GatedPixelCNNLayer.trace A) :
  tshape v = [N; C; H; W] ->
  GatedPixelCNNLayer.runs L v h H W tr ->
  GatedPixelCNNLayer.forward L v h =
  Ok (GatedPixelCNNLayer.t_vstack tr, GatedPixelCNNLayer.t_hstack tr,
      GatedPixelCNNLayer.t_skip tr).
Proof.
  intros Hv [R1 R2 R3 R4 R5 R6 R7 R8 R9 R10 R11 R12 R13 R14].
  unfold GatedPixelCNNLayer.forward. rewrite Hv.
  rewrite R1; simpl bind. rewrite R2; simpl bind. rewrite R3; simpl bind.
  rewrite R4; simpl bind. rewrite R5; simpl bind. rewrite R6; simpl bind.
  rewrite R7; simpl bind. rewrite R8; simpl bind. rewrite R9; simpl bind.
  rewrite R10; simpl bind. rewrite R11; simpl bind. rewrite R12; simpl bind.
  rewrite R13; simpl bind. rewrite R14; simpl bind. reflexivity.
Qed.

Lemma residual_cases (causal : bool) (cin cout : nat) :
  causal = true \/ cin = cout -> causal = true \/ cin = cout \/ cin = 1.
Proof. tauto. Qed.

(** For a layer with at least one input and one output channel, on
    inputs of the configured channel count with at least one row and one
    column, every statement of [forward] succeeds, provided the residual
    addition of a non-causal layer is between equal channel counts or
    adds a single channel, which it broadcasts. *)
Lemma trace_exists (cin cout pad : nat) (causal : bool)
    (p : GatedPixelCNNLayer.Params A) (v h : Tensor A) (N H W : nat) :
  tshape v = [N; cin; H; W] -> tshape h = [N; cin; H; W] ->
  1 <= H -> 1 <= W -> 1 <= cin -> 1 <= cout ->
  causal = true \/ cin = cout \/ cin = 1 ->
  exists tr,
    GatedPixelCNNLayer.runs
      (GatedPixelCNNLayer.layer_of cin cout pad causal p) v h H W tr /\
    trace_shapes N cout H W pad causal tr.
Proof.
  intros Hv Hh HH HW Hcin Hcout Hres.
  destruct (double_half cout) as [Hdiv Hmod].
  set (L := GatedPixelCNNLayer.layer_of cin cout pad causal p).
  destruct (@conv2d_spec A SA (GatedPixelCNNLayer._vstack_1xN L) v
              N cin H W 0 pad H W Hv)
    as (v1 & E1 & S1 & _); try reflexivity; simpl; try lia.
  destruct (@conv2d_spec A SA (GatedPixelCNNLayer._vstack_Nx1 L) v1
              N cout H W (pad + 1) 0 (H + pad + 2) W S1)
    as (v2 & E2 & S2 & _); try reflexivity; simpl; try lia.
  pose (vc := mkTensor [N; 2 * cout; H; W] (tdata v2)).
  assert (E3 : Torch.slice_to 2 H v2 = Ok vc).
  { rewrite (slice_rows H v2 S2). unfold vc.
    now replace (Nat.min H (H + pad + 2)) with H by lia. }
  destruct (@conv2d_spec A SA (GatedPixelCNNLayer._link L) vc
              N (2 * cout) H W 0 0 H W eq_refl)
    as (lk & E4 & S4 & _); try reflexivity; simpl; try lia.
  destruct (@conv2d_spec A SA (GatedPixelCNNLayer._vstack_1x1 L) v
              N cin H W 0 0 H W Hv)
    as (sc & E5 & S5 & _); try reflexivity; simpl; try lia.
  destruct (@tiadd4 A SA vc sc N (2 * cout) H W eq_refl S5)
    as (vp & E6 & S6 & _).
  destruct (gated_activation_spec vp S6 Hmod) as (vs & E7 & S7 & _).
  rewrite Hdiv in S7.
  destruct (@conv2d_spec A SA (GatedPixelCNNLayer._hstack_1xN L) h
              N cin H W 0 (pad + Nat.b2n causal) H
              (W + pad + 2 * Nat.b2n causal) Hh)
    as (h1 & E8 & S8 & _); try reflexivity; simpl; try lia.
  pose (hc := mkTensor [N; 2 * cout; H; W] (tdata h1)).
  assert (E9 : Torch.slice_to 3 W h1 = Ok hc).
  { rewrite (slice_columns W h1 S8). unfold hc.
    now replace (Nat.min W (W + pad + 2 * Nat.b2n causal)) with W by lia. }
  destruct (@binop4 A add lk hc N (2 * cout) H W S4 eq_refl)
    as (hp & E10 & S10 & _).
  destruct (gated_activation_spec hp S10 Hmod) as (g & E11 & S11 & _).
  rewrite Hdiv in S11.
  destruct (@conv2d_spec A SA (GatedPixelCNNLayer._hstack_skip L) g
              N cout H W 0 0 H W S11)
    as (sk & E12 & S12 & _); try reflexivity; simpl; try lia.
  destruct (@conv2d_spec A SA (GatedPixelCNNLayer._hstack_residual L) g
              N cout H W 0 0 H W S11)
    as (rs & E13 & S13 & _); try reflexivity; simpl; try lia.
  assert (E14 : exists hs,
             (if negb causal then Torch.tiadd rs h else Ok rs) = Ok hs /\
             tshape hs = [N; cout; H; W]).
  { destruct causal; simpl.
    - exists rs. now split.
    - destruct Hres as [Hc|[Hc|Hc]]; [discriminate| |]; subst cin.
      + destruct (@tiadd4 A SA rs h N cout H W S13 Hh) as (hs & E & S & _).
        exists hs. now split.
      + destruct (@tiadd_channel_stretch A SA rs h N cout H W S13 Hh)
          as (hs & E & S & _).
        exists hs. now split. }
  destruct E14 as (hs & E14 & S14).
  exists (GatedPixelCNNLayer.mkTrace v1 v2 vc lk sc vp vs h1 hc hp g sk rs hs).
  split; constructor; first [assumption | reflexivity].
Qed.

End LayerRuns.

(** * Locality: which input positions an output position reads *)

Section Locality.
Context {A : Type} {SA : Scalar A}.

Lemma slice_to_data (dim stop : nat) (x y : Tensor A) :
  Torch.slice_to dim stop x = Ok y -> tdata y = tdata x.
Proof.
  unfold Torch.slice_to.
  destruct (Torch.upd_dim dim (Nat.min stop) (tshape x)); [|discriminate].
  intros [= <-]. reflexivity.
Qed.

Lemma agree_data (N C H W : nat) (R : nat -> nat -> Prop)
    (x x' y y' : Tensor A) :
  tdata y = tdata x -> tdata y' = tdata x' ->
  agree N C H W R x x' -> agree N C H W R y y'.
Proof.
  intros Hy Hy' Hag n c i j Hn Hc Hi Hj HR.
  rewrite Hy, Hy'. now apply Hag.
Qed.

(** A convolution maps agreement on a region [Rin] of the input to
    agreement on any region [Rout] whose kernel windows stay inside
    [Rin]. *)
Lemma conv2d_agree (cv : Torch.Conv2d A) (x x' y y' : Tensor A)
    (N C H W ph pw H' W' : nat) (Rin Rout : nat -> nat -> Prop) :
  tshape x = [N; C; H; W] -> tshape x' = [N; C; H; W] ->
  Torch.padding_h cv = Z.of_nat ph -> Torch.padding_w cv = Z.of_nat pw ->
  Torch.in_channels cv = C ->
  Torch.kernel_h cv <= H + 2 * ph -> Torch.kernel_w cv <= W + 2 * pw ->
  Torch.conv2d cv x = Ok y -> Torch.conv2d cv x' = Ok y' ->
  (forall i j a b, Rout i j ->
     a < Torch.kernel_h cv -> b < Torch.kernel_w cv ->
     ph <= i + a < ph + H -> pw <= j + b < pw + W ->
     Rin (i + a - ph) (j + b - pw)) ->
  agree N C H W Rin x x' ->
  agree N (Torch.out_channels cv) H' W' Rout y y'.
Proof.
  intros Hx Hx' Hph Hpw HC Hkh Hkw Ey Ey' Hwin Hag n co i j Hn Hco Hi Hj HR.
  destruct (@conv2d_inv A SA cv x y N C H W ph pw Hx Hph Hpw Ey)
    as (_ & _ & _ & _ & _ & _ & D0).
  destruct (@conv2d_inv A SA cv x' y' N C H W ph pw Hx' Hph Hpw Ey')
    as (_ & _ & _ & _ & _ & _ & D0').
  rewrite D0, D0'. apply conv2d_at_ext. intros ci a b Hci Ha Hb.
  unfold Torch.padded.
  destruct ((ph <=? i + a) && (i + a <? ph + H) &&
            (pw <=? j + b) && (j + b <? pw + W)) eqn:Ein; [|reflexivity].
  repeat (apply andb_true_iff in Ein; destruct Ein as [Ein ?]).
  apply Nat.leb_le in Ein.
  repeat match goal with
         | Hb : (_ <? _) = true |- _ => apply Nat.ltb_lt in Hb
         | Hb : (_ <=? _) = true |- _ => apply Nat.leb_le in Hb
         end.
  apply Hag; try lia. apply Hwin; trivial; lia.
Qed.

(** A 1x1 convolution without padding acts position by position. *)
Lemma conv1x1_agree (cv : Torch.Conv2d A) (x x' y y' : Tensor A)
    (N C H W : nat) (R : nat -> nat -> Prop) :
  tshape x = [N; C; H; W] -> tshape x' = [N; C; H; W] ->
  Torch.padding_h cv = Z.of_nat 0 -> Torch.padding_w cv = Z.of_nat 0 ->
  Torch.kernel_h cv = 1 -> Torch.kernel_w cv = 1 ->
  Torch.in_channels cv = C -> 1 <= H -> 1 <= W ->
  Torch.conv2d cv x = Ok y -> Torch.conv2d cv x' = Ok y' ->
  agree N C H W R x x' ->
  agree N (Torch.out_channels cv) H W R y y'.
Proof.
  intros Hx Hx' Hph Hpw Hkh Hkw HC HH HW Ey Ey' Hag.
  eapply (@conv2d_agree cv x x' y y' N C H W 0 0 H W R R); eauto; try lia.
  intros i j a b HR Ha Hb _ _.
  replace (i + a - 0) with i by lia. replace (j + b - 0) with j by lia.
  exact HR.
Qed.

Lemma binop_agree (f : A -> A -> A) (a a' b b' y y' : Tensor A)
    (N C H W : nat) (R : nat -> nat -> Prop) :
  tshape a = [N; C; H; W] -> tshape a' = [N; C; H; W] ->
  tshape b = [N; C; H; W] -> tshape b' = [N; C; H; W] ->
  Torch.binop f a b = Ok y -> Torch.binop f a' b' = Ok y' ->
  agree N C H W R a a' -> agree N C H W R b b' ->
  agree N C H W R y y'.
Proof.
  intros Ha Ha' Hb Hb' Ey Ey' Haa Hbb n c i j Hn Hc Hi Hj HR.
  destruct (binop4 f a b Ha Hb) as (y0 & E0 & _ & D0).
  destruct (binop4 f a' b' Ha' Hb') as (y0' & E0' & _ & D0').
  assert (y0 = y) by congruence. assert (y0' = y') by congruence. subst.
  rewrite D0, D0' by assumption.
  now rewrite Haa, Hbb.
Qed.

Lemma tiadd_agree (a a' b b' y y' : Tensor A)
    (N C H W : nat) (R : nat -> nat -> Prop) :
  tshape a = [N; C; H; W] -> tshape a' = [N; C; H; W] ->
  tshape b = [N; C; H; W] -> tshape b' = [N; C; H; W] ->
  Torch.tiadd a b = Ok y -> Torch.tiadd a' b' = Ok y' ->
  agree N C H W R a a' -> agree N C H W R b b' ->
  agree N C H W R y y'.
Proof.
  intros Ha Ha' Hb Hb' Ey Ey' Haa Hbb n c i j Hn Hc Hi Hj HR.
  destruct (tiadd4 a b Ha Hb) as (y0 & E0 & _ & D0).
  destruct (tiadd4 a' b' Ha' Hb') as (y0' & E0' & _ & D0').
  assert (y0 = y) by congruence. assert (y0' = y') by congruence. subst.
  rewrite D0, D0' by assumption.
  now rewrite Haa, Hbb.
Qed.

Lemma gated_activation_agree (x x' y y' : Tensor A)
    (N C H W : nat) (R : nat -> nat -> Prop) :
  tshape x = [N; C; H; W] -> tshape x' = [N; C; H; W] -> C mod 2 = 0 ->
  GatedActivation.forward x = Ok y -> GatedActivation.forward x' = Ok y' ->
  agree N C H W R x x' -> agree N (C / 2) H W R y y'.
Proof.
  intros Hx Hx' HC Ey Ey' Hag n c i j Hn Hc Hi Hj HR.
  destruct (gated_activation_spec x Hx HC) as (y0 & E0 & _ & D0).
  destruct (gated_activation_spec x' Hx' HC) as (y0' & E0' & _ & D0').
  assert (y0 = y) by congruence. assert (y0' = y') by congruence. subst.
  rewrite D0, D0' by assumption.
  pose proof (even_halves C HC).
  rewrite (Hag n c i j), (Hag n (C / 2 + c) i j); trivial; lia.
Qed.

End Locality.

Section LayerLocality.
Context {A : Type} {SA : Scalar A}.

Variables (cin cout pad : nat) (causal : bool).
Variable p : GatedPixelCNNLayer.Params A.
Variables (N H W : nat).
Hypothesis HH : 1 <= H.
Hypothesis HW : 1 <= W.

#[local] Abbreviation L :=
  (GatedPixelCNNLayer.layer_of cin cout pad causal p).

Lemma agree_refl (C : nat) (R : nat -> nat -> Prop) (x : Tensor A) :
  agree N C H W R x x.
Proof. intros n c i j _ _ _ _ _. reflexivity. Qed.

(** The horizontal stack and the skip output are computed from the link
    term and the horizontal input: at a position they read both in the
    same row, at columns up to that of the position. *)
Lemma layer_hstack_from_link (v v' h h' : Tensor A)
    (tr tr' : GatedPixelCNNLayer.trace A) (R : nat -> nat -> Prop) :
  tshape h = [N; cin; H; W] -> tshape h' = [N; cin; H; W] ->
  causal = true \/ cin = cout ->
  GatedPixelCNNLayer.runs L v h H W tr ->
  GatedPixelCNNLayer.runs L v' h' H W tr' ->
  trace_shapes N cout H W pad causal tr ->
  trace_shapes N cout H W pad causal tr' ->
  (forall i j j', R i j -> j' <= j -> R i j') ->
  agree N (2 * cout) H W R (GatedPixelCNNLayer.t_link tr)
                           (GatedPixelCNNLayer.t_link tr') ->
  agree N cin H W R h h' ->
  agree N cout H W R (GatedPixelCNNLayer.t_hstack tr)
                     (GatedPixelCNNLayer.t_hstack tr') /\
  agree N cout H W R (GatedPixelCNNLayer.t_skip tr)
                     (GatedPixelCNNLayer.t_skip tr').
Proof.
  intros Hh Hh' Hres [R1 R2 R3 R4 R5 R6 R7 R8 R9 R10 R11 R12 R13 R14]
    [R1' R2' R3' R4' R5' R6' R7' R8' R9' R10' R11' R12' R13' R14']
    [S1 S2 S3 S4 S5 S6 S7 S8 S9 S10 S11 S12 S13 S14]
    [S1' S2' S3' S4' S5' S6' S7' S8' S9' S10' S11' S12' S13' S14']
    Hleft Hlink Hag.
  destruct (double_half cout) as [Hdiv Hmod].
  assert (A8 : agree N (2 * cout) H W R (GatedPixelCNNLayer.t_h1xN tr)
                 (GatedPixelCNNLayer.t_h1xN tr')).
  { apply (@conv2d_agree A SA (GatedPixelCNNLayer._hstack_1xN L) h h' _ _
             N cin H W 0 (pad + Nat.b2n causal) H W R R);
      trivial; simpl; try lia.
    intros i j a b HR Ha Hb Hrow Hcol.
    replace (i + a - 0) with i by lia.
    apply (Hleft i j); [exact HR | lia]. }
  assert (A9 : agree N (2 * cout) H W R (GatedPixelCNNLayer.t_hcrop tr)
                 (GatedPixelCNNLayer.t_hcrop tr')).
  { eapply agree_data; [| |exact A8]; eapply slice_to_data; eassumption. }
  assert (A10 : agree N (2 * cout) H W R (GatedPixelCNNLayer.t_hpre tr)
                  (GatedPixelCNNLayer.t_hpre tr')).
  { eapply (@binop_agree A add);
      [| | | |exact R10|exact R10'|exact Hlink|exact A9]; trivial. }
  assert (A11 : agree N cout H W R (GatedPixelCNNLayer.t_gated tr)
                  (GatedPixelCNNLayer.t_gated tr')).
  { rewrite <- Hdiv at 1.
    eapply gated_activation_agree; [| | |exact R11|exact R11'|exact A10];
      trivial. }
  assert (A12 : agree N cout H W R (GatedPixelCNNLayer.t_skip tr)
                  (GatedPixelCNNLayer.t_skip tr')).
  { apply (@conv1x1_agree A SA (GatedPixelCNNLayer._hstack_skip L)
             _ _ _ _ N cout H W R S11 S11'); trivial. }
  assert (A13 : agree N cout H W R (GatedPixelCNNLayer.t_res tr)
                  (GatedPixelCNNLayer.t_res tr')).
  { apply (@conv1x1_agree A SA (GatedPixelCNNLayer._hstack_residual L)
             _ _ _ _ N cout H W R S11 S11'); trivial. }
  split; [|exact A12].
  simpl in R14, R14'. destruct causal; simpl in R14, R14'.
  - injection R14 as <-. injection R14' as <-. exact A13.
  - destruct Hres as [Hc|Hc]; [discriminate|]. subst cin.
    eapply tiadd_agree; [| | | |exact R14|exact R14'|exact A13|exact Hag];
      trivial.
Qed.

(** With the same vertical input the link term is the same, so the
    horizontal stack at a position reads the horizontal input only in the
    same row, at columns up to that of the position. *)
Lemma layer_hstack_local (v h h' : Tensor A)
    (tr tr' : GatedPixelCNNLayer.trace A) (R : nat -> nat -> Prop) :
  tshape h = [N; cin; H; W] -> tshape h' = [N; cin; H; W] ->
  causal = true \/ cin = cout ->
  GatedPixelCNNLayer.runs L v h H W tr ->
  GatedPixelCNNLayer.runs L v h' H W tr' ->
  trace_shapes N cout H W pad causal tr ->
  trace_shapes N cout H W pad causal tr' ->
  (forall i j j', R i j -> j' <= j -> R i j') ->
  agree N cin H W R h h' ->
  agree N cout H W R (GatedPixelCNNLayer.t_hstack tr)
                     (GatedPixelCNNLayer.t_hstack tr') /\
  agree N cout H W R (GatedPixelCNNLayer.t_skip tr)
                     (GatedPixelCNNLayer.t_skip tr').
Proof.
  intros Hh Hh' Hres Hr Hr' Hs Hs' Hleft Hag.
  apply (@layer_hstack_from_link v v h h' tr tr' R); trivial.
  destruct Hr as [R1 R2 R3 R4 _ _ _ _ _ _ _ _ _ _].
  destruct Hr' as [R1' R2' R3' R4' _ _ _ _ _ _ _ _ _ _].
  assert (E1 : GatedPixelCNNLayer.t_v1xN tr = GatedPixelCNNLayer.t_v1xN tr')
    by congruence.
  rewrite <- E1 in R2'.
  assert (E2 : GatedPixelCNNLayer.t_vNx1 tr = GatedPixelCNNLayer.t_vNx1 tr')
    by congruence.
  rewrite <- E2 in R3'.
  assert (E3 : GatedPixelCNNLayer.t_vconv tr = GatedPixelCNNLayer.t_vconv tr')
    by congruence.
  rewrite <- E3 in R4'.
  assert (E4 : GatedPixelCNNLayer.t_link tr = GatedPixelCNNLayer.t_link tr')
    by congruence.
  rewrite E4. apply agree_refl.
Qed.

(** The vertical stack at a position reads the vertical input only in
    the rows up to that of the position. *)
Lemma layer_vstack_local (v v' h : Tensor A)
    (tr tr' : GatedPixelCNNLayer.trace A) (R : nat -> nat -> Prop) :
  tshape v = [N; cin; H; W] -> tshape v' = [N; cin; H; W] ->
  GatedPixelCNNLayer.runs L v h H W tr ->
  GatedPixelCNNLayer.runs L v' h H W tr' ->
  trace_shapes N cout H W pad causal tr ->
  trace_shapes N cout H W pad causal tr' ->
  (forall i j i' j', R i j -> i' <= i -> R i' j') ->
  agree N cin H W R v v' ->
  agree N cout H W R (GatedPixelCNNLayer.t_vstack tr)
                     (GatedPixelCNNLayer.t_vstack tr').
Proof.
  intros Hv Hv' [R1 R2 R3 R4 R5 R6 R7 R8 R9 R10 R11 R12 R13 R14]
    [R1' R2' R3' R4' R5' R6' R7' R8' R9' R10' R11' R12' R13' R14']
    [S1 S2 S3 S4 S5 S6 S7 S8 S9 S10 S11 S12 S13 S14]
    [S1' S2' S3' S4' S5' S6' S7' S8' S9' S10' S11' S12' S13' S14']
    Hup Hag.
  destruct (double_half cout) as [Hdiv Hmod].
  assert (A1 : agree N cout H W R (GatedPixelCNNLayer.t_v1xN tr)
                 (GatedPixelCNNLayer.t_v1xN tr')).
  { apply (@conv2d_agree A SA (GatedPixelCNNLayer._vstack_1xN L) v v' _ _
             N cin H W 0 pad H W R R); trivial; simpl; try lia.
    intros i j a b HR Ha Hb Hrow Hcol.
    apply (Hup i j); [exact HR | lia]. }
  assert (A2 : agree N (2 * cout) H W R (GatedPixelCNNLayer.t_vNx1 tr)
                 (GatedPixelCNNLayer.t_vNx1 tr')).
  { apply (@conv2d_agree A SA (GatedPixelCNNLayer._vstack_Nx1 L) _ _ _ _
             N cout H W (pad + 1) 0 H W R R S1 S1');
      trivial; simpl; try lia.
    intros i j a b HR Ha Hb Hrow Hcol.
    apply (Hup i j); [exact HR | lia]. }
  assert (A3 : agree N (2 * cout) H W R (GatedPixelCNNLayer.t_vconv tr)
                 (GatedPixelCNNLayer.t_vconv tr')).
  { eapply agree_data; [| |exact A2]; eapply slice_to_data; eassumption. }
  assert (A5 : agree N (2 * cout) H W R (GatedPixelCNNLayer.t_shortcut tr)
                 (GatedPixelCNNLayer.t_shortcut tr')).
  { apply (@conv1x1_agree A SA (GatedPixelCNNLayer._vstack_1x1 L)
             v v' _ _ N cin H W R Hv Hv'); trivial. }
  assert (A6 : agree N (2 * cout) H W R (GatedPixelCNNLayer.t_vpre tr)
                 (GatedPixelCNNLayer.t_vpre tr')).
  { eapply tiadd_agree; [| | | |exact R6|exact R6'|exact A3|exact A5];
      trivial. }
  rewrite <- Hdiv at 1.
  eapply gated_activation_agree; [| | |exact R7|exact R7'|exact A6]; trivial.
Qed.

End LayerLocality.

(** * The statements about [GatedActivation] and the construction of a
      layer *)

Section ActivationClaims.
Context {A : Type} {SA : Scalar A}.

(** C7.  For an input with an even channel count [C], the activation
    returns a tensor with [C / 2] channels and the batch and spatial
    extents of the input, whose value at channel [c] is the [tanh] of
    channel [c] of the input times the [sigmoid] of channel
    [C / 2 + c]. *)
Theorem gated_activation_forward (x : Tensor A) (N C H W : nat) :
  tshape x = [N; C; H; W] -> Nat.Even C ->
  exists y, GatedActivation.forward x = Ok y /\
    tshape y = [N; C / 2; H; W] /\
    forall n c i j, n < N -> c < C / 2 -> i < H -> j < W ->
      tdata y [n; c; i; j] =
      mul (tanh (tdata x [n; c; i; j]))
          (sigmoid (tdata x [n; C / 2 + c; i; j])).
Proof.
  intros Hx HC. apply gated_activation_spec; [exact Hx|].
  destruct HC as [k ->]. rewrite Nat.mul_comm. apply Nat.Div0.mod_mul.
Qed.

Lemma assertion_failures :
  (forall (x : Tensor A) (N C H W : nat), tshape x = [N; C; H; W] ->
     (GatedActivation.forward x = Err AssertionError <-> Nat.Odd C) /\
     ((exists y, GatedActivation.forward x = Ok y) <-> Nat.Even C)) /\
  (forall (cin cout : nat) (k : Z) (causal : bool)
          (p : GatedPixelCNNLayer.Params A),
     (GatedPixelCNNLayer.__init__ cin cout k causal p = Err AssertionError
      <-> Z.Even k) /\
     ((exists L, GatedPixelCNNLayer.__init__ cin cout k causal p = Ok L)
      -> Z.Odd k)).
Proof.
  split.
  - intros x N C H W Hx.
    destruct (Nat.Even_or_Odd C) as [HE|HO].
    + assert (Hmod : C mod 2 = 0).
      { destruct HE as [k ->]. rewrite Nat.mul_comm. apply Nat.Div0.mod_mul. }
      destruct (gated_activation_spec x Hx Hmod) as (y & Hy & _).
      split; split; intros Hc.
      * rewrite Hy in Hc. discriminate.
      * destruct (Nat.Even_Odd_False C HE Hc).
      * exact HE.
      * now exists y.
    + assert (Hmod : C mod 2 <> 0).
      { destruct HO as [k ->]. rewrite Nat.add_comm, Nat.mul_comm.
        rewrite Nat.Div0.mod_add. discriminate. }
      rewrite (gated_activation_odd x Hx Hmod).
      split; split; intros Hc; trivial.
      * destruct Hc as [y Hy]. discriminate.
      * destruct (Nat.Even_Odd_False C Hc HO).
  - intros cin cout k causal p.
    destruct (Z.Even_or_Odd k) as [HE|HO].
    + assert (Hmod : (k mod 2 <> 1)%Z).
      { destruct HE as [m ->]. rewrite Z.mul_comm, Z_mod_mult. discriminate. }
      rewrite (init_even cin cout k causal p Hmod).
      split; [split; trivial|].
      intros [L HL]. discriminate.
    + split; [|intros _; exact HO].
      assert (Hmod : (k mod 2 = 1)%Z).
      { destruct HO as [m ->]. rewrite Z.add_comm, Z.mul_comm.
        rewrite Z_mod_plus_full. reflexivity. }
      split; intros Hc.
      * exfalso. destruct (Z_lt_le_dec k 0) as [Hneg|Hpos].
        -- rewrite (init_negative cin cout causal p Hmod Hneg) in Hc.
           discriminate.
        -- assert (Hk : k = Z.of_nat (2 * Z.to_nat ((k - 1) / 2) + 1)).
           { destruct HO as [m Hm]. subst k.
             replace (2 * m + 1 - 1)%Z with (m * 2)%Z by lia.
             rewrite Z.div_mul by lia. lia. }
           rewrite Hk, init_layer_of in Hc. discriminate.
      * destruct (Z.Even_Odd_False k Hc HO).
Qed.

(** C10.  The activation raises [AssertionError] exactly on an odd
    channel count, and the construction of a layer raises
    [AssertionError] exactly on an even kernel size.  A call that raises
    returns no value: the activation returns a tensor exactly on an even
    channel count, and a layer is only ever returned for an odd kernel
    size. *)
Theorem preconditions_fail_fast (x : Tensor A) (N C H W : nat)
    (cin cout : nat) (k : Z) (causal : bool)
    (p : GatedPixelCNNLayer.Params A) :
  tshape x = [N; C; H; W] ->
  (GatedActivation.forward x = Err AssertionError <-> Nat.Odd C) /\
  ((exists y, GatedActivation.forward x = Ok y) <-> Nat.Even C) /\
  (GatedPixelCNNLayer.__init__ cin cout k causal p = Err AssertionError
   <-> Z.Even k) /\
  ((exists L, GatedPixelCNNLayer.__init__ cin cout k causal p = Ok L)
   -> Z.Odd k).
Proof.
  intros Hx. destruct assertion_failures as [Hact Hinit].
  destruct (Hact x N C H W Hx) as [Ha Hb].
  destruct (Hinit cin cout k causal p) as [Hc Hd].
  repeat split; solve [apply Ha | apply Hb | apply Hc | apply Hd].
Qed.

End ActivationClaims.

(** * The statements about one layer *)

Section LayerClaims.
Context {A : Type} {SA : Scalar A}.

Lemma layer_forward_shapes (cin cout pad : nat) (causal : bool)
    (p : GatedPixelCNNLayer.Params A) (v h : Tensor A) (N H W : nat) :
  tshape v = [N; cin; H; W] -> tshape h = [N; cin; H; W] ->
  1 <= H -> 1 <= W -> 1 <= cin -> 1 <= cout ->
  causal = true \/ cin = cout \/ cin = 1 ->
  exists vstack hstack skip,
    GatedPixelCNNLayer.forward
      (GatedPixelCNNLayer.layer_of cin cout pad causal p) v h =
    Ok (vstack, hstack, skip) /\
    tshape vstack = [N; cout; H; W] /\
    tshape hstack = [N; cout; H; W] /\
    tshape skip = [N; cout; H; W].
Proof.
  intros Hv Hh HH HW Hcin Hcout Hres.
  destruct (@trace_exists A SA cin cout pad causal p v h N H W
              Hv Hh HH HW Hcin Hcout Hres) as (tr & Hr & Hs).
  exists (GatedPixelCNNLayer.t_vstack tr), (GatedPixelCNNLayer.t_hstack tr),
    (GatedPixelCNNLayer.t_skip tr).
  split; [eapply runs_forward; [exact Hv | exact Hr]|].
  destruct Hs. auto.
Qed.

(** C2, amended.  A layer with at least one input and one output channel
    that is causal, or has as many output channels as input channels, or
    has a single input channel, returns, for every pair of inputs of
    shape (N, in_channels, H, W) with at least one row and one column,
    three tensors of shape (N, out_channels, H, W). *)
Theorem layer_forward_preserves_shape (cin cout : nat) (k : Z)
    (causal : bool) (p : GatedPixelCNNLayer.Params A)
    (L : GatedPixelCNNLayer.t A) (v h : Tensor A) (N H W : nat) :
  GatedPixelCNNLayer.__init__ cin cout k causal p = Ok L ->
  tshape v = [N; cin; H; W] -> tshape h = [N; cin; H; W] ->
  1 <= H -> 1 <= W -> 1 <= cin -> 1 <= cout ->
  causal = true \/ cin = cout \/ cin = 1 ->
  exists vstack hstack skip,
    GatedPixelCNNLayer.forward L v h = Ok (vstack, hstack, skip) /\
    tshape vstack = [N; cout; H; W] /\
    tshape hstack = [N; cout; H; W] /\
    tshape skip = [N; cout; H; W].
Proof.
  intros HL Hv Hh HH HW Hcin Hcout Hres.
  destruct (init_inv _ _ _ _ _ HL) as (pad & _ & ->).
  now apply layer_forward_shapes.
Qed.

(** C1.  For a layer constructed with [is_causal=True], with at least
    one input and one output channel: when the horizontal input is
    changed only at columns strictly greater than [c], the horizontal
    output is the same at every position of column [c]; when the
    vertical input is changed only at rows strictly greater than [r],
    the vertical output is the same at every position of row [r]. *)
Theorem causal_layer_causality (cin cout : nat) (k : Z)
    (p : GatedPixelCNNLayer.Params A) (L : GatedPixelCNNLayer.t A)
    (v v' h h' : Tensor A) (N H W r c : nat) :
  GatedPixelCNNLayer.__init__ cin cout k true p = Ok L ->
  tshape v = [N; cin; H; W] -> tshape v' = [N; cin; H; W] ->
  tshape h = [N; cin; H; W] -> tshape h' = [N; cin; H; W] ->
  1 <= H -> 1 <= W -> 1 <= cin -> 1 <= cout ->
  agree N cin H W (fun _ j => j <= c) h h' ->
  agree N cin H W (fun i _ => i <= r) v v' ->
  exists vs hs sk vs1 hs1 sk1 vs2 hs2 sk2,
    GatedPixelCNNLayer.forward L v h = Ok (vs, hs, sk) /\
    GatedPixelCNNLayer.forward L v h' = Ok (vs1, hs1, sk1) /\
    GatedPixelCNNLayer.forward L v' h = Ok (vs2, hs2, sk2) /\
    (forall n ch i, n < N -> ch < cout -> i < H -> c < W ->
       tdata hs [n; ch; i; c] = tdata hs1 [n; ch; i; c]) /\
    (forall n ch j, n < N -> ch < cout -> r < H -> j < W ->
       tdata vs [n; ch; r; j] = tdata vs2 [n; ch; r; j]).
Proof.
  intros HL Hv Hv' Hh Hh' HH HW Hcin Hcout Hcols Hrows.
  destruct (init_inv _ _ _ _ _ HL) as (pad & _ & ->).
  assert (Hres : true = true \/ cin = cout) by now left.
  pose proof (residual_cases Hres) as Hres3.
  destruct (@trace_exists A SA cin cout pad true p v h N H W
              Hv Hh HH HW Hcin Hcout Hres3) as (tr & Hr & Hs).
  destruct (@trace_exists A SA cin cout pad true p v h' N H W
              Hv Hh' HH HW Hcin Hcout Hres3) as (tr1 & Hr1 & Hs1).
  destruct (@trace_exists A SA cin cout pad true p v' h N H W
              Hv' Hh HH HW Hcin Hcout Hres3) as (tr2 & Hr2 & Hs2).
  exists (GatedPixelCNNLayer.t_vstack tr), (GatedPixelCNNLayer.t_hstack tr),
    (GatedPixelCNNLayer.t_skip tr).
  exists (GatedPixelCNNLayer.t_vstack tr1), (GatedPixelCNNLayer.t_hstack tr1),
    (GatedPixelCNNLayer.t_skip tr1).
  exists (GatedPixelCNNLayer.t_vstack tr2), (GatedPixelCNNLayer.t_hstack tr2),
    (GatedPixelCNNLayer.t_skip tr2).
  split; [eapply runs_forward; [exact Hv | exact Hr]|].
  split; [eapply runs_forward; [exact Hv | exact Hr1]|].
  split; [eapply runs_forward; [exact Hv' | exact Hr2]|].
  split.
  - intros n ch i Hn Hch Hi Hc.
    destruct (@layer_hstack_local A SA cin cout pad true p N H W HH HW
                v h h' tr tr1 (fun _ j => j <= c) Hh Hh' Hres Hr Hr1 Hs Hs1)
      as [Hag _]; [intros; lia | exact Hcols |].
    apply Hag; trivial.
  - intros n ch j Hn Hch Hr' Hj.
    apply (@layer_vstack_local A SA cin cout pad true p N H W HH HW
             v v' h tr tr2 (fun i _ => i <= r) Hv Hv' Hr Hr2 Hs Hs2);
      trivial.
    intros; lia.
Qed.

End LayerClaims.

(** * The statements about [sample] *)

Section SampleClaims.
Context {A : Type} {SA : Scalar A}.
Variable bernoulli_trial : nat -> list nat -> A -> bool.

(** The first statement of the body reads [conditioned_on], which the
    entry frame does not bind. *)
Lemma sample_unbound (self : GatedPixelCNN.t A)
    (condition_on : option (Tensor A)) (seed : nat) :
  GatedPixelCNN.sample bernoulli_trial self condition_on seed =
  Err UnboundLocalError.
Proof.
  unfold GatedPixelCNN.sample, GatedPixelCNN.sample_body, GatedPixelCNN.pbind.
  reflexivity.
Qed.

(** C6.  Every call of [sample] raises a name-resolution error, whatever
    its argument, and so returns no canvas; had the name been bound to
    [None], the unconditional branch would raise on the attribute
    [_input_dim], which the model does not have. *)
Theorem sample_always_raises (self : GatedPixelCNN.t A)
    (condition_on : option (Tensor A)) (seed : nat)
    (f : GatedPixelCNN.frame) :
  (exists e, GatedPixelCNN.sample bernoulli_trial self condition_on seed =
             Err e /\ is_NameError e = true) /\
  (forall canvas,
     GatedPixelCNN.sample bernoulli_trial self condition_on seed <>
     Ok canvas) /\
  GatedPixelCNN.sample_body bernoulli_trial self
    (GatedPixelCNN.mkState
       (GatedPixelCNN.bind_name "conditioned_on" GatedPixelCNN.VNone f) seed) =
  Err AttributeError.
Proof.
  split; [|split].
  - exists UnboundLocalError. split; [apply sample_unbound | reflexivity].
  - intros canvas. rewrite sample_unbound. discriminate.
  - reflexivity.
Qed.

End SampleClaims.


(** * Real-valued layers: the identity projection *)

Section RealConvolutions.






End RealConvolutions.

Section Observers.
Context {A : Type} {SA : Scalar A}.


Lemma conv2d_data (cv : Torch.Conv2d A) (x y : Tensor A)
    (N C H W ph pw : nat) :
  tshape x = [N; C; H; W] ->
  Torch.padding_h cv = Z.of_nat ph -> Torch.padding_w cv = Z.of_nat pw ->
  Torch.in_channels cv = C ->
  Torch.kernel_h cv <= H + 2 * ph -> Torch.kernel_w cv <= W + 2 * pw ->
  Torch.conv2d cv x = Ok y ->
  forall n co i j,
    tdata y [n; co; i; j] = Torch.conv2d_at cv x C H W ph pw n co i j.
Proof.
  intros Hx Hph Hpw HC Hkh Hkw Ey.
  apply (@conv2d_inv A SA cv x y N C H W ph pw Hx Hph Hpw Ey).
Qed.


Lemma tadd_data (a b y : Tensor A) (N C H W : nat) :
  tshape a = [N; C; H; W] -> tshape b = [N; C; H; W] ->
  Torch.tadd a b = Ok y ->
  forall n c i j, n < N -> c < C -> i < H -> j < W ->
    tdata y [n; c; i; j] = add (tdata a [n; c; i; j]) (tdata b [n; c; i; j]).
Proof.
  intros Ha Hb Ey.
  destruct (binop4 add a b Ha Hb) as (y0 & E0 & _ & D0).
  assert (y0 = y) by (unfold Torch.tadd in Ey; congruence). subst. exact D0.
Qed.

End Observers.

(** * The statements about the residual connection and the link *)

Section ResidualClaim.


End ResidualClaim.

Section LinkClaim.
Context {A : Type} {SA : Scalar A}.


End LinkClaim.

Section LinkCounterexample.



End LinkCounterexample.

(** * Properties of the model *)

Section ModelFacts.
Context {A : Type} {SA : Scalar A}.

Lemma module_list_layers (g : nat) (q : nat -> GatedPixelCNNLayer.Params A)
    (range : list nat) :
  GatedPixelCNN.module_list
    (fun i => GatedPixelCNNLayer.__init__ g g 3 false (q i)) range =
  Ok (map (fun i => GatedPixelCNNLayer.layer_of g g 1 false (q i)) range).
Proof.
  induction range as [|i range IH]; [reflexivity|].
  cbn [GatedPixelCNN.module_list map].
  rewrite (init_layer_of g g 1 false (q i) : GatedPixelCNNLayer.__init__ g g 3 false (q i) = _).
  cbn [bind]. rewrite IH. reflexivity.
Qed.

(** The model [__init__] builds: its construction never fails. *)
Lemma model_init (cin od n g hc : nat) (p : GatedPixelCNN.Params A) :
  GatedPixelCNN.__init__ cin od n g hc p =
  Ok (GatedPixelCNN.mk od
        (GatedPixelCNNLayer.layer_of cin g 3 true (GatedPixelCNN.p_input p))
        (map (fun i => GatedPixelCNNLayer.layer_of g g 1 false
                         (GatedPixelCNN.p_gated p i)) (seq 0 n))
        [Torch.ReLU;
         Torch.Conv (Torch.mkConv2d g hc 1 1 (Z.of_nat 0) (Z.of_nat 0)
                       (fst (GatedPixelCNN.p_head_1 p))
                       (snd (GatedPixelCNN.p_head_1 p)));
         Torch.ReLU;
         Torch.Conv (Torch.mkConv2d hc (od * cin) 1 1 (Z.of_nat 0) (Z.of_nat 0)
                       (fst (GatedPixelCNN.p_head_2 p))
                       (snd (GatedPixelCNN.p_head_2 p)));
         Torch.Sigmoid]).
Proof.
  unfold GatedPixelCNN.__init__.
  rewrite (init_layer_of cin g 3 true (GatedPixelCNN.p_input p)
           : GatedPixelCNNLayer.__init__ cin g 7 true _ = _).
  cbn [bind]. rewrite module_list_layers. reflexivity.
Qed.

(** The loop over the gated layers keeps the three shapes. *)
Lemma gated_loop_shapes (g : nat) (q : nat -> GatedPixelCNNLayer.Params A)
    (N H W : nat) (range : list nat) :
  1 <= H -> 1 <= W -> 1 <= g ->
  forall vs hs sc : Tensor A,
    tshape vs = [N; g; H; W] -> tshape hs = [N; g; H; W] ->
    tshape sc = [N; g; H; W] ->
    exists vs' hs' sc',
      GatedPixelCNN.gated_loop
        (map (fun i => GatedPixelCNNLayer.layer_of g g 1 false (q i)) range)
        (vs, hs, sc) = Ok (vs', hs', sc') /\
      tshape vs' = [N; g; H; W] /\ tshape hs' = [N; g; H; W] /\
      tshape sc' = [N; g; H; W].
Proof.
  intros HH HW Hg.
  induction range as [|i range IH]; intros vs hs sc Hvs Hhs Hsc.
  - exists vs, hs, sc. simpl. auto.
  - destruct (@layer_forward_shapes A SA g g 1 false (q i) vs hs N H W
                Hvs Hhs HH HW Hg Hg (or_intror (or_introl eq_refl)))
      as (vs1 & hs1 & sk1 & E1 & Svs1 & Shs1 & Ssk1).
    destruct (tiadd4 sc sk1 Hsc Ssk1) as (sc1 & E2 & Ssc1 & _).
    destruct (IH vs1 hs1 sc1 Svs1 Shs1 Ssc1)
      as (vs' & hs' & sc' & E3 & Hvs' & Hhs' & Hsc').
    exists vs', hs', sc'. split; [|auto].
    simpl. rewrite E1. simpl bind. rewrite E2. simpl bind. exact E3.
Qed.

(** [forward] is [view] applied to the output of the head. *)
Lemma forward_views_head (M : GatedPixelCNN.t A) (x y : Tensor A)
    (N C H W : nat) :
  tshape x = [N; C; H; W] ->
  GatedPixelCNN.head_output M x = Ok y ->
  GatedPixelCNN.forward M x =
  Torch.view [N; GatedPixelCNN._out_dim M; C; H; W] y.
Proof.
  unfold GatedPixelCNN.head_output, GatedPixelCNN.forward.
  intros ->.
  destruct (GatedPixelCNNLayer.forward (GatedPixelCNN._input M) x x)
    as [st|e]; simpl bind; [|discriminate].
  destruct (GatedPixelCNN.gated_loop (GatedPixelCNN._gated_layers M) st)
    as [[[vs hs] sc]|e]; simpl bind; [|discriminate].
  intros ->. reflexivity.
Qed.

Lemma div_mod_split (m q r : nat) :
  r < m -> (q * m + r) / m = q /\ (q * m + r) mod m = r.
Proof.
  intros Hr. split.
  - symmetry. apply (Nat.div_unique _ m q r); lia.
  - symmetry. apply (Nat.mod_unique _ m q r); lia.
Qed.

(** Reading an (N, D*C, H, W) tensor through the shape (N, D, C, H, W)
    splits the channel axis: entry (n, d, c, i, j) is entry
    (n, d*C + c, i, j). *)
Lemma view_split_channels (y : Tensor A) (N D C H W : nat) :
  tshape y = [N; D * C; H; W] ->
  exists out, Torch.view [N; D; C; H; W] y = Ok out /\
    tshape out = [N; D; C; H; W] /\
    forall n d c i j, n < N -> d < D -> c < C -> i < H -> j < W ->
      tdata out [n; d; c; i; j] = tdata y [n; d * C + c; i; j].
Proof.
  intros Hy. unfold Torch.view. rewrite Hy.
  assert (Hnum : numel [N; D; C; H; W] = numel [N; D * C; H; W])
    by (simpl; ring).
  rewrite Hnum, Nat.eqb_refl.
  eexists. split; [reflexivity|]. split; [reflexivity|].
  intros n d c i j Hn Hd Hc Hi Hj. simpl tdata. f_equal.
  simpl.
  assert (Hdc : d * C + c < D * C) by nia.
  assert (Hij : i * (W * 1) + j < H * (W * 1)) by nia.
  assert (Hr1 : (d * C + c) * (H * (W * 1)) + (i * (W * 1) + j)
                < D * C * (H * (W * 1))) by nia.
  replace ((((n * D + d) * C + c) * H + i) * W + j)
    with (n * (D * C * (H * (W * 1)))
          + ((d * C + c) * (H * (W * 1)) + (i * (W * 1) + j))) by ring.
  destruct (div_mod_split n Hr1) as [-> ->].
  destruct (div_mod_split (d * C + c) Hij) as [-> ->].
  assert (Hj1 : j < W * 1) by lia.
  destruct (div_mod_split i Hj1) as [-> ->].
  now rewrite Nat.div_1_r.
Qed.

End ModelFacts.

Section HeadFacts.
Context {A : Type} {SA : Scalar A}.

(** The head keeps the batch and spatial extents, maps the channels to
    those of its last convolution, and ends with a sigmoid applied to
    the output of that convolution. *)
Lemma head_spec (c1 c2 : Torch.Conv2d A) (x : Tensor A) (N g H W : nat) :
  Torch.in_channels c1 = g ->
  Torch.in_channels c2 = Torch.out_channels c1 ->
  Torch.kernel_h c1 = 1 -> Torch.kernel_w c1 = 1 ->
  Torch.kernel_h c2 = 1 -> Torch.kernel_w c2 = 1 ->
  Torch.padding_h c1 = Z.of_nat 0 -> Torch.padding_w c1 = Z.of_nat 0 ->
  Torch.padding_h c2 = Z.of_nat 0 -> Torch.padding_w c2 = Z.of_nat 0 ->
  tshape x = [N; g; H; W] -> 1 <= H -> 1 <= W ->
  1 <= g -> 1 <= Torch.out_channels c1 -> 1 <= Torch.out_channels c2 ->
  exists z y,
    Torch.Sequential
      [Torch.ReLU; Torch.Conv c1; Torch.ReLU; Torch.Conv c2] x = Ok z /\
    tshape z = [N; Torch.out_channels c2; H; W] /\
    Torch.Sequential
      [Torch.ReLU; Torch.Conv c1; Torch.ReLU; Torch.Conv c2; Torch.Sigmoid] x =
    Ok y /\
    tshape y = [N; Torch.out_channels c2; H; W] /\
    forall idx, tdata y idx = sigmoid (tdata z idx).
Proof.
  intros Hin1 Hin2 Hkh1 Hkw1 Hkh2 Hkw2 Hph1 Hpw1 Hph2 Hpw2 Hx HH HW
    Hg Hout1 Hout2.
  assert (Hx1 : tshape (Torch.tmap relu x) = [N; g; H; W]) by exact Hx.
  destruct (@conv2d_spec A SA c1 (Torch.tmap relu x) N g H W 0 0 H W
              Hx1 Hph1 Hpw1 Hin1) as (y1 & E1 & S1 & _); try lia.
  assert (Hx2 : tshape (Torch.tmap relu y1) =
                [N; Torch.out_channels c1; H; W]) by exact S1.
  destruct (@conv2d_spec A SA c2 (Torch.tmap relu y1) N
              (Torch.out_channels c1) H W 0 0 H W
              Hx2 Hph2 Hpw2 Hin2) as (y2 & E2 & S2 & _); try lia.
  exists y2, (Torch.tmap sigmoid y2).
  split; [|split; [exact S2|split; [|split; [exact S2 | reflexivity]]]].
  - cbn [Torch.Sequential Torch.apply_layer bind].
    rewrite E1. cbn [bind]. rewrite E2. reflexivity.
  - cbn [Torch.Sequential Torch.apply_layer bind].
    rewrite E1. cbn [bind]. rewrite E2. reflexivity.
Qed.

End HeadFacts.

Section ModelForward.
Context {A : Type} {SA : Scalar A}.

(** For a model whose channel counts are all positive, on a batch of
    images with the configured channel count and at least one row and one
    column, [forward] succeeds: it is the output of the head, which is
    the sigmoid of the output of the last convolution, read through the
    shape (N, out_dim, C, H, W). *)
Lemma model_forward_spec (C out_dim n_gated gated_channels
    head_channels : nat) (p : GatedPixelCNN.Params A)
    (M : GatedPixelCNN.t A) (x : Tensor A) (N H W : nat) :
  GatedPixelCNN.__init__ C out_dim n_gated gated_channels head_channels p =
  Ok M ->
  tshape x = [N; C; H; W] -> 1 <= H -> 1 <= W ->
  1 <= C -> 1 <= out_dim -> 1 <= gated_channels -> 1 <= head_channels ->
  exists z y out,
    GatedPixelCNN.head_logits M x = Ok z /\
    tshape z = [N; out_dim * C; H; W] /\
    GatedPixelCNN.head_output M x = Ok y /\
    tshape y = [N; out_dim * C; H; W] /\
    (forall idx, tdata y idx = sigmoid (tdata z idx)) /\
    GatedPixelCNN.forward M x = Ok out /\
    tshape out = [N; out_dim; C; H; W] /\
    (forall n d c i j, n < N -> d < out_dim -> c < C -> i < H -> j < W ->
       tdata out [n; d; c; i; j] = tdata y [n; d * C + c; i; j]).
Proof.
  intros HM Hx HH HW HC Hod Hgc Hhc.
  rewrite model_init in HM. injection HM as <-.
  set (g := gated_channels) in *.
  destruct (@layer_forward_shapes A SA C g 3 true
              (GatedPixelCNN.p_input p) x x N H W Hx Hx HH HW HC Hgc
              (or_introl eq_refl))
    as (vs0 & hs0 & sk0 & E0 & Svs0 & Shs0 & Ssk0).
  destruct (@gated_loop_shapes A SA g (GatedPixelCNN.p_gated p) N H W
              (seq 0 n_gated) HH HW Hgc vs0 hs0 sk0 Svs0 Shs0 Ssk0)
    as (vs & hs & sc & E1 & _ & _ & Ssc).
  assert (Hodc : 1 <= out_dim * C) by nia.
  match goal with
  | |- context [Torch.Conv ?c1 :: Torch.ReLU :: Torch.Conv ?c2 :: _] =>
      destruct (@head_spec A SA c1 c2 sc N g H W
                  eq_refl eq_refl eq_refl eq_refl eq_refl eq_refl
                  eq_refl eq_refl eq_refl eq_refl Ssc HH HW Hgc Hhc Hodc)
        as (z & y & Ez & Sz & E2 & Sy & Dy)
  end.
  simpl Torch.out_channels in Sy, Sz.
  match goal with
  | |- context [GatedPixelCNN.head_output ?M0 x] =>
      assert (Hhead : GatedPixelCNN.head_output M0 x = Ok y);
      [|assert (Hlogits : GatedPixelCNN.head_logits M0 x = Ok z)]
  end.
  { unfold GatedPixelCNN.head_output. rewrite Hx.
    cbn [GatedPixelCNN._input GatedPixelCNN._gated_layers GatedPixelCNN._head].
    rewrite E0. cbn [bind]. rewrite E1. cbn [bind]. exact E2. }
  { unfold GatedPixelCNN.head_logits. rewrite Hx.
    cbn [GatedPixelCNN._input GatedPixelCNN._gated_layers GatedPixelCNN._head
         removelast].
    rewrite E0. cbn [bind]. rewrite E1. cbn [bind]. exact Ez. }
  destruct (@view_split_channels A y N out_dim C H W Sy)
    as (out & Eout & Sout & Dout).
  exists z, y, out.
  split; [exact Hlogits|]. split; [exact Sz|].
  split; [exact Hhead|]. split; [exact Sy|]. split; [exact Dy|].
  split; [erewrite forward_views_head; [exact Eout | exact Hx | exact Hhead]|].
  split; [exact Sout | exact Dout].
Qed.

End ModelForward.

(** * The statement about the model *)

Section RealRanges.

Lemma Rsigmoid_range (x : R) : (0 <= Rsigmoid x <= 1)%R.
Proof.
  unfold Rsigmoid. pose proof (exp_pos (- x)) as Hexp.
  assert (Hpos : (0 < 1 + exp (- x))%R) by lra.
  split.
  - left. now apply Rinv_0_lt_compat.
  - left. apply Rlt_le_trans with (/ 1)%R; [|rewrite Rinv_1; lra].
    apply Rinv_lt_contravar; lra.
Qed.

End RealRanges.

Section ModelClaim.
Context {A : Type} {SA : Scalar A}.

(** The order of the scalars and their test for NaN.  What is used of
    [sigmoid] is that it maps every scalar that is not NaN into [0, 1];
    this holds of the floating-point sigmoid, whose value on NaN is
    NaN. *)
Variable scalar_le : A -> A -> Prop.
Variable scalar_nan : A -> Prop.
Hypothesis sigmoid_range :
  forall z : A, ~ scalar_nan z ->
    scalar_le zero (sigmoid z) /\ scalar_le (sigmoid z) one.

(** C3, amended.  A model whose channel counts are all positive,
    constructed for [C] input channels, maps a batch of shape
    (N, C, H, W) with at least one row and one column to a tensor of
    shape (N, out_dim, C, H, W): the output of the head, of shape
    (N, out_dim * C, H, W), read through that shape.  Every entry is the
    sigmoid of the corresponding entry of the output of the last
    convolution, and lies in [0, 1] when that entry is not NaN. *)
Theorem model_forward_probabilities (C out_dim n_gated gated_channels
    head_channels : nat) (p : GatedPixelCNN.Params A)
    (M : GatedPixelCNN.t A) (x : Tensor A) (N H W : nat) :
  GatedPixelCNN.__init__ C out_dim n_gated gated_channels head_channels p =
  Ok M ->
  tshape x = [N; C; H; W] -> 1 <= H -> 1 <= W ->
  1 <= C -> 1 <= out_dim -> 1 <= gated_channels -> 1 <= head_channels ->
  exists logits y out,
    GatedPixelCNN.head_logits M x = Ok logits /\
    tshape logits = [N; out_dim * C; H; W] /\
    GatedPixelCNN.head_output M x = Ok y /\
    tshape y = [N; out_dim * C; H; W] /\
    GatedPixelCNN.forward M x = Ok out /\
    tshape out = [N; out_dim; C; H; W] /\
    (forall n d c i j, n < N -> d < out_dim -> c < C -> i < H -> j < W ->
       tdata out [n; d; c; i; j] = tdata y [n; d * C + c; i; j]) /\
    (forall n d c i j, n < N -> d < out_dim -> c < C -> i < H -> j < W ->
       tdata out [n; d; c; i; j] =
       sigmoid (tdata logits [n; d * C + c; i; j])) /\
    (forall n d c i j, n < N -> d < out_dim -> c < C -> i < H -> j < W ->
       ~ scalar_nan (tdata logits [n; d * C + c; i; j]) ->
       scalar_le zero (tdata out [n; d; c; i; j]) /\
       scalar_le (tdata out [n; d; c; i; j]) one).
Proof.
  intros HM Hx HH HW HC Hod Hgc Hhc.
  destruct (@model_forward_spec A SA C out_dim n_gated gated_channels
              head_channels p M x N H W HM Hx HH HW HC Hod Hgc Hhc)
    as (z & y & out & Hlogits & Sz & Hhead & Sy & Dy & Hout & Sout & Dout).
  exists z, y, out. repeat (split; [assumption|]).
  assert (Dsig : forall n d c i j,
            n < N -> d < out_dim -> c < C -> i < H -> j < W ->
            tdata out [n; d; c; i; j] =
            sigmoid (tdata z [n; d * C + c; i; j])).
  { intros n d c i j Hn Hd Hc Hi Hj. now rewrite Dout, Dy. }
  split; [exact Dsig|].
  intros n d c i j Hn Hd Hc Hi Hj Hnan.
  rewrite Dsig by assumption. now apply sigmoid_range.
Qed.

End ModelClaim.

(** * The sampling loop

    What the loop of [sample] computes once it is reached, that is from
    a frame in which [conditioned_on] is bound to a canvas. *)

Section SamplingOps.
Context {A : Type} {SA : Scalar A}.

Lemma squeeze_out_dim (out : Tensor A) (N C H W : nat) :
  tshape out = [N; 1; C; H; W] ->
  Torch.squeeze 1 out =
  Ok (mkTensor [N; C; H; W] (fun idx => tdata out (Torch.insert_at 1 0 idx))).
Proof.
  intros Hs. unfold Torch.squeeze. rewrite Hs. reflexivity.
Qed.

Lemma index3_spec (x : Tensor A) (N C H W c i j : nat) :
  tshape x = [N; C; H; W] -> c < C -> i < H -> j < W ->
  exists y, Torch.index3 c i j x = Ok y /\ tshape y = [N] /\
    forall n, tdata y [n] = tdata x [n; c; i; j].
Proof.
  intros Hx Hc Hi Hj. unfold Torch.index3, Torch.select.
  rewrite Hx. cbn [nth_error].
  destruct (Nat.ltb_spec c C); [|lia].
  cbn [bind tshape Torch.remove_at nth_error].
  destruct (Nat.ltb_spec i H); [|lia].
  cbn [bind tshape Torch.remove_at nth_error].
  destruct (Nat.ltb_spec j W); [|lia].
  eexists. split; [reflexivity|]. split; reflexivity.
Qed.

Lemma where_neg_spec (x a : Tensor A) (N : nat) :
  tshape x = [N] -> tshape a = [N] ->
  exists y, Torch.where_neg x a = Ok y /\ tshape y = [N] /\
    forall n, n < N ->
      tdata y [n] = if ltz (tdata x [n]) then tdata a [n] else tdata x [n].
Proof.
  intros Hx Ha. unfold Torch.where_neg.
  destruct (binop_same_shape
              (fun xv av : A => if ltz xv then av else xv) x a Hx Ha)
    as (y & Ey & Sy & Dy).
  exists y. split; [exact Ey|]. split; [exact Sy|].
  intros n Hn. rewrite Dy. unfold Torch.bindex. simpl.
  now rewrite stretch_id.
Qed.

Lemma setitem3_spec (x v : Tensor A) (N C H W c i j : nat) :
  tshape x = [N; C; H; W] -> tshape v = [N] -> c < C -> i < H -> j < W ->
  exists y, Torch.setitem3 c i j x v = Ok y /\ tshape y = [N; C; H; W] /\
    forall n c' i' j', n < N ->
      tdata y [n; c'; i'; j'] =
      if (c' =? c) && (i' =? i) && (j' =? j)
      then tdata v [n] else tdata x [n; c'; i'; j'].
Proof.
  intros Hx Hv Hc Hi Hj. unfold Torch.setitem3.
  destruct (index3_spec x Hx Hc Hi Hj) as (target & Et & St & _).
  rewrite Et. cbn [bind]. rewrite St, Hv, broadcast_shapes_same.
  rewrite shape_eqb_refl, Hx.
  eexists. split; [reflexivity|]. split; [reflexivity|].
  intros n c' i' j' Hn. cbn [tdata].
  destruct ((c' =? c) && (i' =? i) && (j' =? j)); [|reflexivity].
  unfold Torch.bindex. simpl. now rewrite stretch_id.
Qed.

End SamplingOps.

Section SamplingLoop.
Context {A : Type} {SA : Scalar A}.
Variable bernoulli_trial : nat -> list nat -> A -> bool.

Variables (n_gated gated_channels head_channels : nat).
Variable p : GatedPixelCNN.Params A.
Variable M : GatedPixelCNN.t A.
Hypothesis HM :
  GatedPixelCNN.__init__ 1 1 n_gated gated_channels head_channels p = Ok M.
Hypothesis Hgated : 1 <= gated_channels.
Hypothesis Hhead : 1 <= head_channels.

Variable x : Tensor A.
Variables (N H W : nat).

Lemma pbind_ok {T U : Type} (m : GatedPixelCNN.Py T)
    (k : T -> GatedPixelCNN.Py U) (st st' : @GatedPixelCNN.state A) (v : T) :
  m st = Ok (v, st') -> GatedPixelCNN.pbind m k st = k v st'.
Proof.
  intros Hm. unfold GatedPixelCNN.pbind. now rewrite Hm.
Qed.

Lemma load_tensor_ok (name : string) (st : @GatedPixelCNN.state A)
    (t : Tensor A) :
  GatedPixelCNN.locals st name = Some (GatedPixelCNN.VTensor t) ->
  GatedPixelCNN.load_tensor name st = Ok (t, st).
Proof.
  intros Hl. unfold GatedPixelCNN.load_tensor, GatedPixelCNN.pbind,
    GatedPixelCNN.load.
  now rewrite Hl.
Qed.

Lemma lift_ok {T : Type} (r : result T) (v : T)
    (st : @GatedPixelCNN.state A) :
  r = Ok v -> GatedPixelCNN.lift r st = Ok (v, st).
Proof.
  intros ->. reflexivity.
Qed.

(** One pixel: the forward pass succeeds on the current canvas, and the
    canvas changes at the pixel only, where an unknown entry receives the
    outcome of a Bernoulli trial. *)
Lemma sample_pixel_step (row column : nat) (visited : nat -> nat -> Prop)
    (st : GatedPixelCNN.state) :
  row < H -> column < W -> ~ visited row column ->
  canvas_inv x N H W visited st ->
  exists st',
    GatedPixelCNN.sample_pixel bernoulli_trial M row column 0 st =
    Ok (tt, st') /\
    canvas_inv x N H W
      (fun i j => visited i j \/ (i = row /\ j = column)) st'.
Proof.
  intros Hrow Hcol Hnew (canvas & Hloc & Hshape & Hinv).
  assert (HH : 1 <= H) by lia. assert (HW : 1 <= W) by lia.
  destruct (@model_forward_spec A SA 1 1 n_gated gated_channels head_channels
              p M canvas N H W HM Hshape HH HW (le_n 1) (le_n 1)
              Hgated Hhead)
    as (z & y & out & _ & _ & _ & _ & _ & Eout & Sout & _).
  pose proof (squeeze_out_dim out Sout) as Esq.
  match type of Esq with
  | _ = Ok ?t =>
      destruct (@index3_spec A t N 1 H W 0 row column eq_refl
                  ltac:(lia) Hrow Hcol) as (probs & Eprobs & Sprobs & _)
  end.
  destruct (@index3_spec A canvas N 1 H W 0 row column Hshape
              ltac:(lia) Hrow Hcol) as (cur & Ecur & Scur & Dcur).
  set (drawn := mkTensor (tshape probs)
         (fun idx => if bernoulli_trial (GatedPixelCNN.draws st) idx
                          (tdata probs idx) then one else zero)).
  destruct (@where_neg_spec A SA cur drawn N Scur Sprobs)
    as (new & Enew & Snew & Dnew).
  destruct (@setitem3_spec A canvas new N 1 H W 0 row column
              Hshape Snew ltac:(lia) Hrow Hcol) as (canvas' & Eset & Sset & Dset).
  eexists. split.
  - unfold GatedPixelCNN.sample_pixel.
    erewrite pbind_ok by (apply load_tensor_ok; exact Hloc).
    erewrite pbind_ok by (apply lift_ok; exact Eout).
    erewrite pbind_ok by (apply lift_ok; exact Esq).
    erewrite pbind_ok by (apply lift_ok; exact Eprobs).
    erewrite pbind_ok by reflexivity.
    erewrite pbind_ok by (apply load_tensor_ok; reflexivity).
    erewrite pbind_ok by reflexivity.
    erewrite pbind_ok by reflexivity.
    erewrite pbind_ok by (apply load_tensor_ok; cbn; exact Hloc).
    erewrite pbind_ok by (apply lift_ok; exact Ecur).
    erewrite pbind_ok by (apply load_tensor_ok; reflexivity).
    erewrite pbind_ok by (apply lift_ok; exact Enew).
    erewrite pbind_ok by (apply load_tensor_ok; cbn; exact Hloc).
    erewrite pbind_ok by (apply lift_ok; exact Eset).
    reflexivity.
  - exists canvas'. split; [reflexivity|]. split; [exact Sset|].
    intros n i j Hn Hi Hj. unfold settled.
    rewrite (Dset n 0 i j Hn). simpl.
    destruct (Hinv n i j Hn Hi Hj) as [Hvis Hunvis].
    destruct (Nat.eqb_spec i row) as [->|Hi'];
      [destruct (Nat.eqb_spec j column) as [->|Hj']|]; simpl.
    + split; [|intros Hc; exfalso; apply Hc; now right].
      intros _. rewrite Dnew, Dcur by assumption.
      pose proof (Hunvis Hnew) as Hx.
      split; intros Hlt.
      * rewrite <- Hx in Hlt. rewrite Hlt. exact Hx.
      * rewrite <- Hx in Hlt. rewrite Hlt. unfold drawn. simpl.
        destruct (bernoulli_trial _ _ _); [now right | now left].
    + split.
      * intros [Hv|[_ Hc]]; [now apply Hvis | contradiction].
      * intros Hc. apply Hunvis. intros Hv. apply Hc. now left.
    + split.
      * intros [Hv|[Hc _]]; [now apply Hvis | contradiction].
      * intros Hc. apply Hunvis. intros Hv. apply Hc. now left.
Qed.

Lemma canvas_inv_ext (V V' : nat -> nat -> Prop)
    (st : @GatedPixelCNN.state A) :
  (forall i j, V i j <-> V' i j) ->
  canvas_inv x N H W V st -> canvas_inv x N H W V' st.
Proof.
  intros Heq (canvas & Hloc & Hshape & Hinv).
  exists canvas. split; [exact Hloc|]. split; [exact Hshape|].
  intros n i j Hn Hi Hj. destruct (Hinv n i j Hn Hi Hj) as [Hv Hu].
  split; intros HV; [apply Hv | apply Hu]; rewrite Heq; exact HV.
Qed.

(** A [for] loop over [range(a, a + n)] establishes [I (a + n)] from
    [I a] when every iteration succeeds and steps the invariant. *)
Lemma for_in_seq (I : nat -> @GatedPixelCNN.state A -> Prop)
    (body : nat -> GatedPixelCNN.Py unit) (n : nat) :
  forall a,
    (forall k st, a <= k < a + n -> I k st ->
       exists st', body k st = Ok (tt, st') /\ I (S k) st') ->
    forall st, I a st ->
      exists st', GatedPixelCNN.for_in (seq a n) body st = Ok (tt, st') /\
                  I (a + n) st'.
Proof.
  clear Hgated Hhead.
  induction n as [|n IH]; intros a Hbody st Hst.
  - exists st. rewrite Nat.add_0_r. split; [reflexivity | exact Hst].
  - destruct (Hbody a st ltac:(lia) Hst) as (st1 & E1 & H1).
    destruct (IH (S a)) with (st := st1) as (st2 & E2 & H2); trivial.
    { intros k st' Hk. apply Hbody. lia. }
    exists st2. split.
    + cbn [seq GatedPixelCNN.for_in].
      erewrite pbind_ok by exact E1. exact E2.
    + replace (a + S n) with (S a + n) by lia. exact H2.
Qed.

(** The three nested loops visit the 28x28 grid of channel 0 in raster
    order; every iteration succeeds. *)
Lemma sample_loops (st : @GatedPixelCNN.state A) :
  28 <= H -> 28 <= W ->
  canvas_inv x N H W (fun _ _ => False) st ->
  exists st',
    GatedPixelCNN.for_in (seq 0 28) (fun row =>
      GatedPixelCNN.for_in (seq 0 28) (fun column =>
        GatedPixelCNN.for_in (seq 0 1) (fun channel =>
          GatedPixelCNN.sample_pixel bernoulli_trial M row column channel)))
      st = Ok (tt, st') /\
    canvas_inv x N H W (fun i j => i < 28 /\ j < 28) st'.
Proof.
  intros HH HW Hst.
  apply (@for_in_seq
           (fun r => canvas_inv x N H W (fun i j => i < r /\ j < 28))
           _ 28 0).
  2:{ revert Hst. apply canvas_inv_ext. intros i j. split; [tauto | lia]. }
  intros row st0 Hrow Hst0.
  destruct (@for_in_seq
              (fun c => canvas_inv x N H W
                          (fun i j => (i < row /\ j < 28) \/
                                      (i = row /\ j < c)))
              (fun column =>
                 GatedPixelCNN.for_in (seq 0 1) (fun channel =>
                   GatedPixelCNN.sample_pixel bernoulli_trial M
                     row column channel))
              28 0) with (st := st0) as (st1 & E1 & H1).
  - intros column st1 Hcolumn Hst1.
    assert (Hnew : ~ ((row < row /\ column < 28) \/
                      (row = row /\ column < column))) by lia.
    destruct (@sample_pixel_step row column _ st1 ltac:(lia) ltac:(lia)
                Hnew Hst1) as (st2 & E2 & H2).
    exists st2. split.
    + cbn [seq GatedPixelCNN.for_in].
      erewrite pbind_ok by exact E2. reflexivity.
    + revert H2. apply canvas_inv_ext. intros i j. split.
      * intros [[Hv|Hv]|[Hi Hj]]; [left; exact Hv | right; lia | right; lia].
      * intros [Hv|[Hi Hj]]; [left; left; exact Hv|].
        destruct (Nat.eq_dec j column) as [->|Hne];
          [right; now split | left; right; lia].
  - revert Hst0. apply canvas_inv_ext. intros i j. split; [tauto|].
    intros [Hv|[_ Hj]]; [exact Hv | lia].
  - exists st1. split; [exact E1|].
    revert H1. apply canvas_inv_ext. intros i j. simpl. split.
    + intros [[Hi Hj]|[Hi Hj]]; lia.
    + intros [Hi Hj].
      destruct (Nat.eq_dec i row) as [->|Hne]; [right; lia | left; lia].
Qed.

(** Had [conditioned_on] been bound to the canvas [x] on entry, the body
    of [sample] would return a canvas of the same shape in which, over
    the 28x28 grid of channel 0, every entry of [x] that is not negative
    is unchanged and every negative entry is 0 or 1. *)
Lemma sample_body_respects_evidence (f : GatedPixelCNN.frame) (seed : nat) :
  tshape x = [N; 1; H; W] -> 28 <= H -> 28 <= W ->
  exists canvas st',
    GatedPixelCNN.sample_body bernoulli_trial M
      (GatedPixelCNN.mkState
         (GatedPixelCNN.bind_name "conditioned_on" (GatedPixelCNN.VTensor x) f)
         seed) = Ok (canvas, st') /\
    tshape canvas = [N; 1; H; W] /\
    forall n i j, n < N -> i < 28 -> j < 28 -> settled x canvas n i j.
Proof.
  intros Hx HH HW.
  set (st0 := GatedPixelCNN.mkState
                (GatedPixelCNN.bind_name "conditioned_on"
                   (GatedPixelCNN.VTensor x) f) seed).
  set (st1 := GatedPixelCNN.mkState
                (GatedPixelCNN.bind_name "conditioned_on"
                   (GatedPixelCNN.VTensor x) (GatedPixelCNN.locals st0))
                seed).
  assert (Hst1 : canvas_inv x N H W (fun _ _ => False) st1).
  { exists x. split; [reflexivity|]. split; [exact Hx|].
    intros n i j _ _ _. split; [contradiction | reflexivity]. }
  destruct (sample_loops HH HW Hst1) as (st2 & E2 & canvas & Hloc & Hs & Hinv).
  exists canvas, st2. split; [|split; [exact Hs|]].
  - unfold GatedPixelCNN.sample_body.
    erewrite pbind_ok by reflexivity. cbv beta iota.
    erewrite pbind_ok.
    2:{ erewrite pbind_ok by (apply load_tensor_ok; reflexivity).
        reflexivity. }
    erewrite pbind_ok by exact E2.
    apply load_tensor_ok. exact Hloc.
  - intros n i j Hn Hi Hj.
    apply (Hinv n i j Hn ltac:(lia) ltac:(lia)). split; assumption.
Qed.

End SamplingLoop.

(** * The statements about sampling on a canvas *)

Section SampleOnCanvases.
Variable bernoulli_trial : nat -> list nat -> R -> bool.

Lemma Rltz_minus_one : Rltz (-1) = true.
Proof. unfold Rltz. destruct (Rlt_dec (-1) 0); [reflexivity | lra]. Qed.

Lemma Rltz_one : Rltz 1 = false.
Proof. unfold Rltz. destruct (Rlt_dec 1 0); [lra | reflexivity]. Qed.

(** C5.  On the all -1 canvas of shape (1, 1, 28, 28) the call raises
    before the loop is entered: no position is visited and no canvas is
    returned.  The body is otherwise as stated: for a model with at least
    one gated and one head channel, started in a frame that binds
    [conditioned_on] to the canvas, it returns a canvas whose entries are
    all 0 or 1. *)
Theorem sample_blank_canvas (n_gated gated_channels head_channels : nat)
    (p : GatedPixelCNN.Params R) (seed : nat) (f : GatedPixelCNN.frame) :
  exists M,
    GatedPixelCNN.__init__ 1 1 n_gated gated_channels head_channels p =
    Ok M /\
    GatedPixelCNN.sample bernoulli_trial M (Some blank_canvas) seed =
    Err UnboundLocalError /\
    (1 <= gated_channels -> 1 <= head_channels ->
     exists canvas st',
       GatedPixelCNN.sample_body bernoulli_trial M
         (GatedPixelCNN.mkState
            (GatedPixelCNN.bind_name "conditioned_on"
               (GatedPixelCNN.VTensor blank_canvas) f) seed) =
       Ok (canvas, st') /\
       tshape canvas = [1; 1; 28; 28] /\
       forall i j, i < 28 -> j < 28 ->
         tdata canvas [0; 0; i; j] = 0%R \/ tdata canvas [0; 0; i; j] = 1%R).
Proof.
  eexists. split; [apply model_init|]. split; [apply sample_unbound|].
  intros Hgated Hhead.
  destruct (@sample_body_respects_evidence R RScalar bernoulli_trial
              n_gated gated_channels head_channels p _
              (model_init 1 1 n_gated gated_channels head_channels p)
              Hgated Hhead
              blank_canvas 1 28 28 f seed eq_refl (le_n 28) (le_n 28))
    as (canvas & st' & Erun & Hshape & Hsettled).
  exists canvas, st'. split; [exact Erun|]. split; [exact Hshape|].
  intros i j Hi Hj.
  destruct (Hsettled 0 i j ltac:(lia) Hi Hj) as [_ Hunknown].
  apply Hunknown. exact Rltz_minus_one.
Qed.

(** C4.  On a canvas with a fixed entry the call raises as well, so the
    fixed entry is not returned.  The body is otherwise as stated: for a
    model with at least one gated and one head channel, started in a
    frame that binds [conditioned_on] to the canvas, it returns a canvas
    that holds the fixed entry unchanged and 0 or 1 at every entry that
    was -1. *)
Theorem sample_seeded_canvas (n_gated gated_channels head_channels : nat)
    (p : GatedPixelCNN.Params R) (seed : nat) (f : GatedPixelCNN.frame) :
  exists M,
    GatedPixelCNN.__init__ 1 1 n_gated gated_channels head_channels p =
    Ok M /\
    GatedPixelCNN.sample bernoulli_trial M (Some seeded_canvas) seed =
    Err UnboundLocalError /\
    (1 <= gated_channels -> 1 <= head_channels ->
     exists canvas st',
       GatedPixelCNN.sample_body bernoulli_trial M
         (GatedPixelCNN.mkState
            (GatedPixelCNN.bind_name "conditioned_on"
               (GatedPixelCNN.VTensor seeded_canvas) f) seed) =
       Ok (canvas, st') /\
       tshape canvas = [1; 1; 28; 28] /\
       tdata canvas [0; 0; 0; 0] = tdata seeded_canvas [0; 0; 0; 0] /\
       forall i j, i < 28 -> j < 28 -> (i, j) <> (0, 0) ->
         tdata seeded_canvas [0; 0; i; j] = (-1)%R /\
         (tdata canvas [0; 0; i; j] = 0%R \/
          tdata canvas [0; 0; i; j] = 1%R)).
Proof.
  eexists. split; [apply model_init|]. split; [apply sample_unbound|].
  intros Hgated Hhead.
  destruct (@sample_body_respects_evidence R RScalar bernoulli_trial
              n_gated gated_channels head_channels p _
              (model_init 1 1 n_gated gated_channels head_channels p)
              Hgated Hhead
              seeded_canvas 1 28 28 f seed eq_refl (le_n 28) (le_n 28))
    as (canvas & st' & Erun & Hshape & Hsettled).
  exists canvas, st'. split; [exact Erun|]. split; [exact Hshape|]. split.
  - destruct (Hsettled 0 0 0 ltac:(lia) ltac:(lia) ltac:(lia)) as [Hfixed _].
    apply Hfixed. exact Rltz_one.
  - intros i j Hi Hj Hne.
    assert (Hval : tdata seeded_canvas [0; 0; i; j] = (-1)%R).
    { destruct i as [|i]; [destruct j as [|j]; [congruence|]|]; reflexivity. }
    split; [exact Hval|].
    destruct (Hsettled 0 i j ltac:(lia) Hi Hj) as [_ Hunknown].
    apply Hunknown. rewrite Hval. exact Rltz_minus_one.
Qed.

End SampleOnCanvases.

(** * The statements at concrete layers and inputs *)

Section Instances.

(** C2 as stated fails.  A non-causal layer with 2 input and 3 output
    channels raises on inputs of shape (1, 2, 1, 1), when the horizontal
    input is added in place to the three-channel output of the residual
    projection.  A layer also raises, in a convolution, on an image
    without rows, and whenever it is constructed without output channel
    or without input channel. *)
Lemma noncausal_channel_mismatch :
  (GatedPixelCNNLayer.__init__ 2 3 3 false zero_params =
   Ok (GatedPixelCNNLayer.layer_of 2 3 1 false zero_params) /\
   tshape (zeros [1; 2; 1; 1]) = [1; 2; 1; 1] /\
   GatedPixelCNNLayer.forward
     (GatedPixelCNNLayer.layer_of 2 3 1 false zero_params)
     (zeros [1; 2; 1; 1]) (zeros [1; 2; 1; 1]) = Err RuntimeError /\
   ~ exists vstack hstack skip,
       GatedPixelCNNLayer.forward
         (GatedPixelCNNLayer.layer_of 2 3 1 false zero_params)
         (zeros [1; 2; 1; 1]) (zeros [1; 2; 1; 1]) =
       Ok (vstack, hstack, skip) /\
       tshape vstack = [1; 3; 1; 1] /\ tshape hstack = [1; 3; 1; 1] /\
       tshape skip = [1; 3; 1; 1]) /\
  (GatedPixelCNNLayer.__init__ 1 1 3 true zero_params =
   Ok (GatedPixelCNNLayer.layer_of 1 1 1 true zero_params) /\
   GatedPixelCNNLayer.forward
     (GatedPixelCNNLayer.layer_of 1 1 1 true zero_params)
     (zeros [1; 1; 0; 1]) (zeros [1; 1; 0; 1]) = Err RuntimeError) /\
  (forall L, GatedPixelCNNLayer.__init__ 1 0 3 true zero_params = Ok L ->
     GatedPixelCNNLayer.forward L (zeros [1; 1; 1; 1]) (zeros [1; 1; 1; 1]) =
     Err RuntimeError) /\
  (forall L, GatedPixelCNNLayer.__init__ 0 1 3 true zero_params = Ok L ->
     GatedPixelCNNLayer.forward L (zeros [1; 0; 1; 1]) (zeros [1; 0; 1; 1]) =
     Err RuntimeError).
Proof.
  assert (Herr : GatedPixelCNNLayer.forward
                   (GatedPixelCNNLayer.layer_of 2 3 1 false zero_params)
                   (zeros [1; 2; 1; 1]) (zeros [1; 2; 1; 1]) =
                 Err RuntimeError) by reflexivity.
  split; [|split; [split; reflexivity|split]].
  - split; [reflexivity|]. split; [reflexivity|]. split; [exact Herr|].
    intros (vs & hs & sk & Hok & _). rewrite Herr in Hok. discriminate.
  - intros L HL.
    assert (E : GatedPixelCNNLayer.__init__ 1 0 3 true zero_params =
                Ok (GatedPixelCNNLayer.layer_of 1 0 1 true zero_params))
      by reflexivity.
    rewrite E in HL. injection HL as <-. reflexivity.
  - intros L HL.
    assert (E : GatedPixelCNNLayer.__init__ 0 1 3 true zero_params =
                Ok (GatedPixelCNNLayer.layer_of 0 1 1 true zero_params))
      by reflexivity.
    rewrite E in HL. injection HL as <-. reflexivity.
Qed.

(** A non-causal layer from 1 to 3 channels on 2x2 images: the residual
    addition broadcasts the single input channel. *)
Lemma layer_forward_preserves_shape_witness :
  GatedPixelCNNLayer.__init__ 1 3 3 false zero_params =
  Ok (GatedPixelCNNLayer.layer_of 1 3 1 false zero_params) /\
  exists vstack hstack skip,
    GatedPixelCNNLayer.forward
      (GatedPixelCNNLayer.layer_of 1 3 1 false zero_params)
      (zeros [1; 1; 2; 2]) right_column =
    Ok (vstack, hstack, skip) /\
    tshape vstack = [1; 3; 2; 2] /\
    tshape hstack = [1; 3; 2; 2] /\
    tshape skip = [1; 3; 2; 2].
Proof.
  split; [reflexivity|].
  apply (@layer_forward_preserves_shape R RScalar 1 3 3 false zero_params
           (GatedPixelCNNLayer.layer_of 1 3 1 false zero_params)
           (zeros [1; 1; 2; 2]) right_column 1 2 2).
  - reflexivity.
  - reflexivity.
  - reflexivity.
  - lia.
  - lia.
  - lia.
  - lia.
  - right. right. reflexivity.
Defined.

(** A causal layer on 2x2 images: the all-zero image, one changed in
    column 1 and one changed in row 1. *)
Lemma causal_layer_causality_witness :
  agree 1 1 2 2 (fun _ j => j <= 0) (zeros [1; 1; 2; 2]) right_column /\
  agree 1 1 2 2 (fun i _ => i <= 0) (zeros [1; 1; 2; 2]) bottom_row /\
  exists vs hs sk vs1 hs1 sk1 vs2 hs2 sk2,
    GatedPixelCNNLayer.forward
      (GatedPixelCNNLayer.layer_of 1 1 1 true zero_params)
      (zeros [1; 1; 2; 2]) (zeros [1; 1; 2; 2]) = Ok (vs, hs, sk) /\
    GatedPixelCNNLayer.forward
      (GatedPixelCNNLayer.layer_of 1 1 1 true zero_params)
      (zeros [1; 1; 2; 2]) right_column = Ok (vs1, hs1, sk1) /\
    GatedPixelCNNLayer.forward
      (GatedPixelCNNLayer.layer_of 1 1 1 true zero_params)
      bottom_row (zeros [1; 1; 2; 2]) = Ok (vs2, hs2, sk2) /\
    (forall n ch i, n < 1 -> ch < 1 -> i < 2 -> 0 < 2 ->
       tdata hs [n; ch; i; 0] = tdata hs1 [n; ch; i; 0]) /\
    (forall n ch j, n < 1 -> ch < 1 -> 0 < 2 -> j < 2 ->
       tdata vs [n; ch; 0; j] = tdata vs2 [n; ch; 0; j]).
Proof.
  assert (Hcols : agree 1 1 2 2 (fun _ j => j <= 0)
                    (zeros [1; 1; 2; 2]) right_column).
  { intros n c i j _ _ _ _ Hj. simpl.
    destruct j as [|j]; [reflexivity | lia]. }
  assert (Hrows : agree 1 1 2 2 (fun i _ => i <= 0)
                    (zeros [1; 1; 2; 2]) bottom_row).
  { intros n c i j _ _ _ _ Hi. simpl.
    destruct i as [|i]; [reflexivity | lia]. }
  split; [exact Hcols|]. split; [exact Hrows|].
  apply (@causal_layer_causality R RScalar 1 1 3 zero_params
           (GatedPixelCNNLayer.layer_of 1 1 1 true zero_params)
           (zeros [1; 1; 2; 2]) bottom_row (zeros [1; 1; 2; 2]) right_column
           1 2 2 0 0).
  - reflexivity.
  - reflexivity.
  - reflexivity.
  - reflexivity.
  - reflexivity.
  - lia.
  - lia.
  - lia.
  - lia.
  - exact Hcols.
  - exact Hrows.
Defined.

(** The activation on a two-channel 3x3 image. *)
Lemma gated_activation_forward_witness :
  tshape (zeros [1; 2; 3; 3]) = [1; 2; 3; 3] /\ Nat.Even 2 /\
  exists y, GatedActivation.forward (zeros [1; 2; 3; 3]) = Ok y /\
    tshape y = [1; 2 / 2; 3; 3] /\
    forall n c i j, n < 1 -> c < 2 / 2 -> i < 3 -> j < 3 ->
      tdata y [n; c; i; j] =
      mul (tanh (tdata (zeros [1; 2; 3; 3]) [n; c; i; j]))
          (sigmoid (tdata (zeros [1; 2; 3; 3]) [n; 2 / 2 + c; i; j])).
Proof.
  split; [reflexivity|]. split; [exists 1; reflexivity|].
  apply (@gated_activation_forward R RScalar (zeros [1; 2; 3; 3]) 1 2 3 3).
  - reflexivity.
  - exists 1. reflexivity.
Defined.

(** Three channels and a kernel size of 4: both assertions fail. *)
Lemma preconditions_fail_fast_witness :
  tshape (zeros [1; 3; 1; 1]) = [1; 3; 1; 1] /\
  (GatedActivation.forward (zeros [1; 3; 1; 1]) = Err AssertionError
   <-> Nat.Odd 3) /\
  ((exists y, GatedActivation.forward (zeros [1; 3; 1; 1]) = Ok y)
   <-> Nat.Even 3) /\
  (GatedPixelCNNLayer.__init__ 1 1 4 false zero_params = Err AssertionError
   <-> Z.Even 4) /\
  ((exists L, GatedPixelCNNLayer.__init__ 1 1 4 false zero_params = Ok L)
   -> Z.Odd 4).
Proof.
  split; [reflexivity|].
  apply (@preconditions_fail_fast R RScalar (zeros [1; 3; 1; 1]) 1 3 1 1
           1 1 4%Z false zero_params).
  reflexivity.
Defined.

(** C3 as stated fails.  A model with one input channel raises on a
    batch of shape (1, 1, 0, 3), whose images have no row, and on a
    batch of shape (1, 1, 3, 0), whose images have no column.  A model
    constructed with [out_dim=0], with [gated_channels=0] or with
    [head_channels=0] raises on the all-zero batch of shape
    (1, 1, 3, 3). *)
Lemma forward_rejects_degenerate_shapes :
  (exists M,
     GatedPixelCNN.__init__ 1 1 0 4 2 zero_model_params = Ok M /\
     tshape (zeros [1; 1; 0; 3]) = [1; 1; 0; 3] /\
     GatedPixelCNN.forward M (zeros [1; 1; 0; 3]) = Err RuntimeError /\
     GatedPixelCNN.forward M (zeros [1; 1; 3; 0]) = Err RuntimeError /\
     ~ exists out,
         GatedPixelCNN.forward M (zeros [1; 1; 0; 3]) = Ok out /\
         tshape out = [1; 1; 1; 0; 3]) /\
  (forall M, GatedPixelCNN.__init__ 1 0 0 4 2 zero_model_params = Ok M ->
     GatedPixelCNN.forward M (zeros [1; 1; 3; 3]) = Err RuntimeError) /\
  (forall M, GatedPixelCNN.__init__ 1 1 0 0 2 zero_model_params = Ok M ->
     GatedPixelCNN.forward M (zeros [1; 1; 3; 3]) = Err RuntimeError) /\
  (forall M, GatedPixelCNN.__init__ 1 1 0 4 0 zero_model_params = Ok M ->
     GatedPixelCNN.forward M (zeros [1; 1; 3; 3]) = Err RuntimeError).
Proof.
  split; [|split; [|split]].
  - eexists. split; [reflexivity|]. split; [reflexivity|].
    split; [reflexivity|]. split; [reflexivity|].
    intros (out & Hout & _). discriminate.
  - intros M HM. rewrite model_init in HM. injection HM as <-. reflexivity.
  - intros M HM. rewrite model_init in HM. injection HM as <-. reflexivity.
  - intros M HM. rewrite model_init in HM. injection HM as <-. reflexivity.
Qed.

(** The all-zero 1x1x3x3 image through a model with [n_gated=0],
    [gated_channels=4] and [head_channels=2], over the real numbers,
    where no scalar is NaN. *)
Lemma model_forward_probabilities_witness :
  (forall z : R, ~ False -> (0 <= sigmoid z)%R /\ (sigmoid z <= 1)%R) /\
  exists M,
    GatedPixelCNN.__init__ 1 1 0 4 2 zero_model_params = Ok M /\
    exists logits y out,
      GatedPixelCNN.head_logits M (zeros [1; 1; 3; 3]) = Ok logits /\
      tshape logits = [1; 1 * 1; 3; 3] /\
      GatedPixelCNN.head_output M (zeros [1; 1; 3; 3]) = Ok y /\
      tshape y = [1; 1 * 1; 3; 3] /\
      GatedPixelCNN.forward M (zeros [1; 1; 3; 3]) = Ok out /\
      tshape out = [1; 1; 1; 3; 3] /\
      (forall n d c i j, n < 1 -> d < 1 -> c < 1 -> i < 3 -> j < 3 ->
         tdata out [n; d; c; i; j] = tdata y [n; d * 1 + c; i; j]) /\
      (forall n d c i j, n < 1 -> d < 1 -> c < 1 -> i < 3 -> j < 3 ->
         tdata out [n; d; c; i; j] =
         sigmoid (tdata logits [n; d * 1 + c; i; j])) /\
      (forall n d c i j, n < 1 -> d < 1 -> c < 1 -> i < 3 -> j < 3 ->
         ~ False ->
         (0 <= tdata out [n; d; c; i; j])%R /\
         (tdata out [n; d; c; i; j] <= 1)%R).
Proof.
  assert (Hrange : forall z : R, ~ False ->
            (0 <= sigmoid z)%R /\ (sigmoid z <= 1)%R).
  { intros z _. apply Rsigmoid_range. }
  split; [exact Hrange|].
  eexists. split; [reflexivity|].
  apply (@model_forward_probabilities R RScalar Rle (fun _ => False) Hrange
           1 1 0 4 2 zero_model_params _ (zeros [1; 1; 3; 3]) 1 3 3).
  - reflexivity.
  - reflexivity.
  - lia.
  - lia.
  - lia.
  - lia.
  - lia.
  - lia.
Defined.



(** A model with four gated and two head channels on the all -1
    canvas, with a generator whose every trial succeeds. *)
Lemma sample_blank_canvas_witness :
  exists M,
    GatedPixelCNN.__init__ 1 1 0 4 2 zero_model_params = Ok M /\
    GatedPixelCNN.sample (fun _ _ _ => true) M (Some blank_canvas) 0 =
    Err UnboundLocalError /\
    exists canvas st',
      GatedPixelCNN.sample_body (fun _ _ _ => true) M
        (GatedPixelCNN.mkState
           (GatedPixelCNN.bind_name "conditioned_on"
              (GatedPixelCNN.VTensor blank_canvas)
              GatedPixelCNN.empty_frame) 0) =
      Ok (canvas, st') /\
      tshape canvas = [1; 1; 28; 28] /\
      forall i j, i < 28 -> j < 28 ->
        tdata canvas [0; 0; i; j] = 0%R \/ tdata canvas [0; 0; i; j] = 1%R.
Proof.
  destruct (@sample_blank_canvas (fun _ _ _ => true) 0 4 2 zero_model_params
              0 GatedPixelCNN.empty_frame) as (M & HM & Herr & Hbody).
  exists M. split; [exact HM|]. split; [exact Herr|].
  apply Hbody; lia.
Defined.

(** The same model on the canvas whose top-left pixel is fixed. *)
Lemma sample_seeded_canvas_witness :
  exists M,
    GatedPixelCNN.__init__ 1 1 0 4 2 zero_model_params = Ok M /\
    GatedPixelCNN.sample (fun _ _ _ => true) M (Some seeded_canvas) 0 =
    Err UnboundLocalError /\
    exists canvas st',
      GatedPixelCNN.sample_body (fun _ _ _ => true) M
        (GatedPixelCNN.mkState
           (GatedPixelCNN.bind_name "conditioned_on"
              (GatedPixelCNN.VTensor seeded_canvas)
              GatedPixelCNN.empty_frame) 0) =
      Ok (canvas, st') /\
      tshape canvas = [1; 1; 28; 28] /\
      tdata canvas [0; 0; 0; 0] = tdata seeded_canvas [0; 0; 0; 0] /\
      forall i j, i < 28 -> j < 28 -> (i, j) <> (0, 0) ->
        tdata seeded_canvas [0; 0; i; j] = (-1)%R /\
        (tdata canvas [0; 0; i; j] = 0%R \/
         tdata canvas [0; 0; i; j] = 1%R).
Proof.
  destruct (@sample_seeded_canvas (fun _ _ _ => true) 0 4 2 zero_model_params
              0 GatedPixelCNN.empty_frame) as (M & HM & Herr & Hbody).
  exists M. split; [exact HM|]. split; [exact Herr|].
  apply Hbody; lia.
Defined.

End Instances.

(** * Further properties of a layer: its receptive field *)

Section LayerRegions.
Context {A : Type} {SA : Scalar A}.

Variables (cin cout pad : nat) (causal : bool).
Variable p : GatedPixelCNNLayer.Params A.
Variables (N H W : nat).
Hypothesis HH : 1 <= H.
Hypothesis HW : 1 <= W.

#[local] Abbreviation Lr :=
  (GatedPixelCNNLayer.layer_of cin cout pad causal p).

Lemma agree_weaken (C : nat) (R R' : nat -> nat -> Prop) (x y : Tensor A) :
  (forall i j, R' i j -> R i j) ->
  agree N C H W R x y -> agree N C H W R' x y.
Proof.
  intros Hsub Hag n c i j Hn Hc Hi Hj HR. apply Hag; auto.
Qed.

(** The link term at a position reads the vertical input in the rows
    strictly above that position only. *)
Lemma layer_link_regions (v v' h h' : Tensor A)
    (tr tr' : GatedPixelCNNLayer.trace A) (Rin Rout : nat -> nat -> Prop) :
  tshape v = [N; cin; H; W] -> tshape v' = [N; cin; H; W] ->
  GatedPixelCNNLayer.runs Lr v h H W tr ->
  GatedPixelCNNLayer.runs Lr v' h' H W tr' ->
  trace_shapes N cout H W pad causal tr ->
  trace_shapes N cout H W pad causal tr' ->
  (forall i j i' j', Rout i j -> i' < i -> j' < W -> Rin i' j') ->
  agree N cin H W Rin v v' ->
  agree N (2 * cout) H W Rout (GatedPixelCNNLayer.t_vconv tr)
                              (GatedPixelCNNLayer.t_vconv tr') /\
  agree N (2 * cout) H W Rout (GatedPixelCNNLayer.t_link tr)
                              (GatedPixelCNNLayer.t_link tr').
Proof.
  intros Hv Hv' [R1 R2 R3 R4 R5 R6 R7 R8 R9 R10 R11 R12 R13 R14]
    [R1' R2' R3' R4' R5' R6' R7' R8' R9' R10' R11' R12' R13' R14']
    [S1 S2 S3 S4 S5 S6 S7 S8 S9 S10 S11 S12 S13 S14]
    [S1' S2' S3' S4' S5' S6' S7' S8' S9' S10' S11' S12' S13' S14']
    Habove Hag.
  set (Rmid := fun (i _ : nat) => forall j', j' < W -> Rin i j').
  assert (A1 : agree N cout H W Rmid (GatedPixelCNNLayer.t_v1xN tr)
                 (GatedPixelCNNLayer.t_v1xN tr')).
  { apply (@conv2d_agree A SA (GatedPixelCNNLayer._vstack_1xN Lr) v v' _ _
             N cin H W 0 pad H W Rin Rmid); trivial; simpl; try lia.
    intros i j a b HR Ha Hb Hrow Hcol.
    replace (i + a - 0) with i by lia. apply HR. lia. }
  assert (A2 : agree N (2 * cout) H W Rout (GatedPixelCNNLayer.t_vNx1 tr)
                 (GatedPixelCNNLayer.t_vNx1 tr')).
  { apply (@conv2d_agree A SA (GatedPixelCNNLayer._vstack_Nx1 Lr) _ _ _ _
             N cout H W (pad + 1) 0 H W Rmid Rout S1 S1');
      trivial; simpl; try lia.
    intros i j a b HR Ha Hb Hrow Hcol j' Hj'.
    apply (Habove i j); [exact HR | lia | exact Hj']. }
  assert (A3 : agree N (2 * cout) H W Rout (GatedPixelCNNLayer.t_vconv tr)
                 (GatedPixelCNNLayer.t_vconv tr')).
  { eapply agree_data; [| |exact A2]; eapply slice_to_data; eassumption. }
  split; [exact A3|].
  apply (@conv1x1_agree A SA (GatedPixelCNNLayer._link Lr)
           _ _ _ _ N (2 * cout) H W Rout S3 S3'); trivial.
Qed.

(** The horizontal and skip outputs on a region [Rout] are determined by
    the link term on [Rout] and by the horizontal input in the same row,
    at the columns up to the position, the position itself excluded when
    the layer is causal. *)
Lemma layer_hstack_regions (v v' h h' : Tensor A)
    (tr tr' : GatedPixelCNNLayer.trace A) (Rin Rout : nat -> nat -> Prop) :
  tshape h = [N; cin; H; W] -> tshape h' = [N; cin; H; W] ->
  causal = true \/ cin = cout ->
  GatedPixelCNNLayer.runs Lr v h H W tr ->
  GatedPixelCNNLayer.runs Lr v' h' H W tr' ->
  trace_shapes N cout H W pad causal tr ->
  trace_shapes N cout H W pad causal tr' ->
  (forall i j j', Rout i j -> j' + Nat.b2n causal <= j -> Rin i j') ->
  agree N (2 * cout) H W Rout (GatedPixelCNNLayer.t_link tr)
                              (GatedPixelCNNLayer.t_link tr') ->
  agree N cin H W Rin h h' ->
  agree N cout H W Rout (GatedPixelCNNLayer.t_hstack tr)
                        (GatedPixelCNNLayer.t_hstack tr') /\
  agree N cout H W Rout (GatedPixelCNNLayer.t_skip tr)
                        (GatedPixelCNNLayer.t_skip tr').
Proof.
  intros Hh Hh' Hres [R1 R2 R3 R4 R5 R6 R7 R8 R9 R10 R11 R12 R13 R14]
    [R1' R2' R3' R4' R5' R6' R7' R8' R9' R10' R11' R12' R13' R14']
    [S1 S2 S3 S4 S5 S6 S7 S8 S9 S10 S11 S12 S13 S14]
    [S1' S2' S3' S4' S5' S6' S7' S8' S9' S10' S11' S12' S13' S14']
    Hleft Hlink Hag.
  destruct (double_half cout) as [Hdiv Hmod].
  assert (A8 : agree N (2 * cout) H W Rout (GatedPixelCNNLayer.t_h1xN tr)
                 (GatedPixelCNNLayer.t_h1xN tr')).
  { apply (@conv2d_agree A SA (GatedPixelCNNLayer._hstack_1xN Lr) h h' _ _
             N cin H W 0 (pad + Nat.b2n causal) H W Rin Rout);
      trivial; simpl; try lia.
    intros i j a b HR Ha Hb Hrow Hcol.
    replace (i + a - 0) with i by lia.
    apply (Hleft i j); [exact HR | lia]. }
  assert (A9 : agree N (2 * cout) H W Rout (GatedPixelCNNLayer.t_hcrop tr)
                 (GatedPixelCNNLayer.t_hcrop tr')).
  { eapply agree_data; [| |exact A8]; eapply slice_to_data; eassumption. }
  assert (A10 : agree N (2 * cout) H W Rout (GatedPixelCNNLayer.t_hpre tr)
                  (GatedPixelCNNLayer.t_hpre tr')).
  { eapply (@binop_agree A add);
      [| | | |exact R10|exact R10'|exact Hlink|exact A9]; trivial. }
  assert (A11 : agree N cout H W Rout (GatedPixelCNNLayer.t_gated tr)
                  (GatedPixelCNNLayer.t_gated tr')).
  { rewrite <- Hdiv at 1.
    eapply gated_activation_agree; [| | |exact R11|exact R11'|exact A10];
      trivial. }
  assert (A12 : agree N cout H W Rout (GatedPixelCNNLayer.t_skip tr)
                  (GatedPixelCNNLayer.t_skip tr')).
  { apply (@conv1x1_agree A SA (GatedPixelCNNLayer._hstack_skip Lr)
             _ _ _ _ N cout H W Rout S11 S11'); trivial. }
  assert (A13 : agree N cout H W Rout (GatedPixelCNNLayer.t_res tr)
                  (GatedPixelCNNLayer.t_res tr')).
  { apply (@conv1x1_agree A SA (GatedPixelCNNLayer._hstack_residual Lr)
             _ _ _ _ N cout H W Rout S11 S11'); trivial. }
  split; [|exact A12].
  simpl in R14, R14'. destruct causal; simpl in R14, R14'.
  - injection R14 as <-. injection R14' as <-. exact A13.
  - destruct Hres as [Hc|Hc]; [discriminate|]. subst cin.
    eapply tiadd_agree; [| | | |exact R14|exact R14'|exact A13|]; trivial.
    revert Hag. apply agree_weaken. intros i j HR.
    apply (Hleft i j); [exact HR | simpl; lia].
Qed.

(** The vertical output on a region [Rout] is determined by the vertical
    input on [Rout] itself and in the rows strictly above it; the
    horizontal input plays no part. *)
Lemma layer_vstack_regions (v v' h h' : Tensor A)
    (tr tr' : GatedPixelCNNLayer.trace A) (Rin Rout : nat -> nat -> Prop) :
  tshape v = [N; cin; H; W] -> tshape v' = [N; cin; H; W] ->
  GatedPixelCNNLayer.runs Lr v h H W tr ->
  GatedPixelCNNLayer.runs Lr v' h' H W tr' ->
  trace_shapes N cout H W pad causal tr ->
  trace_shapes N cout H W pad causal tr' ->
  (forall i j, Rout i j -> Rin i j) ->
  (forall i j i' j', Rout i j -> i' < i -> j' < W -> Rin i' j') ->
  agree N cin H W Rin v v' ->
  agree N cout H W Rout (GatedPixelCNNLayer.t_vstack tr)
                        (GatedPixelCNNLayer.t_vstack tr').
Proof.
  intros Hv Hv' Hr Hr' Hs Hs' Hself Habove Hag.
  destruct (@layer_link_regions v v' h h' tr tr' Rin Rout
              Hv Hv' Hr Hr' Hs Hs' Habove Hag) as [A3 _].
  destruct Hr as [R1 R2 R3 R4 R5 R6 R7 R8 R9 R10 R11 R12 R13 R14].
  destruct Hr' as
    [R1' R2' R3' R4' R5' R6' R7' R8' R9' R10' R11' R12' R13' R14'].
  destruct Hs as [S1 S2 S3 S4 S5 S6 S7 S8 S9 S10 S11 S12 S13 S14].
  destruct Hs' as
    [S1' S2' S3' S4' S5' S6' S7' S8' S9' S10' S11' S12' S13' S14'].
  destruct (double_half cout) as [Hdiv Hmod].
  assert (A5 : agree N (2 * cout) H W Rout (GatedPixelCNNLayer.t_shortcut tr)
                 (GatedPixelCNNLayer.t_shortcut tr')).
  { apply (@conv1x1_agree A SA (GatedPixelCNNLayer._vstack_1x1 Lr)
             v v' _ _ N cin H W Rout Hv Hv'); trivial.
    revert Hag. apply agree_weaken. exact Hself. }
  assert (A6 : agree N (2 * cout) H W Rout (GatedPixelCNNLayer.t_vpre tr)
                 (GatedPixelCNNLayer.t_vpre tr')).
  { eapply tiadd_agree; [| | | |exact R6|exact R6'|exact A3|exact A5];
      trivial. }
  rewrite <- Hdiv at 1.
  eapply gated_activation_agree; [| | |exact R7|exact R7'|exact A6]; trivial.
Qed.

End LayerRegions.

Section ReceptiveField.
Context {A : Type} {SA : Scalar A}.



End ReceptiveField.

(** * Further properties of the model: the autoregressive ordering *)

Section ModelRegions.
Context {A : Type} {SA : Scalar A}.

Lemma tmap_agree (f : A -> A) (x x' : Tensor A) (N C H W : nat)
    (R : nat -> nat -> Prop) :
  agree N C H W R x x' ->
  agree N C H W R (Torch.tmap f x) (Torch.tmap f x').
Proof.
  intros Hag n c i j Hn Hc Hi Hj HR. simpl. f_equal. now apply Hag.
Qed.

(** The head acts position by position. *)
Lemma head_agree (c1 c2 : Torch.Conv2d A) (x x' y y' : Tensor A)
    (N g H W : nat) (R : nat -> nat -> Prop) :
  Torch.in_channels c1 = g ->
  Torch.in_channels c2 = Torch.out_channels c1 ->
  Torch.kernel_h c1 = 1 -> Torch.kernel_w c1 = 1 ->
  Torch.kernel_h c2 = 1 -> Torch.kernel_w c2 = 1 ->
  Torch.padding_h c1 = Z.of_nat 0 -> Torch.padding_w c1 = Z.of_nat 0 ->
  Torch.padding_h c2 = Z.of_nat 0 -> Torch.padding_w c2 = Z.of_nat 0 ->
  tshape x = [N; g; H; W] -> tshape x' = [N; g; H; W] ->
  1 <= H -> 1 <= W ->
  1 <= g -> 1 <= Torch.out_channels c1 -> 1 <= Torch.out_channels c2 ->
  Torch.Sequential
    [Torch.ReLU; Torch.Conv c1; Torch.ReLU; Torch.Conv c2; Torch.Sigmoid] x =
  Ok y ->
  Torch.Sequential
    [Torch.ReLU; Torch.Conv c1; Torch.ReLU; Torch.Conv c2; Torch.Sigmoid] x' =
  Ok y' ->
  agree N g H W R x x' ->
  agree N (Torch.out_channels c2) H W R y y'.
Proof.
  intros Hin1 Hin2 Hkh1 Hkw1 Hkh2 Hkw2 Hph1 Hpw1 Hph2 Hpw2 Hx Hx' HH HW
    Hg Hout1 Hout2 Ey Ey' Hag.
  cbn [Torch.Sequential Torch.apply_layer bind] in Ey, Ey'.
  assert (Hx1 : tshape (Torch.tmap relu x) = [N; g; H; W]) by exact Hx.
  assert (Hx1' : tshape (Torch.tmap relu x') = [N; g; H; W]) by exact Hx'.
  destruct (@conv2d_spec A SA c1 (Torch.tmap relu x) N g H W 0 0 H W
              Hx1 Hph1 Hpw1 Hin1) as (y1 & E1 & S1 & _); try lia.
  destruct (@conv2d_spec A SA c1 (Torch.tmap relu x') N g H W 0 0 H W
              Hx1' Hph1 Hpw1 Hin1) as (y1' & E1' & S1' & _); try lia.
  rewrite E1 in Ey. rewrite E1' in Ey'. cbn [bind] in Ey, Ey'.
  assert (A1 : agree N (Torch.out_channels c1) H W R y1 y1').
  { apply (@conv1x1_agree A SA c1 _ _ _ _ N g H W R Hx1 Hx1'); trivial.
    now apply tmap_agree. }
  assert (Hx2 : tshape (Torch.tmap relu y1) =
                [N; Torch.out_channels c1; H; W]) by exact S1.
  assert (Hx2' : tshape (Torch.tmap relu y1') =
                 [N; Torch.out_channels c1; H; W]) by exact S1'.
  destruct (@conv2d_spec A SA c2 (Torch.tmap relu y1) N
              (Torch.out_channels c1) H W 0 0 H W
              Hx2 Hph2 Hpw2 Hin2) as (y2 & E2 & S2 & _); try lia.
  destruct (@conv2d_spec A SA c2 (Torch.tmap relu y1') N
              (Torch.out_channels c1) H W 0 0 H W
              Hx2' Hph2 Hpw2 Hin2) as (y2' & E2' & S2' & _); try lia.
  rewrite E2 in Ey. rewrite E2' in Ey'. cbn [bind] in Ey, Ey'.
  injection Ey as <-. injection Ey' as <-.
  apply tmap_agree.
  apply (@conv1x1_agree A SA c2 _ _ _ _ N (Torch.out_channels c1) H W R
           Hx2 Hx2'); trivial.
  now apply tmap_agree.
Qed.

(** The loop over the gated layers: when the two vertical stacks agree
    on [Rv] and the horizontal stacks and the skip sums agree on [Rh],
    the skip sums still agree on [Rh] after the loop.  [Rv] is a set of
    full rows closed upwards, [Rh] is closed to the left within a row,
    and every row strictly above a position of [Rh] is in [Rv]. *)
Lemma gated_loop_agree (g : nat) (q : nat -> GatedPixelCNNLayer.Params A)
    (N H W : nat) (Rv Rh : nat -> nat -> Prop) (range : list nat) :
  1 <= H -> 1 <= W -> 1 <= g ->
  (forall i j i' j', Rv i j -> i' <= i -> j' < W -> Rv i' j') ->
  (forall i j j', Rh i j -> j' <= j -> Rh i j') ->
  (forall i j i' j', Rh i j -> i' < i -> j' < W -> Rv i' j') ->
  forall vs hs sc vs' hs' sc' : Tensor A,
    tshape vs = [N; g; H; W] -> tshape hs = [N; g; H; W] ->
    tshape sc = [N; g; H; W] ->
    tshape vs' = [N; g; H; W] -> tshape hs' = [N; g; H; W] ->
    tshape sc' = [N; g; H; W] ->
    agree N g H W Rv vs vs' -> agree N g H W Rh hs hs' ->
    agree N g H W Rh sc sc' ->
    forall o o',
      GatedPixelCNN.gated_loop
        (map (fun i => GatedPixelCNNLayer.layer_of g g 1 false (q i)) range)
        (vs, hs, sc) = Ok o ->
      GatedPixelCNN.gated_loop
        (map (fun i => GatedPixelCNNLayer.layer_of g g 1 false (q i)) range)
        (vs', hs', sc') = Ok o' ->
      agree N g H W Rh (snd o) (snd o').
Proof.
  intros HH HW Hg HRv HRh HRvh.
  induction range as [|k range IH];
    intros vs hs sc vs' hs' sc' Svs Shs Ssc Svs' Shs' Ssc' Av Ah As o o' Eo Eo'.
  - simpl in Eo, Eo'. injection Eo as <-. injection Eo' as <-. exact As.
  - assert (Hres : false = true \/ g = g) by now right.
    pose proof (residual_cases Hres) as Hres3.
    destruct (@trace_exists A SA g g 1 false (q k) vs hs N H W
                Svs Shs HH HW Hg Hg Hres3) as (tr & Hr & Hs).
    destruct (@trace_exists A SA g g 1 false (q k) vs' hs' N H W
                Svs' Shs' HH HW Hg Hg Hres3) as (tr' & Hr' & Hs').
    pose proof (@runs_forward A SA _ vs hs N g H W tr Svs Hr) as Ef.
    pose proof (@runs_forward A SA _ vs' hs' N g H W tr' Svs' Hr') as Ef'.
    cbn [map GatedPixelCNN.gated_loop] in Eo, Eo'.
    rewrite Ef in Eo. rewrite Ef' in Eo'. cbn [bind] in Eo, Eo'.
    pose proof Hs as [_ _ _ _ _ _ S7 _ _ _ _ S12 _ S14].
    pose proof Hs' as [_ _ _ _ _ _ S7' _ _ _ _ S12' _ S14'].
    destruct (tiadd4 sc (GatedPixelCNNLayer.t_skip tr) Ssc S12)
      as (sc1 & E1 & Ssc1 & _).
    destruct (tiadd4 sc' (GatedPixelCNNLayer.t_skip tr') Ssc' S12')
      as (sc1' & E1' & Ssc1' & _).
    rewrite E1 in Eo. rewrite E1' in Eo'. cbn [bind] in Eo, Eo'.
    assert (Av1 : agree N g H W Rv (GatedPixelCNNLayer.t_vstack tr)
                    (GatedPixelCNNLayer.t_vstack tr')).
    { apply (@layer_vstack_regions A SA g g 1 false (q k) N H W HH HW
               vs vs' hs hs' tr tr' Rv Rv Svs Svs' Hr Hr' Hs Hs'); trivial.
      intros i j i' j' HR Hi' Hj'. apply (HRv i j); trivial. lia. }
    destruct (@layer_link_regions A SA g g 1 false (q k) N H W HH HW
                vs vs' hs hs' tr tr' Rv Rh Svs Svs' Hr Hr' Hs Hs' HRvh Av)
      as [_ Hlink].
    destruct (@layer_hstack_regions A SA g g 1 false (q k) N H W HH HW
                vs vs' hs hs' tr tr' Rh Rh Shs Shs' Hres Hr Hr' Hs Hs')
      as [Ah1 Ask1]; trivial.
    { intros i j j' HR Hj'. apply (HRh i j); trivial. simpl in Hj'. lia. }
    assert (As1 : agree N g H W Rh sc1 sc1').
    { eapply tiadd_agree; [| | | |exact E1|exact E1'|exact As|exact Ask1];
        trivial. }
    apply (IH _ _ _ _ _ _ S7 S14 Ssc1 S7' S14' Ssc1' Av1 Ah1 As1 o o' Eo Eo').
Qed.

End ModelRegions.

Section Autoregressive.
Context {A : Type} {SA : Scalar A}.

(** The head output of the model on the pixels up to (r, c) in raster
    order is determined by the input on the pixels strictly before
    (r, c). *)
Lemma head_output_agree (C out_dim n_gated g head_channels : nat)
    (p : GatedPixelCNN.Params A) (M : GatedPixelCNN.t A)
    (x x' y y' : Tensor A) (N H W r c : nat) :
  GatedPixelCNN.__init__ C out_dim n_gated g head_channels p = Ok M ->
  tshape x = [N; C; H; W] -> tshape x' = [N; C; H; W] ->
  1 <= H -> 1 <= W ->
  1 <= C -> 1 <= out_dim -> 1 <= g -> 1 <= head_channels ->
  agree N C H W (fun i j => i < r \/ (i = r /\ j < c)) x x' ->
  GatedPixelCNN.head_output M x = Ok y ->
  GatedPixelCNN.head_output M x' = Ok y' ->
  agree N (out_dim * C) H W (fun i j => i < r \/ (i = r /\ j <= c)) y y'.
Proof.
  intros HM Hx Hx' HH HW HC Hod Hg Hhc Hag Ey Ey'.
  rewrite model_init in HM. injection HM as <-.
  set (Rv := fun (i _ : nat) => i < r).
  set (Rh := fun i j : nat => i < r \/ (i = r /\ j <= c)).
  assert (Hres : true = true \/ C = g) by now left.
  pose proof (residual_cases Hres) as Hres3.
  assert (Hodc : 1 <= out_dim * C) by nia.
  destruct (@trace_exists A SA C g 3 true (GatedPixelCNN.p_input p) x x
              N H W Hx Hx HH HW HC Hg Hres3) as (tr & Hr & Hs).
  destruct (@trace_exists A SA C g 3 true (GatedPixelCNN.p_input p) x' x'
              N H W Hx' Hx' HH HW HC Hg Hres3) as (tr' & Hr' & Hs').
  pose proof (@runs_forward A SA _ x x N C H W tr Hx Hr) as Ef.
  pose proof (@runs_forward A SA _ x' x' N C H W tr' Hx' Hr') as Ef'.
  unfold GatedPixelCNN.head_output in Ey, Ey'.
  rewrite Hx in Ey. rewrite Hx' in Ey'.
  cbn [GatedPixelCNN._input GatedPixelCNN._gated_layers GatedPixelCNN._head]
    in Ey, Ey'.
  rewrite Ef in Ey. rewrite Ef' in Ey'. cbn [bind] in Ey, Ey'.
  pose proof Hs as [_ _ _ _ _ _ S7 _ _ _ _ S12 _ S14].
  pose proof Hs' as [_ _ _ _ _ _ S7' _ _ _ _ S12' _ S14'].
  (* the causal input layer *)
  assert (Av : agree N g H W Rv (GatedPixelCNNLayer.t_vstack tr)
                 (GatedPixelCNNLayer.t_vstack tr')).
  { apply (@layer_vstack_regions A SA C g 3 true (GatedPixelCNN.p_input p)
             N H W HH HW x x' x x' tr tr'
             (fun i j => i < r \/ (i = r /\ j < c)) Rv
             Hx Hx' Hr Hr' Hs Hs'); trivial.
    - intros i j Hi. now left.
    - intros i j i' j' Hi Hi' _. left. unfold Rv in Hi. lia. }
  destruct (@layer_link_regions A SA C g 3 true (GatedPixelCNN.p_input p)
              N H W HH HW x x' x x' tr tr'
              (fun i j => i < r \/ (i = r /\ j < c)) Rh
              Hx Hx' Hr Hr' Hs Hs') as [_ Hlink]; trivial.
  { intros i j i' j' [Hi|[-> _]] Hi' _; left; lia. }
  destruct (@layer_hstack_regions A SA C g 3 true (GatedPixelCNN.p_input p)
              N H W HH HW x x' x x' tr tr'
              (fun i j => i < r \/ (i = r /\ j < c)) Rh
              Hx Hx' Hres Hr Hr' Hs Hs') as [Ah Ask]; trivial.
  { intros i j j' [Hi|[-> Hj]] Hj'; [now left|]. right. simpl in Hj'. lia. }
  (* the gated layers *)
  destruct (@gated_loop_shapes A SA g (GatedPixelCNN.p_gated p) N H W
              (seq 0 n_gated) HH HW Hg _ _ _ S7 S14 S12)
    as (vs & hs & sc & E1 & _ & _ & Ssc).
  destruct (@gated_loop_shapes A SA g (GatedPixelCNN.p_gated p) N H W
              (seq 0 n_gated) HH HW Hg _ _ _ S7' S14' S12')
    as (vs' & hs' & sc' & E1' & _ & _ & Ssc').
  assert (Asc : agree N g H W Rh sc sc').
  { apply (@gated_loop_agree A SA g (GatedPixelCNN.p_gated p) N H W Rv Rh
             (seq 0 n_gated) HH HW Hg) with (10 := Av) (11 := Ah) (12 := Ask)
             (13 := E1) (14 := E1'); trivial.
    - intros i j i' j' Hi Hi' _. unfold Rv in *. lia.
    - intros i j j' [Hi|[-> Hj]] Hj'; [now left | right; lia].
    - intros i j i' j' [Hi|[-> _]] Hi' _; unfold Rv; lia. }
  rewrite E1 in Ey. rewrite E1' in Ey'. cbn [bind] in Ey, Ey'.
  match type of Ey with
  | Torch.Sequential (_ :: Torch.Conv ?c1 :: _ :: Torch.Conv ?c2 :: _) _ = _ =>
      apply (@head_agree A SA c1 c2 sc sc' y y' N g H W Rh
               eq_refl eq_refl eq_refl eq_refl eq_refl eq_refl
               eq_refl eq_refl eq_refl eq_refl Ssc Ssc' HH HW
               Hg Hhc Hodc Ey Ey' Asc)
  end.
Qed.

(** X3.  The model is autoregressive over whole pixels: for a model
    whose channel counts are all positive, the output of [forward] at
    pixel (r, c), for every output component and channel, is unchanged
    when the input is changed only at (r, c) and at the pixels after it
    in raster order. *)
Theorem forward_is_autoregressive (C out_dim n_gated gated_channels
    head_channels : nat) (p : GatedPixelCNN.Params A)
    (M : GatedPixelCNN.t A) (x x' : Tensor A) (N H W r c : nat) :
  GatedPixelCNN.__init__ C out_dim n_gated gated_channels head_channels p =
  Ok M ->
  tshape x = [N; C; H; W] -> tshape x' = [N; C; H; W] ->
  1 <= C -> 1 <= out_dim -> 1 <= gated_channels -> 1 <= head_channels ->
  r < H -> c < W ->
  agree N C H W (fun i j => i < r \/ (i = r /\ j < c)) x x' ->
  exists out out',
    GatedPixelCNN.forward M x = Ok out /\
    GatedPixelCNN.forward M x' = Ok out' /\
    forall n d ch, n < N -> d < out_dim -> ch < C ->
      tdata out [n; d; ch; r; c] = tdata out' [n; d; ch; r; c].
Proof.
  intros HM Hx Hx' HC Hod Hgc Hhc Hr Hc Hag.
  assert (HH : 1 <= H) by lia. assert (HW : 1 <= W) by lia.
  destruct (@model_forward_spec A SA C out_dim n_gated gated_channels
              head_channels p M x N H W HM Hx HH HW HC Hod Hgc Hhc)
    as (z & y & out & _ & _ & Ey & Sy & _ & Eout & _ & Dout).
  destruct (@model_forward_spec A SA C out_dim n_gated gated_channels
              head_channels p M x' N H W HM Hx' HH HW HC Hod Hgc Hhc)
    as (z' & y' & out' & _ & _ & Ey' & Sy' & _ & Eout' & _ & Dout').
  exists out, out'. split; [exact Eout|]. split; [exact Eout'|].
  intros n d ch Hn Hd Hch.
  rewrite Dout, Dout' by assumption.
  apply (@head_output_agree C out_dim n_gated gated_channels head_channels
           p M x x' y y' N H W r c HM Hx Hx' HH HW HC Hod Hgc Hhc Hag Ey Ey');
    trivial; [nia | right; split; [reflexivity | lia]].
Qed.

End Autoregressive.

(** * Further properties: which calls return and what the others raise *)

Section Outcomes.
Context {A : Type} {SA : Scalar A}.

(** A convolution rejects a wrong channel count and an input that, once
    padded, is smaller than the kernel. *)
Lemma conv2d_rejects (cv : Torch.Conv2d A) (x : Tensor A)
    (N C H W ph pw : nat) :
  tshape x = [N; C; H; W] ->
  Torch.padding_h cv = Z.of_nat ph -> Torch.padding_w cv = Z.of_nat pw ->
  C <> Torch.in_channels cv \/ H + 2 * ph < Torch.kernel_h cv \/
  W + 2 * pw < Torch.kernel_w cv ->
  Torch.conv2d cv x = Err RuntimeError.
Proof.
  intros Hx Hph Hpw Hbad.
  destruct (Torch.conv2d cv x) as [y|e] eqn:E;
    [|now rewrite (conv2d_err _ _ E)].
  destruct (@conv2d_inv A SA cv x y N C H W ph pw Hx Hph Hpw E)
    as (_ & HC & Hkh & Hkw & _).
  lia.
Qed.

(** [a += b] raises nothing but [RuntimeError]. *)
Lemma tiadd_err (a b : Tensor A) (e : PyError) :
  Torch.tiadd a b = Err e -> e = RuntimeError.
Proof.
  unfold Torch.tiadd.
  destruct (Torch.broadcast_shapes (tshape a) (tshape b)) as [s|];
    [destruct (shape_eqb s (tshape a))|]; try discriminate;
    now intros [= <-].
Qed.

(** When [a += b] succeeds on two tensors that differ in their channel
    counts only, [b] has the channels of [a] or a single one, and the
    result has the shape of [a]. *)
Lemma tiadd_ok_channels (a b y : Tensor A) (N Co Ci H W : nat) :
  tshape a = [N; Co; H; W] -> tshape b = [N; Ci; H; W] ->
  Torch.tiadd a b = Ok y ->
  (Ci = Co \/ Ci = 1) /\ tshape y = [N; Co; H; W].
Proof.
  intros Ha Hb Ey. split.
  - destruct (Nat.eq_dec Ci Co) as [|Hne]; [now left|].
    destruct (Nat.eq_dec Ci 1) as [|Hne1]; [now right|].
    rewrite (@tiadd_channel_mismatch A SA a b N Co Ci H W Ha Hb Hne Hne1)
      in Ey.
    discriminate.
  - revert Ey. unfold Torch.tiadd.
    destruct (Torch.broadcast_shapes (tshape a) (tshape b)) as [s|];
      [|discriminate].
    destruct (shape_eqb s (tshape a)); [|discriminate].
    intros [= <-]. exact Ha.
Qed.

(** The two outcomes of a layer on a pair of 4-d inputs of the same
    shape: it returns three tensors, and then the inputs have
    [in_channels] channels and at least one row and one column, the layer
    has an output channel, and the residual addition is possible; or it
    raises [RuntimeError]. *)
Lemma layer_forward_cases (cin cout pad : nat) (causal : bool)
    (p : GatedPixelCNNLayer.Params A) (v h : Tensor A) (N C H W : nat) :
  tshape v = [N; C; H; W] -> tshape h = [N; C; H; W] ->
  (exists vs hs sk,
     GatedPixelCNNLayer.forward
       (GatedPixelCNNLayer.layer_of cin cout pad causal p) v h =
     Ok (vs, hs, sk) /\
     tshape vs = [N; cout; H; W] /\ tshape hs = [N; cout; H; W] /\
     tshape sk = [N; cout; H; W] /\
     C = cin /\ 1 <= H /\ 1 <= W /\ 1 <= cout /\ (N = 0 \/ 1 <= cin) /\
     (causal = true \/ cin = cout \/ cin = 1)) \/
  GatedPixelCNNLayer.forward
    (GatedPixelCNNLayer.layer_of cin cout pad causal p) v h =
  Err RuntimeError.
Proof.
  intros Hv Hh.
  destruct (double_half cout) as [Hdiv Hmod].
  set (L := GatedPixelCNNLayer.layer_of cin cout pad causal p).
  unfold GatedPixelCNNLayer.forward. rewrite Hv.
  (* vstack = self._vstack_Nx1(self._vstack_1xN(vstack_input))[:, :, :h, :] *)
  destruct (Torch.conv2d (GatedPixelCNNLayer._vstack_1xN L) v)
    as [v1|e] eqn:E1; cbn [bind];
    [|rewrite (conv2d_err _ _ E1); now right].
  destruct (@conv2d_inv A SA (GatedPixelCNNLayer._vstack_1xN L) v v1 N C H W 0 pad Hv eq_refl eq_refl E1)
    as (O1 & C1 & Kh1 & Kw1 & Ne1 & S1 & _).
  cbn in O1, C1, Kh1, Kw1, S1.
  assert (HH : 1 <= H) by lia. assert (HW : 1 <= W) by lia.
  replace (H + 2 * 0 - 1 + 1) with H in S1 by lia.
  replace (W + 2 * pad - (2 * pad + 1) + 1) with W in S1 by lia.
  subst C.
  destruct (Torch.conv2d (GatedPixelCNNLayer._vstack_Nx1 L) v1)
    as [v2|e] eqn:E2; cbn [bind];
    [|rewrite (conv2d_err _ _ E2); now right].
  destruct (@conv2d_inv A SA (GatedPixelCNNLayer._vstack_Nx1 L) v1 v2 N cout H W (pad + 1) 0 S1
              eq_refl eq_refl E2) as (_ & _ & _ & _ & _ & S2 & _).
  cbn in S2.
  replace (H + 2 * (pad + 1) - (pad + 1) + 1) with (H + pad + 2) in S2 by lia.
  replace (W + 2 * 0 - 1 + 1) with W in S2 by lia.
  rewrite (slice_rows H v2 S2). cbn [bind].
  replace (Nat.min H (H + pad + 2)) with H by lia.
  set (vc := mkTensor [N; 2 * cout; H; W] (tdata v2)).
  (* link = self._link(vstack) *)
  destruct (Torch.conv2d (GatedPixelCNNLayer._link L) vc)
    as [lk|e] eqn:E4; cbn [bind];
    [|rewrite (conv2d_err _ _ E4); now right].
  destruct (@conv2d_inv A SA (GatedPixelCNNLayer._link L) vc lk N (2 * cout) H W 0 0 eq_refl
              eq_refl eq_refl E4) as (_ & _ & _ & _ & _ & S4 & _).
  cbn in S4.
  replace (H + 2 * 0 - 1 + 1) with H in S4 by lia.
  replace (W + 2 * 0 - 1 + 1) with W in S4 by lia.
  (* vstack += self._vstack_1x1(vstack_input) *)
  destruct (Torch.conv2d (GatedPixelCNNLayer._vstack_1x1 L) v)
    as [sc|e] eqn:E5; cbn [bind];
    [|rewrite (conv2d_err _ _ E5); now right].
  destruct (@conv2d_inv A SA (GatedPixelCNNLayer._vstack_1x1 L) v sc N cin H W 0 0 Hv
              eq_refl eq_refl E5) as (_ & _ & _ & _ & _ & S5 & _).
  cbn in S5.
  replace (H + 2 * 0 - 1 + 1) with H in S5 by lia.
  replace (W + 2 * 0 - 1 + 1) with W in S5 by lia.
  destruct (@tiadd4 A SA vc sc N (2 * cout) H W eq_refl S5)
    as (vp & E6 & S6 & _).
  rewrite E6. cbn [bind].
  (* vstack = self._activation(vstack) *)
  destruct (gated_activation_spec vp S6 Hmod) as (vs & E7 & S7 & _).
  rewrite Hdiv in S7. rewrite E7. cbn [bind].
  (* hstack = link + self._hstack_1xN(hstack_input)[:, :, :, :w] *)
  destruct (Torch.conv2d (GatedPixelCNNLayer._hstack_1xN L) h)
    as [h1|e] eqn:E8; cbn [bind];
    [|rewrite (conv2d_err _ _ E8); now right].
  destruct (@conv2d_inv A SA (GatedPixelCNNLayer._hstack_1xN L) h h1 N cin H W 0 (pad + Nat.b2n causal) Hh
              eq_refl eq_refl E8) as (_ & _ & _ & _ & _ & S8 & _).
  cbn in S8.
  replace (H + 2 * 0 - 1 + 1) with H in S8 by lia.
  replace (W + 2 * (pad + Nat.b2n causal) - (pad + 1) + 1)
    with (W + pad + 2 * Nat.b2n causal) in S8 by lia.
  rewrite (slice_columns W h1 S8). cbn [bind].
  replace (Nat.min W (W + pad + 2 * Nat.b2n causal)) with W by lia.
  set (hc := mkTensor [N; 2 * cout; H; W] (tdata h1)).
  destruct (@binop4 A add lk hc N (2 * cout) H W S4 eq_refl)
    as (hp & E10 & S10 & _).
  unfold Torch.tadd. rewrite E10. cbn [bind].
  (* hstack = self._activation(hstack) *)
  destruct (gated_activation_spec hp S10 Hmod) as (g & E11 & S11 & _).
  rewrite Hdiv in S11. rewrite E11. cbn [bind].
  (* skip = self._hstack_skip(hstack) *)
  destruct (Torch.conv2d (GatedPixelCNNLayer._hstack_skip L) g)
    as [sk|e] eqn:E12; cbn [bind];
    [|rewrite (conv2d_err _ _ E12); now right].
  destruct (@conv2d_inv A SA (GatedPixelCNNLayer._hstack_skip L) g sk N cout H W 0 0 S11
              eq_refl eq_refl E12) as (_ & _ & _ & _ & _ & S12 & _).
  cbn in S12.
  replace (H + 2 * 0 - 1 + 1) with H in S12 by lia.
  replace (W + 2 * 0 - 1 + 1) with W in S12 by lia.
  (* hstack = self._hstack_residual(hstack) *)
  destruct (Torch.conv2d (GatedPixelCNNLayer._hstack_residual L) g)
    as [rs|e] eqn:E13; cbn [bind];
    [|rewrite (conv2d_err _ _ E13); now right].
  destruct (@conv2d_inv A SA (GatedPixelCNNLayer._hstack_residual L) g rs N cout H W 0 0 S11
              eq_refl eq_refl E13) as (_ & _ & _ & _ & _ & S13 & _).
  cbn in S13.
  replace (H + 2 * 0 - 1 + 1) with H in S13 by lia.
  replace (W + 2 * 0 - 1 + 1) with W in S13 by lia.
  assert (Hne : N = 0 \/ 1 <= cin) by lia.
  (* if not self._is_causal: hstack += hstack_input *)
  cbn [GatedPixelCNNLayer._is_causal L GatedPixelCNNLayer.layer_of].
  destruct causal; cbn [negb].
  - left. exists vs, rs, sk. cbn [bind].
    repeat (split; [first [assumption | reflexivity | lia]|]). now left.
  - destruct (Torch.tiadd rs h) as [hs|e] eqn:E14; cbn [bind];
      [|rewrite (tiadd_err _ _ E14); now right].
    destruct (tiadd_ok_channels rs h S13 Hh E14) as [Hch S14].
    left. exists vs, hs, sk.
    repeat (split; [first [assumption | reflexivity | lia]|]). now right.
Qed.

(** X7.  On a pair of inputs of shape (N, in_channels, H, W), in a batch
    that is not empty, [GatedPixelCNNLayer.forward] returns exactly when
    the inputs have at least one row and one column, the layer has at
    least one input and one output channel, and the layer is causal, or
    [in_channels = out_channels], or [in_channels = 1], in which case
    the single input channel is broadcast by the residual addition.  The
    three tensors it returns have the shape (N, out_channels, H, W).  In
    every other case it raises [RuntimeError]. *)
Theorem layer_forward_outcome (cin cout : nat) (k : Z) (causal : bool)
    (p : GatedPixelCNNLayer.Params A) (L : GatedPixelCNNLayer.t A)
    (v h : Tensor A) (N H W : nat) :
  GatedPixelCNNLayer.__init__ cin cout k causal p = Ok L ->
  tshape v = [N; cin; H; W] -> tshape h = [N; cin; H; W] -> 1 <= N ->
  ((exists out, GatedPixelCNNLayer.forward L v h = Ok out) <->
   (1 <= H /\ 1 <= W /\ 1 <= cin /\ 1 <= cout /\
    (causal = true \/ cin = cout \/ cin = 1))) /\
  (forall vstack hstack skip,
     GatedPixelCNNLayer.forward L v h = Ok (vstack, hstack, skip) ->
     tshape vstack = [N; cout; H; W] /\
     tshape hstack = [N; cout; H; W] /\
     tshape skip = [N; cout; H; W]) /\
  (~ (1 <= H /\ 1 <= W /\ 1 <= cin /\ 1 <= cout /\
      (causal = true \/ cin = cout \/ cin = 1)) ->
   GatedPixelCNNLayer.forward L v h = Err RuntimeError).
Proof.
  intros HL Hv Hh HN.
  destruct (init_inv _ _ _ _ _ HL) as (pad & _ & ->).
  destruct (@layer_forward_cases cin cout pad causal p v h N cin H W Hv Hh)
    as [(vs & hs & sk & E & Svs & Shs & Ssk & _ & HH & HW & Hcout & Hne & Hres)
       |E]; rewrite E.
  - assert (Hcin : 1 <= cin) by lia.
    split; [split; [intros _; auto | intros _; now eexists]|].
    split; [intros vs' hs' sk' [= <- <- <-]; auto|].
    intros Hbad. exfalso. apply Hbad. auto.
  - split; [split; [intros [out Hout]; discriminate|]|].
    + intros (HH & HW & Hcin & Hcout & Hres).
      destruct (@layer_forward_shapes A SA cin cout pad causal p v h N H W
                  Hv Hh HH HW Hcin Hcout Hres) as (vs & hs & sk & E' & _).
      rewrite E' in E. discriminate.
    + split; [intros vs hs sk Hok; discriminate | reflexivity].
Qed.

(** The loop over the gated layers either keeps the three shapes or
    raises [RuntimeError]. *)
Lemma gated_loop_cases (g : nat) (q : nat -> GatedPixelCNNLayer.Params A)
    (N H W : nat) (range : list nat) :
  forall vs hs sc : Tensor A,
    tshape vs = [N; g; H; W] -> tshape hs = [N; g; H; W] ->
    tshape sc = [N; g; H; W] ->
    (exists vs' hs' sc',
       GatedPixelCNN.gated_loop
         (map (fun i => GatedPixelCNNLayer.layer_of g g 1 false (q i)) range)
         (vs, hs, sc) = Ok (vs', hs', sc') /\
       tshape sc' = [N; g; H; W]) \/
    GatedPixelCNN.gated_loop
      (map (fun i => GatedPixelCNNLayer.layer_of g g 1 false (q i)) range)
      (vs, hs, sc) = Err RuntimeError.
Proof.
  induction range as [|i range IH]; intros vs hs sc Hvs Hhs Hsc.
  - left. exists vs, hs, sc. now split.
  - cbn [map GatedPixelCNN.gated_loop].
    destruct (@layer_forward_cases g g 1 false (q i) vs hs N g H W Hvs Hhs)
      as [(vs1 & hs1 & sk1 & E & Svs1 & Shs1 & Ssk1 & _)|E]; rewrite E;
      cbn [bind]; [|now right].
    destruct (tiadd4 sc sk1 Hsc Ssk1) as (sc1 & E2 & Ssc1 & _).
    rewrite E2. cbn [bind]. now apply IH.
Qed.

(** The head either returns, and then its two convolutions have an
    output channel, or raises [RuntimeError]. *)
Lemma head_cases (c1 c2 : Torch.Conv2d A) (x : Tensor A) (N g H W : nat) :
  Torch.padding_h c1 = Z.of_nat 0 -> Torch.padding_w c1 = Z.of_nat 0 ->
  Torch.padding_h c2 = Z.of_nat 0 -> Torch.padding_w c2 = Z.of_nat 0 ->
  tshape x = [N; g; H; W] ->
  (exists y,
     Torch.Sequential
       [Torch.ReLU; Torch.Conv c1; Torch.ReLU; Torch.Conv c2; Torch.Sigmoid]
       x = Ok y /\
     1 <= Torch.out_channels c1 /\ 1 <= Torch.out_channels c2) \/
  Torch.Sequential
    [Torch.ReLU; Torch.Conv c1; Torch.ReLU; Torch.Conv c2; Torch.Sigmoid] x =
  Err RuntimeError.
Proof.
  intros Hph1 Hpw1 Hph2 Hpw2 Hx.
  cbn [Torch.Sequential Torch.apply_layer bind].
  assert (Hx1 : tshape (Torch.tmap relu x) = [N; g; H; W]) by exact Hx.
  destruct (Torch.conv2d c1 (Torch.tmap relu x)) as [y1|e] eqn:E1;
    cbn [bind]; [|rewrite (conv2d_err _ _ E1); now right].
  destruct (@conv2d_inv A SA c1 _ y1 N g H W 0 0 Hx1 Hph1 Hpw1 E1)
    as (O1 & _ & _ & _ & _ & S1 & _).
  assert (Hx2 : tshape (Torch.tmap relu y1) = tshape y1) by reflexivity.
  rewrite S1 in Hx2.
  destruct (Torch.conv2d c2 (Torch.tmap relu y1)) as [y2|e] eqn:E2;
    cbn [bind]; [|rewrite (conv2d_err _ _ E2); now right].
  destruct (@conv2d_inv A SA c2 _ y2 N _ _ _ 0 0 Hx2 Hph2 Hpw2 E2)
    as (O2 & _).
  left. eexists. split; [reflexivity|]. now split.
Qed.

(** The outcomes of the model on a 4-d input: it returns, and then the
    input has [in_channels] channels and at least one row and one column
    and every channel count of the model is positive; or it raises
    [RuntimeError]. *)
Lemma model_forward_cases (C out_dim n_gated gated_channels
    head_channels : nat) (p : GatedPixelCNN.Params A)
    (M : GatedPixelCNN.t A) (x : Tensor A) (N C' H W : nat) :
  GatedPixelCNN.__init__ C out_dim n_gated gated_channels head_channels p =
  Ok M ->
  tshape x = [N; C'; H; W] ->
  ((exists out, GatedPixelCNN.forward M x = Ok out) /\
   C' = C /\ 1 <= H /\ 1 <= W /\
   1 <= C /\ 1 <= out_dim /\ 1 <= gated_channels /\ 1 <= head_channels) \/
  GatedPixelCNN.forward M x = Err RuntimeError.
Proof.
  intros HM Hx.
  destruct (GatedPixelCNN.forward M x) as [out|e] eqn:Eout.
  2:{ right. f_equal. revert Eout.
      rewrite model_init in HM. injection HM as <-.
      unfold GatedPixelCNN.forward. rewrite Hx.
      cbn [GatedPixelCNN._input GatedPixelCNN._gated_layers
           GatedPixelCNN._head GatedPixelCNN._out_dim].
      destruct (@layer_forward_cases C gated_channels 3 true
                  (GatedPixelCNN.p_input p) x x N C' H W Hx Hx)
        as [(vs0 & hs0 & sk0 & E0 & Svs0 & Shs0 & Ssk0 & _)|E0];
        rewrite E0; cbn [bind]; [|now intros [= <-]].
      destruct (@gated_loop_cases gated_channels (GatedPixelCNN.p_gated p)
                  N H W (seq 0 n_gated) vs0 hs0 sk0 Svs0 Shs0 Ssk0)
        as [(vs & hs & sc & E1 & Ssc)|E1];
        rewrite E1; cbn [bind]; [|now intros [= <-]].
      match goal with
      | |- context [Torch.Conv ?c1 :: Torch.ReLU :: Torch.Conv ?c2 :: _] =>
          destruct (@head_cases c1 c2 sc N gated_channels H W
                      eq_refl eq_refl eq_refl eq_refl Ssc)
            as [(y & E2 & _)|E2]
      end; rewrite E2; cbn [bind]; [|now intros [= <-]].
      unfold Torch.view.
      destruct (_ =? _); [discriminate | now intros [= <-]]. }
  left. split; [now exists out|].
  revert Eout.
  rewrite model_init in HM. injection HM as <-.
  unfold GatedPixelCNN.forward. rewrite Hx.
  cbn [GatedPixelCNN._input GatedPixelCNN._gated_layers
       GatedPixelCNN._head GatedPixelCNN._out_dim].
  destruct (@layer_forward_cases C gated_channels 3 true
              (GatedPixelCNN.p_input p) x x N C' H W Hx Hx)
    as [(vs0 & hs0 & sk0 & E0 & Svs0 & Shs0 & Ssk0 & HC & HH & HW & Hg & _)
       |E0]; rewrite E0; cbn [bind]; [|discriminate].
  destruct (@gated_loop_cases gated_channels (GatedPixelCNN.p_gated p)
              N H W (seq 0 n_gated) vs0 hs0 sk0 Svs0 Shs0 Ssk0)
    as [(vs & hs & sc & E1 & Ssc)|E1];
    rewrite E1; cbn [bind]; [|discriminate].
  match goal with
  | |- context [Torch.Conv ?c1 :: Torch.ReLU :: Torch.Conv ?c2 :: _] =>
      destruct (@head_cases c1 c2 sc N gated_channels H W
                  eq_refl eq_refl eq_refl eq_refl Ssc)
        as [(y & E2 & O1 & O2)|E2]
  end; rewrite E2; cbn [bind]; [|discriminate].
  intros _. cbn in O1, O2. repeat split; trivial; nia.
Qed.

(** X4.  [GatedPixelCNN.forward] returns exactly on the 4-d inputs with
    [in_channels] channels and at least one row and one column, and only
    when every channel count of the model is positive.  An input that is
    not 4-d raises [ValueError] when its shape is unpacked; on a 4-d
    input every other failure is a [RuntimeError]. *)
Theorem model_forward_outcome (C out_dim n_gated gated_channels
    head_channels : nat) (p : GatedPixelCNN.Params A)
    (M : GatedPixelCNN.t A) (x : Tensor A) :
  GatedPixelCNN.__init__ C out_dim n_gated gated_channels head_channels p =
  Ok M ->
  (length (tshape x) <> 4 -> GatedPixelCNN.forward M x = Err ValueError) /\
  ((exists out, GatedPixelCNN.forward M x = Ok out) <->
   (1 <= C /\ 1 <= out_dim /\ 1 <= gated_channels /\ 1 <= head_channels /\
    exists N H W, tshape x = [N; C; H; W] /\ 1 <= H /\ 1 <= W)) /\
  (length (tshape x) = 4 ->
   (forall out, GatedPixelCNN.forward M x <> Ok out) ->
   GatedPixelCNN.forward M x = Err RuntimeError).
Proof.
  intros HM.
  assert (Hvalue : length (tshape x) <> 4 ->
                   GatedPixelCNN.forward M x = Err ValueError).
  { intros Hlen. unfold GatedPixelCNN.forward.
    destruct (tshape x) as [|n [|c [|h [|w [|e s]]]]]; try reflexivity.
    simpl in Hlen. lia. }
  split; [exact Hvalue|]. split; [split|].
  - intros [out Hout].
    destruct (Nat.eq_dec (length (tshape x)) 4) as [Hlen|Hlen].
    2:{ rewrite (Hvalue Hlen) in Hout. discriminate. }
    destruct (tshape x) as [|N [|C' [|H [|W [|e s]]]]] eqn:Hx;
      try discriminate.
    destruct (@model_forward_cases C out_dim n_gated gated_channels
                head_channels p M x N C' H W HM Hx)
      as [(_ & -> & HH & HW & HC & Hod & Hg & Hhc)|E];
      [|rewrite E in Hout; discriminate].
    repeat (split; [assumption|]). exists N, H, W. auto.
  - intros (HC & Hod & Hg & Hhc & N & H & W & Hx & HH & HW).
    destruct (@model_forward_spec A SA C out_dim n_gated gated_channels
                head_channels p M x N H W HM Hx HH HW HC Hod Hg Hhc)
      as (z & y & out & _ & _ & _ & _ & _ & Eout & _).
    now exists out.
  - intros Hlen Hfail.
    destruct (tshape x) as [|N [|C' [|H [|W [|e s]]]]] eqn:Hx;
      try discriminate.
    destruct (@model_forward_cases C out_dim n_gated gated_channels
                head_channels p M x N C' H W HM Hx)
      as [([out Hout] & _)|E]; [|exact E].
    destruct (Hfail out Hout).
Qed.

End Outcomes.

Section ConstructionOutcome.
Context {A : Type} {SA : Scalar A}.

(** X5.  [GatedPixelCNNLayer.__init__] returns a layer exactly for an odd
    positive [kernel_size].  A negative odd [kernel_size] passes the
    assertion, since [%] on Python integers takes the sign of the
    divisor, and is rejected with [RuntimeError] when the first
    convolution allocates a weight with a negative extent. *)
Theorem layer_init_outcome (cin cout : nat) (k : Z) (causal : bool)
    (p : GatedPixelCNNLayer.Params A) :
  ((exists L, GatedPixelCNNLayer.__init__ cin cout k causal p = Ok L) <->
   (Z.Odd k /\ (0 < k)%Z)) /\
  ((Z.Odd k /\ (k < 0)%Z) <->
   GatedPixelCNNLayer.__init__ cin cout k causal p = Err RuntimeError).
Proof.
  assert (Hodd : Z.Odd k -> (k mod 2 = 1)%Z).
  { intros [m ->]. rewrite Z.add_comm, Z.mul_comm.
    now rewrite Z_mod_plus_full. }
  assert (Heven : Z.Even k -> (k mod 2 <> 1)%Z).
  { intros [m ->]. rewrite Z.mul_comm, Z_mod_mult. discriminate. }
  assert (Hpos : Z.Odd k -> (0 < k)%Z ->
                 exists L, GatedPixelCNNLayer.__init__ cin cout k causal p =
                           Ok L).
  { intros [m ->] Hk. eexists.
    replace (2 * m + 1)%Z with (Z.of_nat (2 * Z.to_nat m + 1)) by lia.
    apply init_layer_of. }
  split; split.
  - intros [L HL]. destruct (init_inv _ _ _ _ _ HL) as (pad & -> & _).
    split; [exists (Z.of_nat pad) |]; lia.
  - intros [Ho Hk]. now apply Hpos.
  - intros [Ho Hk]. now apply init_negative; [apply Hodd|].
  - intros Herr. destruct (Z.Even_or_Odd k) as [He|Ho].
    + rewrite (init_even cin cout k causal p (Heven He)) in Herr.
      discriminate.
    + split; [exact Ho|].
      destruct (Z_lt_le_dec k 0) as [Hneg|Hnonneg]; [exact Hneg|].
      assert (Hk : (0 < k)%Z) by (destruct Ho as [m ->]; lia).
      destruct (Hpos Ho Hk) as [L HL]. rewrite HL in Herr. discriminate.
Qed.

End ConstructionOutcome.

(** * Further properties: the range of the gated activation *)

Section RealActivationRange.

Lemma Rtanh_range (x : R) : (-1 < Rtrigo_def.tanh x < 1)%R.
Proof.
  unfold Rtrigo_def.tanh, sinh, cosh.
  pose proof (exp_pos x) as Ha. pose proof (exp_pos (- x)) as Hb.
  set (a := exp x) in *. set (b := exp (- x)) in *.
  assert (Hd : (0 < (a + b) / 2)%R) by lra.
  split.
  - apply Rmult_lt_reg_r with ((a + b) / 2)%R; [exact Hd|].
    unfold Rdiv at 2. rewrite Rmult_assoc, Rinv_l by lra. lra.
  - apply Rmult_lt_reg_r with ((a + b) / 2)%R; [exact Hd|].
    unfold Rdiv at 1. rewrite Rmult_assoc, Rinv_l by lra. lra.
Qed.

End RealActivationRange.

Section ActivationRange.
Context {A : Type} {SA : Scalar A}.

(** The order of the scalars and their test for NaN.  What is used of
    the arithmetic is that [tanh] maps every scalar that is not NaN into
    [-1, 1] and [sigmoid] into [0, 1], and that the product of a scalar
    of [-1, 1] and one of [0, 1] is in [-1, 1].  This holds of
    floating-point numbers, where the bounds are reached: the product
    is exactly 1 on large inputs. *)
Variable scalar_le : A -> A -> Prop.
Variable scalar_nan : A -> Prop.
Hypothesis tanh_range :
  forall z : A, ~ scalar_nan z ->
    scalar_le (neg one) (tanh z) /\ scalar_le (tanh z) one.
Hypothesis sigmoid_range :
  forall z : A, ~ scalar_nan z ->
    scalar_le zero (sigmoid z) /\ scalar_le (sigmoid z) one.
Hypothesis mul_range :
  forall a b : A,
    scalar_le (neg one) a -> scalar_le a one ->
    scalar_le zero b -> scalar_le b one ->
    scalar_le (neg one) (mul a b) /\ scalar_le (mul a b) one.

(** X6.  An entry of the output of the gated activation lies in
    [-1, 1] when the two entries of the input it is computed from are
    not NaN: it is the product of a [tanh], which is in [-1, 1], and a
    [sigmoid], which is in [0, 1]. *)
Theorem gated_activation_range (x : Tensor A) (N C H W : nat) :
  tshape x = [N; C; H; W] -> Nat.Even C ->
  exists y, GatedActivation.forward x = Ok y /\
    forall n c i j, n < N -> c < C / 2 -> i < H -> j < W ->
      ~ scalar_nan (tdata x [n; c; i; j]) ->
      ~ scalar_nan (tdata x [n; C / 2 + c; i; j]) ->
      scalar_le (neg one) (tdata y [n; c; i; j]) /\
      scalar_le (tdata y [n; c; i; j]) one.
Proof.
  intros Hx HC.
  assert (Hmod : C mod 2 = 0).
  { destruct HC as [m ->]. rewrite Nat.mul_comm. apply Nat.Div0.mod_mul. }
  destruct (gated_activation_spec x Hx Hmod) as (y & Ey & _ & Dy).
  exists y. split; [exact Ey|].
  intros n c i j Hn Hc Hi Hj Hf Hg. rewrite Dy by assumption.
  destruct (tanh_range Hf) as [Ht1 Ht2].
  destruct (sigmoid_range Hg) as [Hs1 Hs2].
  now apply mul_range.
Qed.

End ActivationRange.

(** * Further properties: NaN is not filtered out *)

Section NaNPropagation.
Context {A : Type} {SA : Scalar A}.

(** What is used of NaN: sums and products with it, its [sigmoid] and
    its [relu] are NaN.  This holds of floating-point numbers, for the
    product also when the other factor is zero. *)
Variable nan : A.
Hypothesis add_nan_l : forall y : A, add nan y = nan.
Hypothesis add_nan_r : forall y : A, add y nan = nan.
Hypothesis mul_nan_r : forall y : A, mul y nan = nan.
Hypothesis sigmoid_nan : sigmoid nan = nan.
Hypothesis relu_nan : relu nan = nan.

Lemma sum_n_nan (n k : nat) (f : nat -> A) :
  k < n -> f k = nan -> Torch.sum_n n f = nan.
Proof.
  intros Hk Hf. unfold Torch.sum_n.
  assert (Hin : In k (seq 0 n)) by (apply in_seq; lia).
  induction (seq 0 n) as [|m l IH]; [destruct Hin|].
  simpl. destruct Hin as [->|Hin].
  - rewrite Hf. apply add_nan_l.
  - rewrite IH by exact Hin. apply add_nan_r.
Qed.

(** A convolution is NaN wherever its kernel window holds a NaN of the
    input, whatever the weights. *)
Lemma conv2d_at_nan (cv : Torch.Conv2d A) (x : Tensor A)
    (C H W ph pw n co i j ci a b : nat) :
  ci < C -> a < Torch.kernel_h cv -> b < Torch.kernel_w cv ->
  ph <= i + a < ph + H -> pw <= j + b < pw + W ->
  tdata x [n; ci; i + a - ph; j + b - pw] = nan ->
  Torch.conv2d_at cv x C H W ph pw n co i j = nan.
Proof.
  intros Hci Ha Hb Hrow Hcol Hx. unfold Torch.conv2d_at.
  rewrite (@sum_n_nan C ci); [apply add_nan_r | exact Hci |].
  apply (@sum_n_nan (Torch.kernel_h cv) a); [exact Ha|].
  apply (@sum_n_nan (Torch.kernel_w cv) b); [exact Hb|].
  unfold Torch.padded.
  destruct (Nat.leb_spec ph (i + a)); [|lia].
  destruct (Nat.ltb_spec (i + a) (ph + H)); [|lia].
  destruct (Nat.leb_spec pw (j + b)); [|lia].
  destruct (Nat.ltb_spec (j + b) (pw + W)); [|lia].
  cbn [andb]. rewrite Hx. apply mul_nan_r.
Qed.

(** In a causal layer a NaN of the horizontal input at (r, c) makes the
    skip output NaN at (r, c + 1), in every channel. *)
Lemma causal_layer_skip_nan (cin cout pad : nat)
    (p : GatedPixelCNNLayer.Params A) (v h : Tensor A) (N H W : nat)
    (tr : GatedPixelCNNLayer.trace A) (n ch r c : nat) :
  tshape h = [N; cin; H; W] ->
  GatedPixelCNNLayer.runs
    (GatedPixelCNNLayer.layer_of cin cout pad true p) v h H W tr ->
  trace_shapes N cout H W pad true tr ->
  1 <= cout -> n < N -> ch < cin -> r < H -> c + 1 < W ->
  tdata h [n; ch; r; c] = nan ->
  forall co, co < cout ->
    tdata (GatedPixelCNNLayer.t_skip tr) [n; co; r; c + 1] = nan.
Proof.
  intros Hh [R1 R2 R3 R4 R5 R6 R7 R8 R9 R10 R11 R12 R13 R14]
    [S1 S2 S3 S4 S5 S6 S7 S8 S9 S10 S11 S12 S13 S14]
    Hcout Hn Hch Hr Hc Hnan.
  destruct (double_half cout) as [Hdiv Hmod].
  set (L := GatedPixelCNNLayer.layer_of cin cout pad true p) in *.
  assert (D8 : forall co,
            tdata (GatedPixelCNNLayer.t_h1xN tr) [n; co; r; c + 1] = nan).
  { intros co.
    rewrite (@conv2d_data A SA (GatedPixelCNNLayer._hstack_1xN L) h _
               N cin H W 0 (pad + 1) Hh eq_refl eq_refl eq_refl
               ltac:(simpl; lia) ltac:(simpl; lia) R8).
    apply (@conv2d_at_nan _ h cin H W 0 (pad + 1) n co r (c + 1) ch 0 pad);
      simpl; try lia.
    replace (r + 0 - 0) with r by lia.
    replace (c + 1 + pad - (pad + 1)) with c by lia. exact Hnan. }
  assert (D9 : forall co,
            tdata (GatedPixelCNNLayer.t_hcrop tr) [n; co; r; c + 1] = nan).
  { intros co. rewrite (slice_to_data _ _ _ R9). apply D8. }
  assert (D10 : forall co, co < 2 * cout ->
            tdata (GatedPixelCNNLayer.t_hpre tr) [n; co; r; c + 1] = nan).
  { intros co Hco.
    rewrite (@tadd_data A SA _ _ _ N (2 * cout) H W S4 S9 R10 n co r (c + 1))
      by lia.
    rewrite D9. apply add_nan_r. }
  assert (D11 : forall co, co < cout ->
            tdata (GatedPixelCNNLayer.t_gated tr) [n; co; r; c + 1] = nan).
  { intros co Hco.
    destruct (gated_activation_spec (GatedPixelCNNLayer.t_hpre tr) S10 Hmod)
      as (g0 & E0 & _ & D0).
    assert (g0 = GatedPixelCNNLayer.t_gated tr) by congruence. subst g0.
    rewrite Hdiv in D0. rewrite D0 by lia.
    rewrite (D10 (cout + co)) by lia.
    rewrite sigmoid_nan. apply mul_nan_r. }
  intros co Hco.
  rewrite (@conv2d_data A SA (GatedPixelCNNLayer._hstack_skip L) _ _
             N cout H W 0 0 S11 eq_refl eq_refl eq_refl
             ltac:(simpl; lia) ltac:(simpl; lia) R12).
  apply (@conv2d_at_nan _ _ cout H W 0 0 n co r (c + 1) 0 0 0);
    simpl; try lia.
  replace (r + 0 - 0) with r by lia.
  replace (c + 1 + 0 - 0) with (c + 1) by lia.
  apply D11. lia.
Qed.

(** The loop over the gated layers adds to the skip sum, so a NaN of the
    sum stays. *)
Lemma gated_loop_nan (g : nat) (q : nat -> GatedPixelCNNLayer.Params A)
    (N H W : nat) (range : list nat) (n i j : nat) :
  1 <= H -> 1 <= W -> 1 <= g -> n < N -> i < H -> j < W ->
  forall vs hs sc : Tensor A,
    tshape vs = [N; g; H; W] -> tshape hs = [N; g; H; W] ->
    tshape sc = [N; g; H; W] ->
    (forall co, co < g -> tdata sc [n; co; i; j] = nan) ->
    exists vs' hs' sc',
      GatedPixelCNN.gated_loop
        (map (fun k => GatedPixelCNNLayer.layer_of g g 1 false (q k)) range)
        (vs, hs, sc) = Ok (vs', hs', sc') /\
      tshape sc' = [N; g; H; W] /\
      forall co, co < g -> tdata sc' [n; co; i; j] = nan.
Proof.
  intros HH HW Hg Hn Hi Hj.
  induction range as [|k range IH]; intros vs hs sc Hvs Hhs Hsc Hnan.
  - exists vs, hs, sc. simpl. auto.
  - destruct (@layer_forward_shapes A SA g g 1 false (q k) vs hs N H W
                Hvs Hhs HH HW Hg Hg (or_intror (or_introl eq_refl)))
      as (vs1 & hs1 & sk1 & E1 & Svs1 & Shs1 & Ssk1).
    destruct (tiadd4 sc sk1 Hsc Ssk1) as (sc1 & E2 & Ssc1 & D1).
    destruct (IH vs1 hs1 sc1 Svs1 Shs1 Ssc1)
      as (vs' & hs' & sc' & E3 & Hsc' & Hnan').
    { intros co Hco. rewrite D1 by assumption.
      rewrite Hnan by assumption. apply add_nan_l. }
    exists vs', hs', sc'. split; [|auto].
    simpl. rewrite E1. simpl bind. rewrite E2. simpl bind. exact E3.
Qed.

(** The head maps a NaN at a position, in every channel, to NaN at that
    position, in every channel. *)
Lemma head_nan (c1 c2 : Torch.Conv2d A) (x : Tensor A) (N g H W : nat)
    (n i j : nat) :
  Torch.in_channels c1 = g ->
  Torch.in_channels c2 = Torch.out_channels c1 ->
  Torch.kernel_h c1 = 1 -> Torch.kernel_w c1 = 1 ->
  Torch.kernel_h c2 = 1 -> Torch.kernel_w c2 = 1 ->
  Torch.padding_h c1 = Z.of_nat 0 -> Torch.padding_w c1 = Z.of_nat 0 ->
  Torch.padding_h c2 = Z.of_nat 0 -> Torch.padding_w c2 = Z.of_nat 0 ->
  tshape x = [N; g; H; W] -> 1 <= H -> 1 <= W ->
  1 <= g -> 1 <= Torch.out_channels c1 -> 1 <= Torch.out_channels c2 ->
  n < N -> i < H -> j < W ->
  (forall co, co < g -> tdata x [n; co; i; j] = nan) ->
  exists y,
    Torch.Sequential
      [Torch.ReLU; Torch.Conv c1; Torch.ReLU; Torch.Conv c2; Torch.Sigmoid] x =
    Ok y /\
    forall co, tdata y [n; co; i; j] = nan.
Proof.
  intros Hin1 Hin2 Hkh1 Hkw1 Hkh2 Hkw2 Hph1 Hpw1 Hph2 Hpw2 Hx HH HW
    Hg Hout1 Hout2 Hn Hi Hj Hnan.
  assert (Hx1 : tshape (Torch.tmap relu x) = [N; g; H; W]) by exact Hx.
  destruct (@conv2d_spec A SA c1 (Torch.tmap relu x) N g H W 0 0 H W
              Hx1 Hph1 Hpw1 Hin1) as (y1 & E1 & S1 & D1); try lia.
  assert (Hx2 : tshape (Torch.tmap relu y1) =
                [N; Torch.out_channels c1; H; W]) by exact S1.
  destruct (@conv2d_spec A SA c2 (Torch.tmap relu y1) N
              (Torch.out_channels c1) H W 0 0 H W
              Hx2 Hph2 Hpw2 Hin2) as (y2 & E2 & S2 & D2); try lia.
  assert (N1 : forall co, tdata y1 [n; co; i; j] = nan).
  { intros co. rewrite D1.
    apply (@conv2d_at_nan c1 _ g H W 0 0 n co i j 0 0 0); try lia.
    replace (i + 0 - 0) with i by lia. replace (j + 0 - 0) with j by lia.
    simpl. rewrite Hnan by lia. apply relu_nan. }
  assert (N2 : forall co, tdata y2 [n; co; i; j] = nan).
  { intros co. rewrite D2.
    apply (@conv2d_at_nan c2 _ (Torch.out_channels c1) H W 0 0 n co i j
             0 0 0); try lia.
    replace (i + 0 - 0) with i by lia. replace (j + 0 - 0) with j by lia.
    simpl. rewrite N1. apply relu_nan. }
  exists (Torch.tmap sigmoid y2). split.
  - cbn [Torch.Sequential Torch.apply_layer bind].
    rewrite E1. cbn [bind]. rewrite E2. reflexivity.
  - intros co. simpl. rewrite N2. apply sigmoid_nan.
Qed.

(** X10.  NaN is not filtered out.  For a model whose channel counts
    are all positive, when the input holds NaN at pixel (r, c), in some
    channel, [forward] returns, and its output at the next pixel of the
    row, (r, c + 1), is NaN for every output component and channel. *)
Theorem forward_propagates_nan (C out_dim n_gated gated_channels
    head_channels : nat) (p : GatedPixelCNN.Params A)
    (M : GatedPixelCNN.t A) (x : Tensor A) (N H W n ch r c : nat) :
  GatedPixelCNN.__init__ C out_dim n_gated gated_channels head_channels p =
  Ok M ->
  tshape x = [N; C; H; W] ->
  1 <= out_dim -> 1 <= gated_channels -> 1 <= head_channels ->
  n < N -> ch < C -> r < H -> c + 1 < W ->
  tdata x [n; ch; r; c] = nan ->
  exists out,
    GatedPixelCNN.forward M x = Ok out /\
    tshape out = [N; out_dim; C; H; W] /\
    forall d ch', d < out_dim -> ch' < C ->
      tdata out [n; d; ch'; r; c + 1] = nan.
Proof.
  intros HM Hx Hod Hg Hhc Hn Hch Hr Hc Hnan.
  assert (HH : 1 <= H) by lia. assert (HW : 1 <= W) by lia.
  assert (HC : 1 <= C) by lia.
  rewrite model_init in HM. injection HM as <-.
  set (g := gated_channels) in *.
  destruct (@trace_exists A SA C g 3 true (GatedPixelCNN.p_input p) x x
              N H W Hx Hx HH HW HC Hg (or_introl eq_refl))
    as (tr & Hrun & Hs).
  pose proof (@runs_forward A SA _ x x N C H W tr Hx Hrun) as E0.
  pose proof (@causal_layer_skip_nan C g 3 (GatedPixelCNN.p_input p) x x
                N H W tr n ch r c Hx Hrun Hs Hg Hn Hch Hr Hc Hnan) as Hskip.
  pose proof Hs as [_ _ _ _ _ _ S7 _ _ _ _ S12 _ S14].
  destruct (@gated_loop_nan g (GatedPixelCNN.p_gated p) N H W
              (seq 0 n_gated) n r (c + 1) HH HW Hg Hn Hr Hc
              _ _ _ S7 S14 S12 Hskip)
    as (vs & hs & sc & E1 & Ssc & Hsc).
  assert (Hodc : 1 <= out_dim * C) by nia.
  match goal with
  | |- context [Torch.Conv ?c1 :: Torch.ReLU :: Torch.Conv ?c2 :: _] =>
      destruct (@head_nan c1 c2 sc N g H W n r (c + 1)
                  eq_refl eq_refl eq_refl eq_refl eq_refl eq_refl
                  eq_refl eq_refl eq_refl eq_refl Ssc HH HW Hg Hhc Hodc
                  Hn Hr Hc Hsc)
        as (y & E2 & Hy);
      destruct (@head_spec A SA c1 c2 sc N g H W
                  eq_refl eq_refl eq_refl eq_refl eq_refl eq_refl
                  eq_refl eq_refl eq_refl eq_refl Ssc HH HW Hg Hhc Hodc)
        as (z & y0 & _ & _ & E2' & Sy & _)
  end.
  assert (y0 = y) by congruence. subst y0.
  simpl Torch.out_channels in Sy.
  match goal with
  | |- context [GatedPixelCNN.forward ?M0 x] =>
      assert (Hhead : GatedPixelCNN.head_output M0 x = Ok y)
  end.
  { unfold GatedPixelCNN.head_output. rewrite Hx.
    cbn [GatedPixelCNN._input GatedPixelCNN._gated_layers GatedPixelCNN._head].
    rewrite E0. cbn [bind]. rewrite E1. cbn [bind]. exact E2. }
  destruct (@view_split_channels A y N out_dim C H W Sy)
    as (out & Eout & Sout & Dout).
  exists out.
  split; [erewrite forward_views_head; [exact Eout | exact Hx | exact Hhead]|].
  split; [exact Sout|].
  intros d ch' Hd Hch'. rewrite Dout by (trivial; lia). apply Hy.
Qed.

End NaNPropagation.

(** * Further properties of the sampling loop *)

Section SamplingLoopEffect.
Context {A : Type} {SA : Scalar A}.
Variable bernoulli_trial : nat -> list nat -> A -> bool.

Variables (n_gated gated_channels head_channels : nat).
Variable p : GatedPixelCNN.Params A.
Variable M : GatedPixelCNN.t A.
Hypothesis HM :
  GatedPixelCNN.__init__ 1 1 n_gated gated_channels head_channels p = Ok M.
Hypothesis Hgated : 1 <= gated_channels.
Hypothesis Hhead : 1 <= head_channels.

Variable x : Tensor A.
Variables (N H W : nat).








End SamplingLoopEffect.

(** * The further properties at concrete layers and inputs *)

Section FurtherInstances.



(** A model with one gated layer on 2x2 images: changing column 1 of the
    input does not change the output at pixel (0, 1). *)
Lemma forward_is_autoregressive_witness :
  agree 1 1 2 2 (fun i j => i < 0 \/ (i = 0 /\ j < 1))
    (zeros [1; 1; 2; 2]) right_column /\
  exists M,
    GatedPixelCNN.__init__ 1 1 1 4 2 zero_model_params = Ok M /\
    exists out out',
      GatedPixelCNN.forward M (zeros [1; 1; 2; 2]) = Ok out /\
      GatedPixelCNN.forward M right_column = Ok out' /\
      forall n d ch, n < 1 -> d < 1 -> ch < 1 ->
        tdata out [n; d; ch; 0; 1] = tdata out' [n; d; ch; 0; 1].
Proof.
  assert (Hag : agree 1 1 2 2 (fun i j => i < 0 \/ (i = 0 /\ j < 1))
                  (zeros [1; 1; 2; 2]) right_column).
  { intros n c i j _ _ _ _ [Hi|[_ Hj]]; [lia|]. simpl.
    destruct j as [|j]; [reflexivity | lia]. }
  split; [exact Hag|].
  eexists. split; [reflexivity|].
  apply (@forward_is_autoregressive R RScalar 1 1 1 4 2 zero_model_params _
           (zeros [1; 1; 2; 2]) right_column 1 2 2 0 1).
  - reflexivity.
  - reflexivity.
  - reflexivity.
  - lia.
  - lia.
  - lia.
  - lia.
  - lia.
  - lia.
  - exact Hag.
Defined.

(** The outcomes of [forward] on the all-zero 1x1x3x3 image. *)
Lemma model_forward_outcome_witness :
  exists M,
    GatedPixelCNN.__init__ 1 1 0 4 2 zero_model_params = Ok M /\
    (length (tshape (zeros [1; 1; 3; 3])) <> 4 ->
     GatedPixelCNN.forward M (zeros [1; 1; 3; 3]) = Err ValueError) /\
    ((exists out, GatedPixelCNN.forward M (zeros [1; 1; 3; 3]) = Ok out) <->
     (1 <= 1 /\ 1 <= 1 /\ 1 <= 4 /\ 1 <= 2 /\
      exists N H W, tshape (zeros [1; 1; 3; 3]) = [N; 1; H; W] /\
                    1 <= H /\ 1 <= W)) /\
    (length (tshape (zeros [1; 1; 3; 3])) = 4 ->
     (forall out, GatedPixelCNN.forward M (zeros [1; 1; 3; 3]) <> Ok out) ->
     GatedPixelCNN.forward M (zeros [1; 1; 3; 3]) = Err RuntimeError).
Proof.
  eexists. split; [reflexivity|].
  apply (@model_forward_outcome R RScalar 1 1 0 4 2 zero_model_params _
           (zeros [1; 1; 3; 3])).
  reflexivity.
Defined.

(** The activation on a two-channel 3x3 image over the real numbers,
    where no scalar is NaN. *)
Lemma gated_activation_range_witness :
  (forall z : R, ~ False -> (neg one <= tanh z)%R /\ (tanh z <= one)%R) /\
  (forall z : R, ~ False -> (zero <= sigmoid z)%R /\ (sigmoid z <= one)%R) /\
  (forall a b : R,
     (neg one <= a)%R -> (a <= one)%R -> (zero <= b)%R -> (b <= one)%R ->
     (neg one <= mul a b)%R /\ (mul a b <= one)%R) /\
  tshape (zeros [1; 2; 3; 3]) = [1; 2; 3; 3] /\ Nat.Even 2 /\
  exists y, GatedActivation.forward (zeros [1; 2; 3; 3]) = Ok y /\
    forall n c i j, n < 1 -> c < 2 / 2 -> i < 3 -> j < 3 ->
      ~ False -> ~ False ->
      (neg one <= tdata y [n; c; i; j])%R /\ (tdata y [n; c; i; j] <= one)%R.
Proof.
  assert (Ht : forall z : R, ~ False ->
            (neg one <= tanh z)%R /\ (tanh z <= one)%R).
  { intros z _. simpl. pose proof (Rtanh_range z). lra. }
  assert (Hs : forall z : R, ~ False ->
            (zero <= sigmoid z)%R /\ (sigmoid z <= one)%R).
  { intros z _. apply Rsigmoid_range. }
  assert (Hm : forall a b : R,
            (neg one <= a)%R -> (a <= one)%R ->
            (zero <= b)%R -> (b <= one)%R ->
            (neg one <= mul a b)%R /\ (mul a b <= one)%R).
  { simpl. intros a b Ha1 Ha2 Hb1 Hb2. split; nra. }
  split; [exact Ht|]. split; [exact Hs|]. split; [exact Hm|].
  split; [reflexivity|]. split; [exists 1; reflexivity|].
  apply (@gated_activation_range R RScalar Rle (fun _ => False) Ht Hs Hm
           (zeros [1; 2; 3; 3]) 1 2 3 3).
  - reflexivity.
  - exists 1. reflexivity.
Defined.

(** A non-causal layer from 2 to 3 channels on 2x2 images: the
    residual addition raises. *)
Lemma layer_forward_outcome_witness :
  GatedPixelCNNLayer.__init__ 2 3 3 false zero_params =
  Ok (GatedPixelCNNLayer.layer_of 2 3 1 false zero_params) /\
  ((exists out,
      GatedPixelCNNLayer.forward
        (GatedPixelCNNLayer.layer_of 2 3 1 false zero_params)
        (zeros [1; 2; 2; 2]) right_column_2 = Ok out) <->
   (1 <= 2 /\ 1 <= 2 /\ 1 <= 2 /\ 1 <= 3 /\
    (false = true \/ 2 = 3 \/ 2 = 1))) /\
  (forall vstack hstack skip,
     GatedPixelCNNLayer.forward
       (GatedPixelCNNLayer.layer_of 2 3 1 false zero_params)
       (zeros [1; 2; 2; 2]) right_column_2 = Ok (vstack, hstack, skip) ->
     tshape vstack = [1; 3; 2; 2] /\
     tshape hstack = [1; 3; 2; 2] /\
     tshape skip = [1; 3; 2; 2]) /\
  (~ (1 <= 2 /\ 1 <= 2 /\ 1 <= 2 /\ 1 <= 3 /\
      (false = true \/ 2 = 3 \/ 2 = 1)) ->
   GatedPixelCNNLayer.forward
     (GatedPixelCNNLayer.layer_of 2 3 1 false zero_params)
     (zeros [1; 2; 2; 2]) right_column_2 = Err RuntimeError).
Proof.
  split; [reflexivity|].
  apply (@layer_forward_outcome R RScalar 2 3 3 false zero_params
           (GatedPixelCNNLayer.layer_of 2 3 1 false zero_params)
           (zeros [1; 2; 2; 2]) right_column_2 1 2 2).
  - reflexivity.
  - reflexivity.
  - reflexivity.
  - lia.
Defined.



(** A model with one gated layer on the 1x2 image whose left pixel is
    NaN, over the real numbers with NaN: the output at the right pixel
    is NaN. *)
Lemma forward_propagates_nan_witness :
  (forall y : option R, add None y = None) /\
  (forall y : option R, add y None = None) /\
  (forall y : option R, mul y None = None) /\
  sigmoid (None : option R) = None /\
  relu (None : option R) = None /\
  tdata nan_left_pixel [0; 0; 0; 0] = None /\
  exists M,
    GatedPixelCNN.__init__ 1 1 1 2 2 nan_zero_model_params = Ok M /\
    exists out,
      GatedPixelCNN.forward M nan_left_pixel = Ok out /\
      tshape out = [1; 1; 1; 1; 2] /\
      forall d ch', d < 1 -> ch' < 1 ->
        tdata out [0; d; ch'; 0; 0 + 1] = None.
Proof.
  assert (H1 : forall y : option R, add None y = None) by reflexivity.
  assert (H2 : forall y : option R, add y None = None)
    by (intros [y|]; reflexivity).
  assert (H3 : forall y : option R, mul y None = None)
    by (intros [y|]; reflexivity).
  assert (H4 : sigmoid (None : option R) = None) by reflexivity.
  assert (H5 : relu (None : option R) = None) by reflexivity.
  split; [exact H1|]. split; [exact H2|]. split; [exact H3|].
  split; [exact H4|]. split; [exact H5|]. split; [reflexivity|].
  eexists. split; [reflexivity|].
  apply (@forward_propagates_nan (option R) NaNScalar None H1 H2 H3 H4 H5
           1 1 1 2 2 nan_zero_model_params _ nan_left_pixel 1 1 2 0 0 0 0).
  - reflexivity.
  - reflexivity.
  - lia.
  - lia.
  - lia.
  - lia.
  - lia.
  - lia.
  - lia.
  - reflexivity.
Defined.

End FurtherInstances.
